(** * nsqlookupd: the registration store and its TCP and HTTP front-ends

    A shallow embedding of the lookup service of
    [nsqlookupd/registration_db.go], [nsqlookupd/lookup_protocol_v1.go] and
    [nsqlookupd/http.go].  Go pointers are addresses into explicit heaps,
    [time.Now()] reads a clock that is part of the state, and a [range] over
    the registration map visits its entries in an order chosen by an
    oracle, since Go leaves that order unspecified. *)

From stdpp Require Import gmap strings list fin_maps.
From Stdlib Require Import ZArith Ascii DecimalString.

Local Open Scope string_scope.
Local Open Scope list_scope.
Local Open Scope Z_scope.

(** ** Time *)

(** A [time.Time] is an instant in nanoseconds since the Unix epoch; a
    [time.Duration] is an [int64] count of nanoseconds. *)
Abbreviation Time := Z (only parsing).
Abbreviation Duration := Z (only parsing).

Definition minDuration : Duration := - 2 ^ 63.
Definition maxDuration : Duration := 2 ^ 63 - 1.

Definition isDuration (d : Z) : Prop := minDuration <= d <= maxDuration.

(** [t.Sub(u)]: the difference, pinned to the largest or smallest
    [Duration] when it does not fit. *)
Definition Sub (t u : Time) : Duration :=
  if maxDuration <? t - u then maxDuration
  else if t - u <? minDuration then minDuration
  else t - u.

(** The two's complement reading of the low 64 bits. *)
Definition wrap64 (x : Z) : Z := (x + 2 ^ 63) mod 2 ^ 64 - 2 ^ 63.

(** [t.UnixNano()] and [time.Unix(0, n)]. *)
Definition UnixNano (t : Time) : Z := wrap64 t.
Definition Unix0 (n : Z) : Time := n.

(** The zero [time.Time]: January 1, year 1, 00:00:00 UTC. *)
Definition zeroTime : Time := - 62135596800 * 10 ^ 9.

(** The clock: the n-th call of [time.Now()] returns [reading n]. *)
Record Clock := { reading : nat -> Time; tick : nat }.

(** ** Data model *)

Record Registration := {
  Category : string;
  Key : string;
  SubKey : string
}.
Abbreviation Registrations := (list Registration) (only parsing).

#[global] Instance Registration_eq_dec : EqDecision Registration.
Proof. solve_decision. Defined.

#[global] Program Instance Registration_countable : Countable Registration :=
  inj_countable'
    (fun r => (Category r, Key r, SubKey r))
    (fun t => {| Category := t.1.1; Key := t.1.2; SubKey := t.2 |}) _.
Next Obligation. by intros []. Qed.

(** Addresses of heap objects ([*PeerInfo], [*Producer]). *)
Abbreviation ptr := nat (only parsing).

Record PeerInfo := {
  lastUpdate : Z;
  id : string;
  RemoteAddress : string;
  Hostname : string;
  BroadcastAddress : string;
  TCPPort : Z;
  HTTPPort : Z;
  Version : string
}.

Record Producer := {
  peerInfo : ptr;
  tombstoned : bool;
  tombstonedAt : Time
}.

Abbreviation Producers := (list nat) (only parsing).

(** Go's zero values, read at an address that holds no object.  No
    reachable state has such an address: every pointer of a producer list
    comes from [&Producer{peerInfo: client.peerInfo}] with a non-nil
    [client.peerInfo], and the commands keep the state [wellFormed]. *)
Definition zeroPeerInfo : PeerInfo :=
  {| lastUpdate := 0; id := ""; RemoteAddress := ""; Hostname := "";
     BroadcastAddress := ""; TCPPort := 0; HTTPPort := 0; Version := "" |}.
Definition zeroProducer : Producer :=
  {| peerInfo := 0%nat; tombstoned := false; tombstonedAt := zeroTime |}.

(** The state of the service: the two heaps, the map of the
    [RegistrationDB] and the clock. *)
Record World := {
  peers : list PeerInfo;
  prods : list Producer;
  registrationMap : gmap Registration Producers;
  clock : Clock
}.

Definition derefPeer (w : World) (a : ptr) : PeerInfo :=
  default zeroPeerInfo (peers w !! a).
Definition derefProd (w : World) (p : ptr) : Producer :=
  default zeroProducer (prods w !! p).

(** [p.peerInfo.id] for [p : *Producer]. *)
Definition producer_id (w : World) (p : ptr) : string :=
  id (derefPeer w (peerInfo (derefProd w p))).

Definition set_registrationMap (f : gmap Registration Producers -> gmap Registration Producers)
    (w : World) : World :=
  {| peers := peers w; prods := prods w;
     registrationMap := f (registrationMap w); clock := clock w |}.
Definition set_peers (f : list PeerInfo -> list PeerInfo) (w : World) : World :=
  {| peers := f (peers w); prods := prods w;
     registrationMap := registrationMap w; clock := clock w |}.
Definition set_prods (f : list Producer -> list Producer) (w : World) : World :=
  {| peers := peers w; prods := f (prods w);
     registrationMap := registrationMap w; clock := clock w |}.
Definition set_clock (c : Clock) (w : World) : World :=
  {| peers := peers w; prods := prods w;
     registrationMap := registrationMap w; clock := c |}.

(** ** The state monad of the handlers *)

Definition M (A : Type) : Type := World -> A * World.

Definition ret {A} (a : A) : M A := fun w => (a, w).
Definition bind {A B} (m : M A) (f : A -> M B) : M B :=
  fun w => let (a, w') := m w in f a w'.
Definition gets {A} (f : World -> A) : M A := fun w => (f w, w).
Definition modify (f : World -> World) : M unit := fun w => (tt, f w).

Notation "x <- m ;; k" := (bind m (fun x => k))
  (at level 100, m at next level, right associativity).
Notation "m ;;; k" := (bind m (fun _ => k))
  (at level 100, right associativity).

(** [time.Now()] *)
Definition Now : M Time := fun w =>
  let c := clock w in
  (reading c (tick c), set_clock {| reading := reading c; tick := S (tick c) |} w).

(** A [for _, x := range xs] loop whose body runs in [M] and updates a
    loop-carried value. *)
Fixpoint forM {A S} (xs : list A) (body : S -> A -> M S) (s : S) : M S :=
  match xs with
  | [] => ret s
  | x :: xs' => s' <- body s x ;; forM xs' body s'
  end.

(** ** Producer methods *)

(** [func (p *Producer) Tombstone()] *)
Definition Tombstone (p : ptr) : M unit :=
  now <- Now ;;
  modify (fun w =>
    set_prods (fun h =>
      <[p := {| peerInfo := peerInfo (derefProd w p);
                tombstoned := true; tombstonedAt := now |}]> h) w).

(** [func (p *Producer) IsTombstoned(lifetime time.Duration) bool]; the
    clock is read only when [p.tombstoned] holds. *)
Definition IsTombstoned (p : ptr) (lifetime : Duration) : M bool :=
  t <- gets (fun w => tombstoned (derefProd w p)) ;;
  if t then
    now <- Now ;;
    at_ <- gets (fun w => tombstonedAt (derefProd w p)) ;;
    ret (Sub now at_ <? lifetime)
  else ret false.

(** ** RegistrationDB *)

(** [NewRegistrationDB] *)
Definition NewRegistrationDB : gmap Registration Producers := ∅.

(** [func (r *RegistrationDB) AddRegistration(k Registration)] *)
Definition AddRegistration (k : Registration) : M unit :=
  modify (fun w =>
    match registrationMap w !! k with
    | Some _ => w
    | None => set_registrationMap (fun m => <[k := []]> m) w
    end).

(** [func (r *RegistrationDB) AddProducer(k Registration, p *Producer) bool];
    the lookup of an absent key yields the nil slice. *)
Definition AddProducer (k : Registration) (p : ptr) : M bool := fun w =>
  let producers := default [] (registrationMap w !! k) in
  let found :=
    existsb (fun producer =>
      bool_decide (producer_id w producer = producer_id w p)) producers in
  if found then (negb found, w)
  else (negb found, set_registrationMap (fun m => <[k := producers ++ [p]]> m) w).

(** The loop of [RemoveProducer]: the pair [(removed, cleaned)] after
    visiting one more producer. *)
Definition RemoveProducer_step (w : World) (id_ : string)
    (st : bool * Producers) (producer : ptr) : bool * Producers :=
  if bool_decide (producer_id w producer ≠ id_)
  then (st.1, st.2 ++ [producer])
  else (true, st.2).

(** [func (r *RegistrationDB) RemoveProducer(k Registration, id string) (bool, int)] *)
Definition RemoveProducer (k : Registration) (id_ : string) : M (bool * nat) := fun w =>
  match registrationMap w !! k with
  | None => ((false, 0%nat), w)
  | Some producers =>
      let st := fold_left (RemoveProducer_step w id_) producers (false, []) in
      ((st.1, length st.2), set_registrationMap (fun m => <[k := st.2]> m) w)
  end.

(** [func (r *RegistrationDB) RemoveRegistration(k Registration)] *)
Definition RemoveRegistration (k : Registration) : M unit :=
  modify (set_registrationMap (fun m => delete k m)).

(** [func (r *RegistrationDB) needFilter(key string, subkey string) bool] *)
Definition needFilter (key subkey : string) : bool :=
  bool_decide (key = "*") || bool_decide (subkey = "*").

(** [func (k Registration) IsMatch(category string, key string, subkey string) bool] *)
Definition IsMatch (k : Registration) (category key subkey : string) : bool :=
  if bool_decide (category ≠ Category k) then false
  else if bool_decide (key ≠ "*") && bool_decide (Key k ≠ key) then false
  else if bool_decide (subkey ≠ "*") && bool_decide (SubKey k ≠ subkey) then false
  else true.

(** The order in which a [range] over the registration map visits its
    entries.  Go fixes none, so the scans below take the order from an
    oracle that is only known to enumerate the map.  Go chooses afresh
    for every [range]: a statement that relates two scans takes an
    oracle for each. *)
Record RangeOrder := {
  range :> gmap Registration Producers -> list (Registration * Producers);
  range_perm : forall m, range m ≡ₚ map_to_list m
}.

(** One admissible order, that of [map_to_list]. *)
Definition canonicalOrder : RangeOrder :=
  {| range := map_to_list; range_perm := fun m => reflexivity (map_to_list m) |}.

(** Another one, the same entries from the far end. *)
Definition reverseOrder : RangeOrder :=
  {| range := fun m => reverse (map_to_list m);
     range_perm := fun m => reverse_Permutation (map_to_list m) |}.

Section Scans.
Context (ord : RangeOrder).

(** [func (r *RegistrationDB) FindRegistrations(category, key, subkey string) Registrations] *)
Definition FindRegistrations (category key subkey : string) : M Registrations :=
  gets (fun w =>
    if negb (needFilter key subkey) then
      let k := {| Category := category; Key := key; SubKey := subkey |} in
      match registrationMap w !! k with
      | Some _ => [k]
      | None => []
      end
    else
      fold_left (fun results kv =>
          if negb (IsMatch kv.1 category key subkey) then results
          else results ++ [kv.1])
        (ord (registrationMap w)) []).

(** The inner loop of [FindProducers]: [producer] is appended unless a
    producer of the same id is among the results already. *)
Definition FindProducers_add (w : World) (results : Producers) (producer : ptr) : Producers :=
  let found :=
    existsb (fun p => bool_decide (producer_id w producer = producer_id w p)) results in
  if found then results else results ++ [producer].

(** [func (r *RegistrationDB) FindProducers(category, key, subkey string) Producers] *)
Definition FindProducers (category key subkey : string) : M Producers :=
  gets (fun w =>
    if negb (needFilter key subkey) then
      let k := {| Category := category; Key := key; SubKey := subkey |} in
      default [] (registrationMap w !! k)
    else
      fold_left (fun results kv =>
          if negb (IsMatch kv.1 category key subkey) then results
          else fold_left (FindProducers_add w) kv.2 results)
        (ord (registrationMap w)) []).

(** [func (r *RegistrationDB) LookupRegistrations(id string) Registrations] *)
Definition LookupRegistrations (id_ : string) : M Registrations :=
  gets (fun w =>
    fold_left (fun results kv =>
        if existsb (fun p => bool_decide (producer_id w p = id_)) kv.2
        then results ++ [kv.1] else results)
      (ord (registrationMap w)) []).

End Scans.

(** [func (rr Registrations) Filter(category, key, subkey string) Registrations] *)
Definition Filter (rr : Registrations) (category key subkey : string) : Registrations :=
  fold_left (fun output k =>
      if IsMatch k category key subkey then output ++ [k] else output) rr [].

(** [func (rr Registrations) Keys() []string] *)
Definition Keys (rr : Registrations) : list string := map Key rr.

(** [func (rr Registrations) SubKeys() []string] *)
Definition SubKeys (rr : Registrations) : list string := map SubKey rr.

(** The body of the loop of [FilterByActive]; [now] is the instant read
    on entry, [IsTombstoned] reads the clock again. *)
Definition FilterByActive_step (now : Time) (inactivityTimeout tombstoneLifetime : Duration)
    (results : Producers) (p : ptr) : M Producers :=
  cur <- gets (fun w => Unix0 (lastUpdate (derefPeer w (peerInfo (derefProd w p))))) ;;
  if inactivityTimeout <? Sub now cur then ret results
  else
    dead <- IsTombstoned p tombstoneLifetime ;;
    if dead then ret results else ret (results ++ [p]).

(** [func (pp Producers) FilterByActive(inactivityTimeout, tombstoneLifetime time.Duration) Producers] *)
Definition FilterByActive (pp : Producers) (inactivityTimeout tombstoneLifetime : Duration)
    : M Producers :=
  now <- Now ;;
  forM pp (FilterByActive_step now inactivityTimeout tombstoneLifetime) [].

(** [func (pp Producers) PeerInfo() []*PeerInfo] *)
Definition Producers_PeerInfo (pp : Producers) : M (list ptr) :=
  gets (fun w =>
    fold_left (fun results p => results ++ [peerInfo (derefProd w p)]) pp []).

(** ** Strings *)

(** [strings.HasSuffix] *)
Definition HasSuffix (s suffix : string) : bool :=
  let n := String.length s in
  let k := String.length suffix in
  (k <=? n)%nat && bool_decide (String.substring (n - k) k s = suffix).

(** The [%d] verb of [fmt.Sprintf]. *)
Definition itoa (n : Z) : string := NilZero.string_of_int (Z.to_int n).

(** ** The TCP protocol, V1 *)

(** Modelled from the spec: the type [ClientV1] is declared outside the
    sources at hand.  The protocol reads the remote address of the
    connection and the [peerInfo] pointer, nil until IDENTIFY succeeds. *)
Record ClientV1 := {
  RemoteAddr : string;
  client_peerInfo : option ptr
}.

(** Modelled from the spec: [protocol.FatalClientErr] is declared outside
    the sources at hand; it carries a code and a description, its text is
    [code ++ " " ++ description], and it closes the connection. *)
Inductive ClientErr :=
  | FatalClientErr (Code Desc : string).

Definition ClientErr_Error (e : ClientErr) : string :=
  match e with FatalClientErr code desc => code +:+ " " +:+ desc end.

(** What IDENTIFY finds after its command line: no body size
    ([binary.Read] fails), a body that ends early ([io.ReadFull] fails), a
    body that is not the JSON of a PeerInfo ([json.Unmarshal] fails), or
    the exported fields of the PeerInfo as decoded, zero when absent.
    These are the ways in which IDENTIFY returns; a size that is read as
    a negative number, at which it panics, is the matter of
    [IDENTIFY_bytes]. *)
Inductive IdentifyBody :=
  | NoBodySize
  | ShortBody
  | BadJSON
  | Decoded (remote_address hostname broadcast_address : string)
            (tcp_port http_port : Z) (version : string).

(** What the reply of IDENTIFY is built from: the ports of the two
    listeners, [version.Binary], [os.Hostname()] and
    [opts.BroadcastAddress]. *)
Record ServerInfo := {
  RealTCPPort : Z;
  RealHTTPPort : Z;
  versionBinary : string;
  osHostname : string;
  optsBroadcastAddress : string
}.

(** The JSON object IDENTIFY answers with. *)
Record IdentifyReply := {
  reply_tcp_port : Z;
  reply_http_port : Z;
  reply_version : string;
  reply_broadcast_address : string;
  reply_hostname : string
}.

(** The object [&Producer{peerInfo: a}] points to. *)
Definition freshProducer (a : ptr) : Producer :=
  {| peerInfo := a; tombstoned := false; tombstonedAt := zeroTime |}.

Section Protocol.
Context (ord : RangeOrder) (server : ServerInfo).
(** [protocol.IsValidTopicName] and [protocol.IsValidChannelName] are not
    among the sources at hand; the protocol is parametric in them. *)
Context (IsValidTopicName IsValidChannelName : string -> bool).

(** [func getTopicChan(command string, params []string) (string, string, error)] *)
Definition getTopicChan (command : string) (params : list string)
    : ClientErr + string * string :=
  match params with
  | [] => inl (FatalClientErr "E_INVALID" (command +:+ " insufficient number of params"))
  | topicName :: rest =>
      let channelName := match rest with [] => "" | c :: _ => c end in
      if negb (IsValidTopicName topicName) then
        inl (FatalClientErr "E_BAD_TOPIC"
               (command +:+ " topic name '" +:+ topicName +:+ "' is not valid"))
      else if bool_decide (channelName ≠ "") && negb (IsValidChannelName channelName) then
        inl (FatalClientErr "E_BAD_CHANNEL"
               (command +:+ " channel name '" +:+ channelName +:+ "' is not valid"))
      else inr (topicName, channelName)
  end.

(** [&Producer{peerInfo: a}]: a fresh object at the end of the heap. *)
Definition newProducer (a : ptr) : M ptr := fun w =>
  (length (prods w), set_prods (fun h => h ++ [freshProducer a]) w).

(** [&peerInfo]: the PeerInfo moves to a fresh address of the heap. *)
Definition newPeerInfo (pi : PeerInfo) : M ptr := fun w =>
  (length (peers w), set_peers (fun h => h ++ [pi]) w).

(** [client.peerInfo.id] *)
Definition peer_id (a : ptr) : M string := gets (fun w => id (derefPeer w a)).

(** [func (p *LookupProtocolV1) REGISTER(client, reader, params) ([]byte, error)] *)
Definition REGISTER (client : ClientV1) (params : list string) : M (ClientErr + string) :=
  match client_peerInfo client with
  | None => ret (inl (FatalClientErr "E_INVALID" "client must IDENTIFY"))
  | Some a =>
      match getTopicChan "REGISTER" params with
      | inl err => ret (inl err)
      | inr (topic, channel) =>
          (if bool_decide (channel ≠ "") then
             let key := {| Category := "channel"; Key := topic; SubKey := channel |} in
             p <- newProducer a ;;
             _ <- AddProducer key p ;;
             ret tt
           else ret tt) ;;;
          let key := {| Category := "topic"; Key := topic; SubKey := "" |} in
          p <- newProducer a ;;
          _ <- AddProducer key p ;;
          ret (inr "OK")
      end
  end.

(** [func (p *LookupProtocolV1) UNREGISTER(client, reader, params) ([]byte, error)] *)
Definition UNREGISTER (client : ClientV1) (params : list string) : M (ClientErr + string) :=
  match client_peerInfo client with
  | None => ret (inl (FatalClientErr "E_INVALID" "client must IDENTIFY"))
  | Some a =>
      match getTopicChan "UNREGISTER" params with
      | inl err => ret (inl err)
      | inr (topic, channel) =>
          (if bool_decide (channel ≠ "") then
             let key := {| Category := "channel"; Key := topic; SubKey := channel |} in
             cid <- peer_id a ;;
             rl <- RemoveProducer key cid ;;
             if (rl.2 =? 0)%nat && HasSuffix channel "#ephemeral"
             then RemoveRegistration key
             else ret tt
           else
             registrations <- FindRegistrations ord "channel" topic "*" ;;
             forM registrations (fun _ r =>
               cid <- peer_id a ;;
               _ <- RemoveProducer r cid ;;
               ret tt) tt ;;;
             let key := {| Category := "topic"; Key := topic; SubKey := "" |} in
             cid <- peer_id a ;;
             _ <- RemoveProducer key cid ;;
             ret tt) ;;;
          ret (inr "OK")
      end
  end.

(** [atomic.StoreInt64(&a.lastUpdate, n)] *)
Definition StoreLastUpdate (a : ptr) (n : Z) : M unit :=
  modify (fun w =>
    let old := derefPeer w a in
    set_peers (fun h =>
      <[a := {| lastUpdate := n; id := id old; RemoteAddress := RemoteAddress old;
                Hostname := Hostname old; BroadcastAddress := BroadcastAddress old;
                TCPPort := TCPPort old; HTTPPort := HTTPPort old;
                Version := Version old |}]> h) w).

(** [func (p *LookupProtocolV1) PING(client, params) ([]byte, error)] *)
Definition PING (client : ClientV1) (params : list string) : M (ClientErr + string) :=
  match client_peerInfo client with
  | Some a =>
      (* the previous value is loaded for the log line only *)
      cur <- gets (fun w => Unix0 (lastUpdate (derefPeer w a))) ;;
      now <- Now ;;
      StoreLastUpdate a (UnixNano now) ;;;
      ret (inr "OK")
  | None => ret (inr "OK")
  end.

(** [func (p *LookupProtocolV1) IDENTIFY(client, reader, params) ([]byte, error)];
    the client comes back with its [peerInfo] set.  [json.Marshal] does not
    fail on the reply. *)
Definition IDENTIFY (client : ClientV1) (body : IdentifyBody)
    : M ((ClientErr + IdentifyReply) * ClientV1) :=
  match client_peerInfo client with
  | Some _ => ret (inl (FatalClientErr "E_INVALID" "cannot IDENTIFY again"), client)
  | None =>
      match body with
      | NoBodySize =>
          ret (inl (FatalClientErr "E_BAD_BODY" "IDENTIFY failed to read body size"), client)
      | ShortBody =>
          ret (inl (FatalClientErr "E_BAD_BODY" "IDENTIFY failed to read body"), client)
      | BadJSON =>
          ret (inl (FatalClientErr "E_BAD_BODY" "IDENTIFY failed to decode JSON body"), client)
      | Decoded _ hostname broadcast_address tcp_port http_port version =>
          if bool_decide (broadcast_address = "") || (tcp_port =? 0) || (http_port =? 0)
             || bool_decide (version = "")
          then ret (inl (FatalClientErr "E_BAD_BODY" "IDENTIFY missing fields"), client)
          else
            now <- Now ;;
            a <- newPeerInfo
                   {| lastUpdate := UnixNano now; id := RemoteAddr client;
                      RemoteAddress := RemoteAddr client; Hostname := hostname;
                      BroadcastAddress := broadcast_address; TCPPort := tcp_port;
                      HTTPPort := http_port; Version := version |} ;;
            let client' := {| RemoteAddr := RemoteAddr client; client_peerInfo := Some a |} in
            p <- newProducer a ;;
            _ <- AddProducer {| Category := "client"; Key := ""; SubKey := "" |} p ;;
            ret (inr {| reply_tcp_port := RealTCPPort server;
                        reply_http_port := RealHTTPPort server;
                        reply_version := versionBinary server;
                        reply_broadcast_address := optsBroadcastAddress server;
                        reply_hostname := osHostname server |},
                 client')
      end
  end.

End Protocol.

(** ** The HTTP API *)

(** [http_api.Err] *)
Record Err := { Code : Z; Text : string }.

(** The status the [http_api.V1] decorator answers with: the code of the
    error, or 200. *)
Definition V1_status {A} (r : Err + A) : Z :=
  match r with inl e => Code e | inr _ => 200 end.

(** Modelled from the spec: [http_api.NewReqParams] and [ReqParams.Get]
    are declared outside the sources at hand.  A request carries its query
    as (name, value) pairs, or nothing when the query does not parse;
    [Get] fails for a name that is missing. *)
Record Request := { query : option (list (string * string)) }.
Abbreviation ReqParams := (list (string * string)) (only parsing).
Definition NewReqParams (req : Request) : option ReqParams := query req.
Definition Get (reqParams : ReqParams) (key : string) : option string :=
  snd <$> List.find (fun kv => bool_decide (kv.1 = key)) reqParams.

(** Modelled from the spec: the [Options] record is declared outside the
    sources at hand; the handlers read these two fields of it. *)
Record Options := {
  InactiveProducerTimeout : Duration;
  TombstoneLifetime : Duration
}.

(** The payload of [/lookup]. *)
Record LookupData := {
  channels : list string;
  producers : list ptr
}.

Module Node.
(** [type node struct]; [Tombstones] is a slice, the address of its array
    in the memory of the handler. *)
Record node := {
  RemoteAddress : string;
  Hostname : string;
  BroadcastAddress : string;
  TCPPort : Z;
  HTTPPort : Z;
  Version : string;
  Tombstones : nat;
  Topics : list string
}.
End Node.

(** The payload of [/nodes]: the nodes and the [[]bool] arrays their
    [Tombstones] slices point into. *)
Record NodesData := {
  nodes : list Node.node;
  arrays : list (list bool)
}.

(** What the JSON encoder prints for the [tombstones] of a node. *)
Definition tombstones_of (d : NodesData) (n : Node.node) : list bool :=
  default [] (arrays d !! Node.Tombstones n).

(** [s[j] = b] for the slice [s] of the memory [mem]. *)
Definition slice_store (mem : list (list bool)) (s j : nat) (b : bool) : list (list bool) :=
  <[s := <[j := b]> (default [] (mem !! s))]> mem.

(** [fmt.Sprintf("%s:%d", p.peerInfo.BroadcastAddress, p.peerInfo.HTTPPort)] *)
Definition node_of (w : World) (p : ptr) : string :=
  let pi := derefPeer w (peerInfo (derefProd w p)) in
  BroadcastAddress pi +:+ ":" +:+ itoa (HTTPPort pi).

(** The body of the loop of [doTombstoneTopicProducer], for the argument
    [node]. *)
Definition tombstoneBody (node : string) (_ : unit) (p : ptr) : M unit :=
  thisNode <- gets (fun w => node_of w p) ;;
  if bool_decide (thisNode = node) then Tombstone p else ret tt.

Section HTTP.
Context (ord : RangeOrder) (opts : Options).

(** [func (s *httpServer) doLookup(w, req, ps) (interface{}, error)] *)
Definition doLookup (req : Request) : M (Err + LookupData) :=
  match NewReqParams req with
  | None => ret (inl {| Code := 400; Text := "INVALID_REQUEST" |})
  | Some reqParams =>
      match Get reqParams "topic" with
      | None => ret (inl {| Code := 400; Text := "MISSING_ARG_TOPIC" |})
      | Some topicName =>
          registration <- FindRegistrations ord "topic" topicName "" ;;
          if (length registration =? 0)%nat then
            ret (inl {| Code := 404; Text := "TOPIC_NOT_FOUND" |})
          else
            rr <- FindRegistrations ord "channel" topicName "*" ;;
            let channels := SubKeys rr in
            producers <- FindProducers ord "topic" topicName "" ;;
            producers <- FilterByActive producers
                           (InactiveProducerTimeout opts) (TombstoneLifetime opts) ;;
            infos <- Producers_PeerInfo producers ;;
            ret (inr {| channels := channels; producers := infos |})
      end
  end.

(** [func (s *httpServer) doTombstoneTopicProducer(w, req, ps) (interface{}, error)] *)
Definition doTombstoneTopicProducer (req : Request) : M (Err + unit) :=
  match NewReqParams req with
  | None => ret (inl {| Code := 400; Text := "INVALID_REQUEST" |})
  | Some reqParams =>
      match Get reqParams "topic" with
      | None => ret (inl {| Code := 400; Text := "MISSING_ARG_TOPIC" |})
      | Some topicName =>
          match Get reqParams "node" with
          | None => ret (inl {| Code := 400; Text := "MISSING_ARG_NODE" |})
          | Some node =>
              producers <- FindProducers ord "topic" topicName "" ;;
              forM producers (tombstoneBody node) tt ;;;
              ret (inr tt)
          end
      end
  end.

(** [&node{...}] for the producer [p]. *)
Definition mkNode (p : ptr) (tombstones : nat) (topics : list string) : M Node.node :=
  gets (fun w =>
    let pi := derefPeer w (peerInfo (derefProd w p)) in
    {| Node.RemoteAddress := RemoteAddress pi;
       Node.Hostname := Hostname pi;
       Node.BroadcastAddress := BroadcastAddress pi;
       Node.TCPPort := TCPPort pi;
       Node.HTTPPort := HTTPPort pi;
       Node.Version := Version pi;
       Node.Tombstones := tombstones;
       Node.Topics := topics |}).

(** The innermost loop of [doNodes]: every [tp] whose [peerInfo] pointer is
    that of [p] stores its tombstone state at index [j] of [tombstones]. *)
Definition doNodes_mark (p : ptr) (tombstones j : nat) (topicProducers : Producers)
    (mem : list (list bool)) : M (list (list bool)) :=
  forM topicProducers (fun mem tp =>
    same <- gets (fun w =>
      bool_decide (peerInfo (derefProd w tp) = peerInfo (derefProd w p))) ;;
    if same then
      b <- IsTombstoned tp (TombstoneLifetime opts) ;;
      ret (slice_store mem tombstones j b)
    else ret mem) mem.

(** [func (s *httpServer) doNodes(w, req, ps) (interface{}, error)], as the
    source has it: [topics], [tombstones] and [topicProducers] are computed
    once, above the loop over the producers.  The [p] they are computed
    from is not bound there; it is the parameter [p0].  The name
    [topicProduers] of the first loop is read as [topicProducers].  Every
    node receives the slice [tombstones], that is the address of the one
    array, which the later rounds of the loop keep writing to. *)
Definition doNodes (p0 : ptr) : M (Err + NodesData) :=
  clients <- FindProducers ord "client" "" "" ;;
  producers <- FilterByActive clients (InactiveProducerTimeout opts) 0 ;;
  id0 <- gets (fun w => producer_id w p0) ;;
  rr <- LookupRegistrations ord id0 ;;
  let topics := Keys (Filter rr "topic" "*" "") in
  let tombstones := 0%nat in
  let mem := [replicate (length topics) false] in
  topicProducers <- forM topics (fun acc t =>
    found <- FindProducers ord "topic" t "" ;;
    ret (acc ++ found)) [] ;;
  st <- forM producers (fun st p =>
    mem <- forM (seq 0 (length topics)) (fun mem j =>
             doNodes_mark p tombstones j topicProducers mem) st.1 ;;
    n <- mkNode p tombstones topics ;;
    ret (mem, st.2 ++ [n])) (mem, []) ;;
  ret (inr {| nodes := st.2; arrays := st.1 |}).

End HTTP.

(** ** Histories of store operations *)

Inductive Op :=
  | OpAddProducer (k : Registration) (p : ptr)
  | OpRemoveProducer (k : Registration) (id_ : string).

Definition runOp (w : World) (o : Op) : World :=
  match o with
  | OpAddProducer k p => (AddProducer k p w).2
  | OpRemoveProducer k id_ => (RemoveProducer k id_ w).2
  end.

Definition runOps (ops : list Op) (w : World) : World := fold_left runOp ops w.

(** The store of [NewRegistrationDB], next to arbitrary heaps. *)
Definition emptyStore (ps : list PeerInfo) (pr : list Producer) (c : Clock) : World :=
  {| peers := ps; prods := pr; registrationMap := NewRegistrationDB; clock := c |}.

(** No list of the store holds two producers of one id. *)
Definition uniqueIds (w : World) : Prop :=
  forall k l, registrationMap w !! k = Some l -> NoDup (producer_id w <$> l).

(** ** Observations, predicates and states of the statements *)

(** The fields of a producer, as read through its pointer. *)
Definition last_update (w : World) (p : ptr) : Z :=
  lastUpdate (derefPeer w (peerInfo (derefProd w p))).
Definition is_tombstoned (w : World) (p : ptr) : bool := tombstoned (derefProd w p).
Definition tombstoned_at (w : World) (p : ptr) : Time := tombstonedAt (derefProd w p).

(** The clock stands at [now] for the duration of a call. *)
Definition frozenAt (now : Time) (w : World) : Prop :=
  forall n, reading (clock w) n = now.

(** [w'] is [w] but for the number of clock readings taken. *)
Definition steady (w w' : World) : Prop :=
  peers w' = peers w /\ prods w' = prods w /\
  registrationMap w' = registrationMap w /\
  reading (clock w') = reading (clock w).

(** The time stamps of [p] lie within a [Duration] of [now]. *)
Definition timely (now : Time) (w : World) (p : ptr) : Prop :=
  isDuration (now - last_update w p) /\
  (is_tombstoned w p = true -> isDuration (now - tombstoned_at w p)).

(** A producer is currently tombstoned, and is active, in the words of
    the specification. *)
Definition currentlyTombstoned (now : Time) (tombstoneLifetime : Duration)
    (w : World) (p : ptr) : Prop :=
  is_tombstoned w p = true /\ now - tombstoned_at w p < tombstoneLifetime.

Definition active (now : Time) (inactivityTimeout tombstoneLifetime : Duration)
    (w : World) (p : ptr) : Prop :=
  now - last_update w p <= inactivityTimeout /\
  ¬ currentlyTombstoned now tombstoneLifetime w p.

#[global] Instance currentlyTombstoned_dec now lt w p :
  Decision (currentlyTombstoned now lt w p).
Proof. unfold currentlyTombstoned. apply _. Defined.

#[global] Instance active_dec now it lt w p : Decision (active now it lt w p).
Proof. unfold active. apply _. Defined.

(** A registration matches a query, in the words of the specification:
    the category is equal, and key and subkey are equal or queried with
    the wildcard. *)
Definition matches (k : Registration) (category key subkey : string) : Prop :=
  Category k = category /\ (key = "*" \/ Key k = key) /\ (subkey = "*" \/ SubKey k = subkey).

(** The store after UNREGISTER with a channel: the producers of the
    client leave the list of the channel, and the key goes when nothing
    is left under an ephemeral name. *)
Definition unregisteredChannel (w : World) (key : Registration) (cid channel : string)
    : gmap Registration (list ptr) :=
  match registrationMap w !! key with
  | None => registrationMap w
  | Some l =>
      let cleaned := filter (fun p => producer_id w p ≠ cid) l in
      if bool_decide (cleaned = []) && HasSuffix channel "#ephemeral"
      then delete key (registrationMap w)
      else <[key := cleaned]> (registrationMap w)
  end.

#[global] Instance matches_dec k category key subkey :
  Decision (matches k category key subkey).
Proof. unfold matches. apply _. Defined.

(** What a handler may observe of the state besides the tick count. *)
Definition snapshot (w : World) :=
  (peers w, prods w, registrationMap w, reading (clock w)).

Section NodesReference.
Context (ord : RangeOrder) (opts : Options).

(** [doNodes] in the words of the specification, which are those of the
    lines the source keeps as comments: the topics of a producer, its
    array of tombstones and the producers of each topic are computed
    inside the loop over the producers. *)
Definition doNodes_perProducer : M (Err + NodesData) :=
  clients <- FindProducers ord "client" "" "" ;;
  producers <- FilterByActive clients (InactiveProducerTimeout opts) 0 ;;
  st <- forM producers (fun st p =>
    id_ <- gets (fun w => producer_id w p) ;;
    rr <- LookupRegistrations ord id_ ;;
    let topics := Keys (Filter rr "topic" "*" "") in
    let tombstones := length st.1 in
    let mem := st.1 ++ [replicate (length topics) false] in
    mem <- forM (zip (seq 0 (length topics)) topics) (fun mem jt =>
             topicProducers <- FindProducers ord "topic" jt.2 "" ;;
             doNodes_mark opts p tombstones jt.1 topicProducers mem) mem ;;
    n <- mkNode p tombstones topics ;;
    ret (mem, st.2 ++ [n])) ([], []) ;;
  ret (inr {| nodes := st.2; arrays := st.1 |}).

End NodesReference.

(** What a client of [/nodes] reads: for each node its address, its
    topics and the values of its tombstones. *)
Definition rendered (r : Err + NodesData) : list (string * list string * list bool) :=
  match r with
  | inl _ => []
  | inr d => (fun n => (Node.RemoteAddress n, Node.Topics n, tombstones_of d n)) <$> nodes d
  end.

(** Modelled from the spec: [protocol.IsValidTopicName] and
    [protocol.IsValidChannelName] are not among the sources at hand.  A
    valid name is a non-empty string of at most 64 characters, each of
    [.a-zA-Z0-9_-]; a channel name may end in [#ephemeral]. *)
Definition validChar (c : Ascii.ascii) : bool :=
  let n := Ascii.nat_of_ascii c in
  ((97 <=? n) && (n <=? 122) || (65 <=? n) && (n <=? 90) || (48 <=? n) && (n <=? 57)
   || (n =? 46) || (n =? 95) || (n =? 45))%nat.

Fixpoint validChars (s : string) : bool :=
  match s with
  | EmptyString => true
  | String c s' => validChar c && validChars s'
  end.

Definition validTopicName (name : string) : bool :=
  (1 <=? String.length name)%nat && (String.length name <=? 64)%nat && validChars name.

Definition validChannelName (name : string) : bool :=
  (1 <=? String.length name)%nat && (String.length name <=? 64)%nat &&
  (if HasSuffix name "#ephemeral"
   then let stem := String.substring 0 (String.length name - 10) name in
        (1 <=? String.length stem)%nat && validChars stem
   else validChars name).

(** [p] carries a tombstone stamped by some reading of the clock. *)
Definition stamped (w : World) (p : ptr) : Prop :=
  is_tombstoned w p = true /\ exists n, tombstoned_at w p = reading (clock w) n.

(** The claim that the registrations of a connection share one Producer
    instance, and with it the tombstone: producers that point to one
    PeerInfo, wherever they are listed, are one object in one state. *)
Definition oneProducerPerConnection (w : World) : Prop :=
  forall k1 k2 l1 l2 p q,
    registrationMap w !! k1 = Some l1 -> registrationMap w !! k2 = Some l2 ->
    p ∈ l1 -> q ∈ l2 ->
    peerInfo (derefProd w p) = peerInfo (derefProd w q) ->
    p = q /\ is_tombstoned w p = is_tombstoned w q /\
    tombstoned_at w p = tombstoned_at w q.

(** Every producer that the store lists is an object of the heap. *)
Definition allocated (w : World) : Prop :=
  forall k l p, registrationMap w !! k = Some l -> p ∈ l -> (p < length (prods w))%nat.

(** Every pointer of the state leads to an object: the producers that
    the store lists are in the heap, and so is the PeerInfo of every
    producer. *)
Definition wellFormed (w : World) : Prop :=
  allocated w /\
  forall p pr, prods w !! p = Some pr -> (peerInfo pr < length (peers w))%nat.

(** The client points to a PeerInfo of the heap, if to any. *)
Definition clientOk (client : ClientV1) (w : World) : Prop :=
  forall a, client_peerInfo client = Some a -> (a < length (peers w))%nat.

(** ** A run of the service *)

Definition clockAt (now : Time) : Clock := {| reading := fun _ => now; tick := 0 |}.

Definition someOptions : Options :=
  {| InactiveProducerTimeout := 300; TombstoneLifetime := 45 |}.

Definition lookupd : ServerInfo :=
  {| RealTCPPort := 4160; RealHTTPPort := 4161; versionBinary := "1.0";
     osHostname := "lookup1"; optsBroadcastAddress := "lookup1" |}.

(** The service as it starts, its clock standing at 100. *)
Definition started : World :=
  {| peers := []; prods := []; registrationMap := NewRegistrationDB; clock := clockAt 100 |}.

(** Three connections that have sent nothing yet. *)
Definition connA : ClientV1 := {| RemoteAddr := "10.0.0.1:5000"; client_peerInfo := None |}.
Definition connB : ClientV1 := {| RemoteAddr := "10.0.0.2:5000"; client_peerInfo := None |}.
Definition freshClient : ClientV1 :=
  {| RemoteAddr := "10.0.0.3:5000"; client_peerInfo := None |}.

Definition bodyA : IdentifyBody := Decoded "" "hostA" "A" 4150 4151 "1.0".
Definition bodyB : IdentifyBody := Decoded "" "hostB" "B" 4150 4151 "1.0".

(** Connection A after IDENTIFY. *)
Definition clientA : ClientV1 := (IDENTIFY lookupd connA bodyA started).1.2.
Definition identifiedA : World := (IDENTIFY lookupd connA bodyA started).2.

(** [REGISTER topicX ch] by A, then
    [POST /topic/tombstone?topic=topicX&node=A:4151]. *)
Definition registeredA : World :=
  (REGISTER validTopicName validChannelName clientA ["topicX"; "ch"] identifiedA).2.

Definition tombstonedA : World :=
  (doTombstoneTopicProducer canonicalOrder
     {| query := Some [("topic", "topicX"); ("node", "A:4151")] |} registeredA).2.

(** A after [REGISTER tA c1#ephemeral]. *)
Definition ephemeralA : World :=
  (REGISTER validTopicName validChannelName clientA ["tA"; "c1#ephemeral"] identifiedA).2.

(** An ephemeral channel made the way [/channel/create] makes it, by
    AddRegistration of the channel and of the topic, with no producer. *)
Definition createdEphemeral : World :=
  (AddRegistration {| Category := "topic"; Key := "tA"; SubKey := "" |}
     (AddRegistration {| Category := "channel"; Key := "tA"; SubKey := "c1#ephemeral" |}
        identifiedA).2).2.

(** Two producers: A and B identify, A registers topic [a], B registers
    topic [b], and B is tombstoned for [b]. *)
Definition clientB : ClientV1 := (IDENTIFY lookupd connB bodyB identifiedA).1.2.

Definition twoNodes : World :=
  let w2 := (IDENTIFY lookupd connB bodyB identifiedA).2 in
  let w3 := (REGISTER validTopicName validChannelName clientA ["a"] w2).2 in
  let w4 := (REGISTER validTopicName validChannelName clientB ["b"] w3).2 in
  (doTombstoneTopicProducer canonicalOrder
     {| query := Some [("topic", "b"); ("node", "B:4151")] |} w4).2.

(** ** The rest of the HTTP API *)

(** One producer in the dump of [/debug]. *)
Record DebugEntry := {
  debug_id : string;
  debug_hostname : string;
  debug_broadcast_address : string;
  debug_tcp_port : Z;
  debug_http_port : Z;
  debug_version : string;
  debug_last_update : Z;
  debug_tombstoned : bool;
  debug_tombstoned_at : Z
}.

(** The entry [doDebug] builds for the producer [p]. *)
Definition debugEntry (w : World) (p : ptr) : DebugEntry :=
  let pr := derefProd w p in
  let pi := derefPeer w (peerInfo pr) in
  {| debug_id := id pi;
     debug_hostname := Hostname pi;
     debug_broadcast_address := BroadcastAddress pi;
     debug_tcp_port := TCPPort pi;
     debug_http_port := HTTPPort pi;
     debug_version := Version pi;
     debug_last_update := lastUpdate pi;
     debug_tombstoned := tombstoned pr;
     debug_tombstoned_at := UnixNano (tombstonedAt pr) |}.

(** [r.Category + ":" + r.Key + ":" + r.SubKey] *)
Definition debugKey (r : Registration) : string :=
  Category r +:+ ":" +:+ Key r +:+ ":" +:+ SubKey r.

Section HTTPAdmin.
Context (ord : RangeOrder).
(** [protocol.IsValidTopicName] and [http_api.GetTopicChannelArgs] are not
    among the sources at hand; the handlers are parametric in them.  The
    latter answers the text of its error, or the topic and the channel. *)
Context (IsValidTopicName : string -> bool).
Context (GetTopicChannelArgs : ReqParams -> string + string * string).

(** [func (s *httpServer) doTopics(w, req, ps) (interface{}, error)] *)
Definition doTopics (req : Request) : M (Err + list string) :=
  rr <- FindRegistrations ord "topic" "*" "" ;;
  ret (inr (Keys rr)).

(** [func (s *httpServer) doChannels(w, req, ps) (interface{}, error)] *)
Definition doChannels (req : Request) : M (Err + list string) :=
  match NewReqParams req with
  | None => ret (inl {| Code := 400; Text := "INVALID_REQUEST" |})
  | Some reqParams =>
      match Get reqParams "topic" with
      | None => ret (inl {| Code := 400; Text := "MISSING_ARG_TOPIC" |})
      | Some topicName =>
          rr <- FindRegistrations ord "channel" topicName "*" ;;
          ret (inr (SubKeys rr))
      end
  end.

(** [func (s *httpServer) doCreateTopic(w, req, ps) (interface{}, error)] *)
Definition doCreateTopic (req : Request) : M (Err + unit) :=
  match NewReqParams req with
  | None => ret (inl {| Code := 400; Text := "INVALID_REQUEST" |})
  | Some reqParams =>
      match Get reqParams "topic" with
      | None => ret (inl {| Code := 400; Text := "MISSING_ARG_TOPIC" |})
      | Some topicName =>
          if negb (IsValidTopicName topicName) then
            ret (inl {| Code := 400; Text := "INVALID_ARG_TOPIC" |})
          else
            let key := {| Category := "topic"; Key := topicName; SubKey := "" |} in
            AddRegistration key ;;;
            ret (inr tt)
      end
  end.

(** [func (s *httpServer) doDeleteTopic(w, req, ps) (interface{}, error)] *)
Definition doDeleteTopic (req : Request) : M (Err + unit) :=
  match NewReqParams req with
  | None => ret (inl {| Code := 400; Text := "INVALID_REQUEST" |})
  | Some reqParams =>
      match Get reqParams "topic" with
      | None => ret (inl {| Code := 400; Text := "MISSING_ARG_TOPIC" |})
      | Some topicName =>
          registrations <- FindRegistrations ord "channel" topicName "*" ;;
          forM registrations (fun _ registration =>
            RemoveRegistration registration) tt ;;;
          registrations <- FindRegistrations ord "topic" topicName "" ;;
          forM registrations (fun _ registration =>
            RemoveRegistration registration) tt ;;;
          ret (inr tt)
      end
  end.

(** [func (s *httpServer) doCreateChannel(w, req, ps) (interface{}, error)] *)
Definition doCreateChannel (req : Request) : M (Err + unit) :=
  match NewReqParams req with
  | None => ret (inl {| Code := 400; Text := "INVALID_REQUEST" |})
  | Some reqParams =>
      match GetTopicChannelArgs reqParams with
      | inl err => ret (inl {| Code := 400; Text := err |})
      | inr (topicName, channelName) =>
          let key := {| Category := "channel"; Key := topicName; SubKey := channelName |} in
          AddRegistration key ;;;
          let key := {| Category := "topic"; Key := topicName; SubKey := "" |} in
          AddRegistration key ;;;
          ret (inr tt)
      end
  end.

(** [func (s *httpServer) doDeleteChannel(w, req, ps) (interface{}, error)] *)
Definition doDeleteChannel (req : Request) : M (Err + unit) :=
  match NewReqParams req with
  | None => ret (inl {| Code := 400; Text := "INVALID_REQUEST" |})
  | Some reqParams =>
      match GetTopicChannelArgs reqParams with
      | inl err => ret (inl {| Code := 400; Text := err |})
      | inr (topicName, channelName) =>
          registrations <- FindRegistrations ord "channel" topicName channelName ;;
          if (length registrations =? 0)%nat then
            ret (inl {| Code := 404; Text := "CHANNEL_NOT_FOUND" |})
          else
            forM registrations (fun _ registration =>
              RemoveRegistration registration) tt ;;;
            ret (inr tt)
      end
  end.

(** [func (s *httpServer) doDebug(w, req, ps) (interface{}, error)]; the
    dump is a map from the text of a registration to its entries. *)
Definition doDebug (req : Request) : M (Err + gmap string (list DebugEntry)) :=
  gets (fun w =>
    inr (fold_left (fun data rp =>
           let key := debugKey rp.1 in
           fold_left (fun data p =>
               <[key := default [] (data !! key) ++ [debugEntry w p]]> data)
             rp.2 data)
         (ord (registrationMap w)) ∅)).

End HTTPAdmin.

(** ** The command loop of a connection *)

(** What a command answers with: the bytes of REGISTER, UNREGISTER and
    PING, or the object of IDENTIFY. *)
Inductive Reply :=
  | ReplyBytes (payload : string)
  | ReplyIdentify (r : IdentifyReply).

(** One round of the loop of [IOLoop], as the connection presents it: the
    first token of the trimmed line and the tokens after it (so what
    [strings.Split(strings.TrimSpace(line), " ")] gives, which is never
    empty), what IDENTIFY would find as its body, and whether the answer
    can be written to the connection. *)
Record Input := {
  command : string;
  arguments : list string;
  body : IdentifyBody;
  sendOk : bool
}.

Section Loop.
Context (ord : RangeOrder) (server : ServerInfo).
Context (IsValidTopicName IsValidChannelName : string -> bool).

(** [func (p *LookupProtocolV1) Exec(client, reader, params) ([]byte, error)];
    PING receives all of [params] and reads none of them. *)
Definition Exec (client : ClientV1) (i : Input) : M ((ClientErr + Reply) * ClientV1) :=
  if bool_decide (command i = "PING") then
    r <- PING client (command i :: arguments i) ;;
    ret (match r with inl e => inl e | inr s => inr (ReplyBytes s) end, client)
  else if bool_decide (command i = "IDENTIFY") then
    rc <- IDENTIFY server client (body i) ;;
    ret (match rc.1 with inl e => inl e | inr r => inr (ReplyIdentify r) end, rc.2)
  else if bool_decide (command i = "REGISTER") then
    r <- REGISTER IsValidTopicName IsValidChannelName client (arguments i) ;;
    ret (match r with inl e => inl e | inr s => inr (ReplyBytes s) end, client)
  else if bool_decide (command i = "UNREGISTER") then
    r <- UNREGISTER ord IsValidTopicName IsValidChannelName client (arguments i) ;;
    ret (match r with inl e => inl e | inr s => inr (ReplyBytes s) end, client)
  else
    ret (inl (FatalClientErr "E_INVALID" ("invalid command " +:+ command i)), client).

(** The [for] loop of [IOLoop] over the rounds that the connection still
    presents; [sent] collects what was written.  An error is answered
    with its text and, every error of these commands being a
    FatalClientErr, ends the loop; so does a failure to write. *)
Fixpoint IOLoop_rounds (client : ClientV1) (inputs : list Input) (sent : list Reply)
    : M (list Reply * ClientV1) :=
  match inputs with
  | [] => ret (sent, client)
  | i :: rest =>
      rc <- Exec client i ;;
      match rc.1 with
      | inl err =>
          if sendOk i
          then match err with
               | FatalClientErr _ _ => ret (sent ++ [ReplyBytes (ClientErr_Error err)], rc.2)
               end
          else ret (sent, rc.2)
      | inr response =>
          if sendOk i
          then IOLoop_rounds rc.2 rest (sent ++ [response])
          else ret (sent, rc.2)
      end
  end.

(** The end of [IOLoop]: a client that identified is removed from every
    registration that [LookupRegistrations] finds for its id. *)
Definition IOLoop_cleanup (client : ClientV1) : M unit :=
  match client_peerInfo client with
  | Some a =>
      cid <- peer_id a ;;
      registrations <- LookupRegistrations ord cid ;;
      forM registrations (fun _ r =>
        cid <- peer_id a ;;
        _ <- RemoveProducer r cid ;;
        ret tt) tt
  | None => ret tt
  end.

(** [func (p *LookupProtocolV1) IOLoop(conn net.Conn) error], for the
    connection of remote address [remoteAddr]. *)
Definition IOLoop (remoteAddr : string) (inputs : list Input) : M (list Reply * ClientV1) :=
  let client := {| RemoteAddr := remoteAddr; client_peerInfo := None |} in
  sc <- IOLoop_rounds client inputs [] ;;
  IOLoop_cleanup sc.2 ;;;
  ret sc.

End Loop.

(** What REGISTER and IDENTIFY do for one key: a Producer for the
    PeerInfo at [a] is made and handed to AddProducer. *)
Definition registerOne (a : ptr) (k : Registration) (w : World) : World :=
  (AddProducer k (length (prods w))
     (set_prods (fun h => h ++ [freshProducer a]) w)).2.

(** The connection of [client] is listed under [k]. *)
Definition listedUnder (w : World) (cid : string) (k : Registration) : Prop :=
  exists l p, registrationMap w !! k = Some l /\ p ∈ l /\ producer_id w p = cid.

(** The PeerInfo of a connection that identified carries the remote
    address of the connection as its id. *)
Definition identifiedAs (client : ClientV1) (w : World) : Prop :=
  forall a, client_peerInfo client = Some a -> id (derefPeer w a) = RemoteAddr client.

(** Modelled from the spec: [http_api.GetTopicChannelArgs] is not among
    the sources at hand.  A missing [topic] or [channel] is answered with
    MISSING_ARG_TOPIC or MISSING_ARG_CHANNEL, an invalid one with
    INVALID_ARG_TOPIC or INVALID_ARG_CHANNEL. *)
Definition topicChannelArgs (reqParams : ReqParams) : string + string * string :=
  match Get reqParams "topic" with
  | None => inl "MISSING_ARG_TOPIC"
  | Some topicName =>
      if negb (validTopicName topicName) then inl "INVALID_ARG_TOPIC"
      else match Get reqParams "channel" with
           | None => inl "MISSING_ARG_CHANNEL"
           | Some channelName =>
               if negb (validChannelName channelName) then inl "INVALID_ARG_CHANNEL"
               else inr (topicName, channelName)
           end
  end.

(** A and B both produce topic [a]. *)
Definition sharedTopic : World :=
  (REGISTER validTopicName validChannelName clientB ["a"] twoNodes).2.

(** A connection that sends REGISTER before anything else, then PING. *)
Definition hastyInputs : list Input :=
  [ {| command := "REGISTER"; arguments := ["t"]; body := NoBodySize; sendOk := true |};
    {| command := "PING"; arguments := []; body := NoBodySize; sendOk := true |} ].

(** ** IDENTIFY and the length of its body *)

(** What [io.ReadFull] and [json.Unmarshal] make of the bytes that
    follow the size: too few of them, no JSON of a PeerInfo, or the
    exported fields as decoded. *)
Inductive BodyBytes :=
  | EndsEarly
  | NotJSON
  | Fields (remote_address hostname broadcast_address : string)
           (tcp_port http_port : Z) (version : string).

(** What the connection holds after the command line of IDENTIFY: the
    int32 that [binary.Read] leaves in [bodyLen], if it can read one,
    which is whatever the peer has sent and may be negative, and the
    bytes after it. *)
Record IdentifyInput := {
  bodyLen : option Z;
  bodyBytes : BodyBytes
}.

(** The case of [IdentifyBody] that an input with a length that [make]
    accepts comes under. *)
Definition IdentifyBody_of (i : IdentifyInput) : IdentifyBody :=
  match bodyLen i with
  | None => NoBodySize
  | Some _ =>
      match bodyBytes i with
      | EndsEarly => ShortBody
      | NotJSON => BadJSON
      | Fields ra hn ba tp hp v => Decoded ra hn ba tp hp v
      end
  end.

(** How a call ends: it returns, or it panics, and nothing in
    nsqlookupd recovers from a panic. *)
Inductive Ending (A : Type) :=
  | Returns (a : A)
  | Panics.
Arguments Returns {A} a.
Arguments Panics {A}.

(** [IDENTIFY] with the length of the body before it:
    [make([]byte, bodyLen)] panics on a negative length, once the
    connection is found not to have identified and the size is read;
    every other input is one of the cases of [IDENTIFY]. *)
Definition IDENTIFY_bytes (server : ServerInfo) (client : ClientV1) (i : IdentifyInput)
    : M (Ending ((ClientErr + IdentifyReply) * ClientV1)) :=
  match client_peerInfo client, bodyLen i with
  | None, Some n =>
      if n <? 0 then ret Panics
      else rc <- IDENTIFY server client (IdentifyBody_of i) ;; ret (Returns rc)
  | _, _ => rc <- IDENTIFY server client (IdentifyBody_of i) ;; ret (Returns rc)
  end.

(** ** FilterByActive and the readings of the clock *)

(** The number of the clock reading that IsTombstoned takes for each
    producer of the list [pp], or would take next, when the readings
    before the [n]-th are used up: one reading for every producer that
    passes the inactivity test against [now] and has a tombstone. *)
Fixpoint IsTombstoned_ticks (w : World) (now : Time) (inactivityTimeout : Duration)
    (n : nat) (pp : list ptr) : list nat :=
  match pp with
  | [] => []
  | p :: pp' =>
      n :: IsTombstoned_ticks w now inactivityTimeout
             (if inactivityTimeout <? Sub now (last_update w p) then n
              else if is_tombstoned w p then S n else n)
             pp'
  end.

(** A producer is active when FilterByActive has read [now] and
    IsTombstoned reads the clock for the [m]-th time; the differences
    are those of [time.Sub]. *)
Definition activeAt (now : Time) (inactivityTimeout tombstoneLifetime : Duration)
    (w : World) (pm : ptr * nat) : Prop :=
  Sub now (last_update w pm.1) <= inactivityTimeout /\
  ¬ (is_tombstoned w pm.1 = true /\
     Sub (reading (clock w) pm.2) (tombstoned_at w pm.1) < tombstoneLifetime).

#[global] Instance activeAt_dec now it lt w pm : Decision (activeAt now it lt w pm).
Proof. unfold activeAt. apply _. Defined.

(** The clock does not run backwards, and every tombstone bears a
    reading of the clock that has been taken. *)
Definition pastTombstones (w : World) : Prop :=
  (forall i j, (i <= j)%nat -> reading (clock w) i <= reading (clock w) j) /\
  forall p, is_tombstoned w p = true ->
    exists k, (k < tick (clock w))%nat /\ tombstoned_at w p = reading (clock w) k.

(** [w'] is [w] some time later: the clock has not been turned back and
    no tombstone has been set or stamped anew. *)
Definition ages (w w' : World) : Prop :=
  reading (clock w') = reading (clock w) /\
  (tick (clock w) <= tick (clock w'))%nat /\
  forall p, is_tombstoned w' p = true ->
    is_tombstoned w p = true /\ tombstoned_at w' p = tombstoned_at w p.

(** A run on a clock that advances by 10 with every reading: A
    identifies at 100, registers [topicX], and is tombstoned for it at
    110. *)
Definition tickingClock : Clock :=
  {| reading := fun n => 100 + 10 * Z.of_nat n; tick := 0 |}.

Definition startedTicking : World :=
  {| peers := []; prods := []; registrationMap := NewRegistrationDB;
     clock := tickingClock |}.

Definition lateTombstone : World :=
  let w1 := (IDENTIFY lookupd connA bodyA startedTicking).2 in
  let w2 := (REGISTER validTopicName validChannelName clientA ["topicX"] w1).2 in
  (doTombstoneTopicProducer canonicalOrder
     {| query := Some [("topic", "topicX"); ("node", "A:4151")] |} w2).2.

(** * Properties *)

(** ** The monad *)

Lemma forM_app {A S} (xs ys : list A) (body : S -> A -> M S) (s : S) (w : World) :
  forM (xs ++ ys) body s w =
  (let (s', w') := forM xs body s w in forM ys body s' w').
Proof.
  revert s w. induction xs as [|x xs IH]; intros s w; simpl.
  - reflexivity.
  - unfold bind. destruct (body s x w) as [s' w']. apply IH.
Qed.

(** A loop whose body leaves what [f] observes of the state alone
    leaves it alone. *)
Lemma forM_preserves {A S B} (f : World -> B) (xs : list A) (body : S -> A -> M S) :
  (forall s x w, f (body s x w).2 = f w) ->
  forall s w, f (forM xs body s w).2 = f w.
Proof.
  intros Hbody. induction xs as [|x xs IH]; intros s w; simpl; [reflexivity|].
  unfold bind. specialize (Hbody s x w). destruct (body s x w) as [s' w'].
  simpl in Hbody. rewrite IH. exact Hbody.
Qed.

(** ** RemoveProducer *)

Lemma RemoveProducer_loop (w : World) (id_ : string) (producers : Producers)
    (removed : bool) (cleaned : Producers) :
  fold_left (RemoveProducer_step w id_) producers (removed, cleaned) =
  (removed || existsb (fun p => bool_decide (producer_id w p = id_)) producers,
   cleaned ++ filter (fun p => producer_id w p ≠ id_) producers).
Proof.
  revert removed cleaned.
  induction producers as [|p producers IH]; intros removed cleaned.
  - simpl. by rewrite orb_false_r, app_nil_r.
  - rewrite filter_cons. cbn [fold_left existsb].
    rewrite (surjective_pairing (RemoveProducer_step w id_ (removed, cleaned) p)).
    rewrite IH. unfold RemoveProducer_step. cbn [fst snd].
    destruct (decide (producer_id w p ≠ id_)) as [Hne|Heq].
    + rewrite (bool_decide_eq_true_2 _ Hne).
      rewrite (bool_decide_eq_false_2 (producer_id w p = id_)) by done.
      cbn. by rewrite <- app_assoc.
    + rewrite (bool_decide_eq_false_2 _ Heq).
      rewrite (bool_decide_eq_true_2 (producer_id w p = id_))
        by (destruct (decide (producer_id w p = id_)); [done | contradiction]).
      cbn. by rewrite orb_true_r.
Qed.

Lemma existsb_id_Exists (w : World) (id_ : string) (l : Producers) :
  existsb (fun p => bool_decide (producer_id w p = id_)) l = true <->
  Exists (fun p => producer_id w p = id_) l.
Proof.
  rewrite existsb_exists, Exists_exists. split.
  - intros (p & Hin & Hp). exists p. split; [by apply list_elem_of_In|].
    by apply bool_decide_eq_true in Hp.
  - intros (p & Hin & Hp). exists p. split; [by apply list_elem_of_In|].
    by apply bool_decide_eq_true.
Qed.

(** What one call of [RemoveProducer] computes. *)
Lemma RemoveProducer_run (w : World) (k : Registration) (id_ : string) :
  RemoveProducer k id_ w =
  match registrationMap w !! k with
  | None => ((false, 0%nat), w)
  | Some producers =>
      let cleaned := filter (fun p => producer_id w p ≠ id_) producers in
      ((existsb (fun p => bool_decide (producer_id w p = id_)) producers,
        length cleaned),
       set_registrationMap (fun m => <[k := cleaned]> m) w)
  end.
Proof.
  unfold RemoveProducer.
  destruct (registrationMap w !! k) as [producers|]; [|reflexivity].
  by rewrite RemoveProducer_loop.
Qed.

(** C4. RemoveProducer(k, id): on a key that is absent it answers
    (false, 0) and the store is unchanged; on a key that holds [producers]
    it stores under k the same list without the producers of that id,
    answers whether one was dropped and the length of the new list, and k
    stays a key of the map even when that list is empty. *)
Theorem RemoveProducer_spec (w : World) (k : Registration) (id_ : string) :
  match registrationMap w !! k with
  | None => RemoveProducer k id_ w = ((false, 0%nat), w)
  | Some producers =>
      let cleaned := filter (fun p => producer_id w p ≠ id_) producers in
      exists removed : bool,
        RemoveProducer k id_ w =
          ((removed, length cleaned),
           set_registrationMap (fun m => <[k := cleaned]> m) w) /\
        (removed = true <-> Exists (fun p => producer_id w p = id_) producers) /\
        registrationMap (RemoveProducer k id_ w).2 !! k = Some cleaned /\
        (cleaned = [] -> k ∈ dom (registrationMap (RemoveProducer k id_ w).2))
  end.
Proof.
  rewrite RemoveProducer_run.
  destruct (registrationMap w !! k) as [producers|] eqn:Hk; [|reflexivity].
  cbn zeta. eexists. split; [reflexivity|]. split; [apply existsb_id_Exists|].
  cbn [snd]. unfold set_registrationMap. cbn [registrationMap].
  split; [apply lookup_insert_eq|].
  intros _. apply elem_of_dom. rewrite lookup_insert_eq. by eexists.
Qed.

(** ** Unique ids *)

Lemma producer_id_heaps (w w' : World) :
  peers w' = peers w -> prods w' = prods w ->
  forall p, producer_id w' p = producer_id w p.
Proof.
  intros Hpe Hpr p. unfold producer_id, derefPeer, derefProd.
  by rewrite Hpe, Hpr.
Qed.

Lemma AddProducer_heaps (k : Registration) (p : ptr) (w : World) :
  peers (AddProducer k p w).2 = peers w /\ prods (AddProducer k p w).2 = prods w.
Proof. unfold AddProducer. by destruct (existsb _ _). Qed.

Lemma RemoveProducer_heaps (k : Registration) (id_ : string) (w : World) :
  peers (RemoveProducer k id_ w).2 = peers w /\
  prods (RemoveProducer k id_ w).2 = prods w.
Proof. unfold RemoveProducer. by destruct (registrationMap w !! k). Qed.

Lemma existsb_id_false (w : World) (id_ : string) (l : list ptr) :
  existsb (fun q => bool_decide (producer_id w q = id_)) l = false ->
  id_ ∉ producer_id w <$> l.
Proof.
  intros Hex Hin. apply list_elem_of_fmap in Hin as (q & -> & Hq).
  assert (existsb (fun r => bool_decide (producer_id w r = producer_id w q)) l = true)
    as Habs; [|congruence].
  apply existsb_exists. exists q. split; [by apply list_elem_of_In|].
  by apply bool_decide_eq_true.
Qed.

Lemma uniqueIds_heaps (w w' : World) :
  peers w' = peers w -> prods w' = prods w ->
  registrationMap w' = registrationMap w ->
  uniqueIds w -> uniqueIds w'.
Proof.
  intros Hpe Hpr Hm Hu k l Hk. rewrite Hm in Hk.
  rewrite (list_fmap_ext (producer_id w') (producer_id w) l);
    [by eapply Hu | intros; by apply producer_id_heaps].
Qed.

Lemma AddProducer_uniqueIds (k : Registration) (p : ptr) (w : World) :
  uniqueIds w -> uniqueIds (AddProducer k p w).2.
Proof.
  intros Hu. unfold AddProducer.
  destruct (existsb _ _) eqn:Hfound; [exact Hu|].
  intros k' l. cbn.
  destruct (decide (k = k')) as [<-|Hne].
  - rewrite lookup_insert_eq. intros [= <-].
    rewrite fmap_app. apply NoDup_app. split; [|split].
    + destruct (registrationMap w !! k) as [producers|] eqn:Hk; cbn.
      * by apply (Hu k).
      * constructor.
    + intros x Hx Hsingle. cbn in Hsingle. apply list_elem_of_singleton in Hsingle.
      subst x. revert Hx. fold (producer_id w p).
      by apply existsb_id_false.
    + apply NoDup_singleton.
  - rewrite lookup_insert_ne by done. apply Hu.
Qed.

Lemma RemoveProducer_uniqueIds (k : Registration) (id_ : string) (w : World) :
  uniqueIds w -> uniqueIds (RemoveProducer k id_ w).2.
Proof.
  intros Hu. unfold RemoveProducer.
  destruct (registrationMap w !! k) as [producers|] eqn:Hk; [|exact Hu].
  rewrite RemoveProducer_loop. intros k' l. cbn.
  destruct (decide (k = k')) as [<-|Hne].
  - rewrite lookup_insert_eq. intros [= <-].
    change (NoDup (producer_id w <$> filter (fun p => producer_id w p ≠ id_) producers)).
    apply (sublist_NoDup _ (producer_id w <$> producers)); [by apply (Hu k)|].
    apply fmap_sublist, sublist_filter.
  - rewrite lookup_insert_ne by done. apply Hu.
Qed.

Lemma runOp_uniqueIds (w : World) (o : Op) : uniqueIds w -> uniqueIds (runOp w o).
Proof.
  destruct o; [apply AddProducer_uniqueIds | apply RemoveProducer_uniqueIds].
Qed.

(** C3. From the empty store, whatever the heaps hold, no sequence of
    AddProducer and RemoveProducer calls leaves a registration with two
    producers of one id. *)
Theorem AddRemove_uniqueIds (ps : list PeerInfo) (pr : list Producer) (c : Clock)
    (ops : list Op) :
  uniqueIds (runOps ops (emptyStore ps pr c)).
Proof.
  unfold runOps.
  assert (uniqueIds (emptyStore ps pr c)) as H0.
  { intros k l Hk. cbn in Hk. unfold NewRegistrationDB in Hk.
    by rewrite lookup_empty in Hk. }
  revert H0. generalize (emptyStore ps pr c).
  induction ops as [|o ops IH]; intros w Hw; [exact Hw|].
  cbn. apply IH. by apply runOp_uniqueIds.
Qed.

(** ** FilterByActive *)

Lemma steady_refl (w : World) : steady w w.
Proof. by repeat split. Qed.

Lemma steady_trans (w1 w2 w3 : World) : steady w1 w2 -> steady w2 w3 -> steady w1 w3.
Proof.
  intros (? & ? & ? & ?) (? & ? & ? & ?). repeat split; congruence.
Qed.

Lemma steady_frozenAt (now : Time) (w w' : World) :
  steady w w' -> frozenAt now w -> frozenAt now w'.
Proof. intros (_ & _ & _ & Hr) Hf n. rewrite Hr. apply Hf. Qed.

Lemma steady_derefProd (w w' : World) (p : ptr) :
  steady w w' -> derefProd w' p = derefProd w p.
Proof. intros (_ & Hpr & _). unfold derefProd. by rewrite Hpr. Qed.

Lemma steady_derefPeer (w w' : World) (a : ptr) :
  steady w w' -> derefPeer w' a = derefPeer w a.
Proof. intros (Hpe & _). unfold derefPeer. by rewrite Hpe. Qed.

Lemma Sub_exact (t u : Time) : isDuration (t - u) -> Sub t u = t - u.
Proof.
  unfold isDuration, Sub. intros [Hlo Hhi].
  destruct (Z.ltb_spec maxDuration (t - u)); [lia|].
  destruct (Z.ltb_spec (t - u) minDuration); [lia|]. reflexivity.
Qed.

Lemma Now_frozen (now : Time) (w : World) :
  frozenAt now w -> (Now w).1 = now /\ steady w (Now w).2.
Proof. intros Hf. split; [apply Hf | by repeat split]. Qed.

Lemma IsTombstoned_frozen (now : Time) (w : World) (p : ptr) (lifetime : Duration) :
  frozenAt now w ->
  (IsTombstoned p lifetime w).1 =
    is_tombstoned w p && (Sub now (tombstoned_at w p) <? lifetime) /\
  steady w (IsTombstoned p lifetime w).2.
Proof.
  intros Hf. unfold IsTombstoned, bind, gets, is_tombstoned, tombstoned_at. cbn.
  destruct (tombstoned (derefProd w p)); cbn.
  - rewrite Hf. split; [reflexivity | by repeat split].
  - split; [reflexivity | apply steady_refl].
Qed.

Lemma FilterByActive_step_frozen (now : Time) (it lt : Duration) (w0 w : World)
    (results : Producers) (p : ptr) :
  frozenAt now w0 -> steady w0 w -> timely now w0 p ->
  (FilterByActive_step now it lt results p w).1 =
    results ++ filter (active now it lt w0) [p] /\
  steady w0 (FilterByActive_step now it lt results p w).2.
Proof.
  intros Hf Hs [Hlu Hta].
  pose proof (steady_frozenAt _ _ _ Hs Hf) as Hfw.
  rewrite filter_cons, filter_nil.
  unfold FilterByActive_step, bind, gets. cbn -[IsTombstoned].
  rewrite (steady_derefProd _ _ p Hs), (steady_derefPeer _ _ _ Hs).
  unfold Unix0. fold (last_update w0 p).
  rewrite (Sub_exact _ _ Hlu).
  destruct (Z.ltb_spec it (now - last_update w0 p)) as [Hlate|Hfresh].
  - cbn. split; [|exact Hs].
    rewrite decide_False; [by rewrite app_nil_r|].
    unfold active. lia.
  - cbn -[IsTombstoned].
    destruct (IsTombstoned_frozen now w p lt Hfw) as [Hv Hs'].
    destruct (IsTombstoned p lt w) as [dead w'] eqn:Hrun. cbn in Hv, Hs'.
    unfold is_tombstoned, tombstoned_at in Hv.
    rewrite (steady_derefProd _ _ p Hs) in Hv.
    fold (is_tombstoned w0 p) in Hv. fold (tombstoned_at w0 p) in Hv.
    assert (steady w0 w') as Hs0 by (by eapply steady_trans).
    subst dead.
    destruct (is_tombstoned w0 p) eqn:Ht; cbn.
    + rewrite (Sub_exact _ _ (Hta eq_refl)).
      destruct (Z.ltb_spec (now - tombstoned_at w0 p) lt) as [Hin|Hout]; cbn.
      * split; [|exact Hs0]. rewrite decide_False; [by rewrite app_nil_r|].
        unfold active, currentlyTombstoned. intros [_ Hn]. apply Hn. by split.
      * split; [|exact Hs0]. rewrite decide_True; [done|].
        unfold active, currentlyTombstoned. split; [lia|]. intros [_ ?]. lia.
    + split; [|exact Hs0]. rewrite decide_True; [done|].
      unfold active, currentlyTombstoned. split; [lia|]. intros [? _]. congruence.
Qed.

Lemma FilterByActive_loop (now : Time) (it lt : Duration) (w0 : World) (pp : Producers) :
  frozenAt now w0 -> Forall (timely now w0) pp ->
  forall (results : Producers) (w : World), steady w0 w ->
  (forM pp (FilterByActive_step now it lt) results w).1 =
    results ++ filter (active now it lt w0) pp /\
  steady w0 (forM pp (FilterByActive_step now it lt) results w).2.
Proof.
  intros Hf Hall. induction Hall as [|p pp Hp Hpp IH]; intros results w Hs; cbn [forM].
  - cbn. split; [by rewrite app_nil_r | exact Hs].
  - unfold bind.
    destruct (FilterByActive_step_frozen now it lt w0 w results p Hf Hs Hp) as [Hv Hs'].
    destruct (FilterByActive_step now it lt results p w) as [results' w'].
    cbn in Hv, Hs'. subst results'.
    destruct (IH (results ++ filter (active now it lt w0) [p]) w' Hs') as [Hv2 Hs2].
    split; [|exact Hs2]. etrans; [exact Hv2|].
    rewrite <- app_assoc. f_equal. symmetry. apply (filter_app _ [p] pp).
Qed.

(** What [FilterByActive] returns, and that it only reads the clock. *)
Lemma FilterByActive_frozen (now : Time) (it lt : Duration) (w : World) (pp : Producers) :
  frozenAt now w -> Forall (timely now w) pp ->
  (FilterByActive pp it lt w).1 = filter (active now it lt w) pp /\
  steady w (FilterByActive pp it lt w).2.
Proof.
  intros Hf Hall. unfold FilterByActive, bind.
  destruct (Now_frozen now w Hf) as [Hn Hs].
  destruct (Now w) as [now' w']. cbn in Hn, Hs. subst now'.
  exact (FilterByActive_loop now it lt w pp Hf Hall [] w' Hs).
Qed.

(** ** FindProducers *)

Lemma IsMatch_matches (k : Registration) (category key subkey : string) :
  IsMatch k category key subkey = true <-> matches k category key subkey.
Proof.
  unfold IsMatch, matches.
  repeat case_bool_decide; cbn; intuition congruence.
Qed.

Lemma range_lookup (ord : RangeOrder) (m : gmap Registration (list ptr))
    (k : Registration) (l : list ptr) :
  (k, l) ∈ ord m <-> m !! k = Some l.
Proof. rewrite (range_perm ord m). apply elem_of_map_to_list. Qed.

Section FindProducersLoop.
Context (w : World).

Lemma FindProducers_add_spec (results : list ptr) (producer : ptr) :
  NoDup (producer_id w <$> results) ->
  let results' := FindProducers_add w results producer in
  NoDup (producer_id w <$> results') /\
  (forall p, p ∈ results' <-> p ∈ results \/
     (p = producer /\ producer_id w producer ∉ (producer_id w <$> results))) /\
  producer_id w producer ∈ (producer_id w <$> results').
Proof.
  intros Hnd. unfold FindProducers_add.
  destruct (existsb _ results) eqn:Hfound.
  - split; [done|]. split.
    + intros p. split; [by left|]. intros [?|[-> Hnot]]; [done|].
      exfalso. apply Hnot.
      apply existsb_exists in Hfound as (q & Hq & Heq).
      apply bool_decide_eq_true in Heq. rewrite Heq.
      apply list_elem_of_fmap. exists q. split; [done | by apply list_elem_of_In].
    + apply existsb_exists in Hfound as (q & Hq & Heq).
      apply bool_decide_eq_true in Heq. rewrite Heq.
      apply list_elem_of_fmap. exists q. split; [done | by apply list_elem_of_In].
  - assert (producer_id w producer ∉ producer_id w <$> results) as Hnot.
    { intros Hin. apply list_elem_of_fmap in Hin as (q & Heq & Hq).
      assert (existsb (fun p => bool_decide (producer_id w producer = producer_id w p))
                results = true) as Habs; [|congruence].
      apply existsb_exists. exists q. split; [by apply list_elem_of_In|].
      by apply bool_decide_eq_true. }
    split; [|split].
    + rewrite fmap_app. apply NoDup_app. split; [done|]. split; [|apply NoDup_singleton].
      intros x Hx Hs. cbn in Hs. apply list_elem_of_singleton in Hs. by subst x.
    + intros p. rewrite elem_of_app, list_elem_of_singleton.
      split; [intros [?| ->]; [by left | right; by split]
             | intros [?|[-> _]]; [by left | by right]].
    + rewrite fmap_app, elem_of_app. right. cbn. apply list_elem_of_singleton. done.
Qed.

(** The inner loop keeps the ids distinct, keeps what was found, adds
    only producers of [l], and covers the id of every producer of [l]. *)
Lemma FindProducers_inner (l results : list ptr) :
  NoDup (producer_id w <$> results) ->
  let results' := fold_left (FindProducers_add w) l results in
  NoDup (producer_id w <$> results') /\
  (forall p, p ∈ results -> p ∈ results') /\
  (forall p, p ∈ results' -> p ∈ results \/ p ∈ l) /\
  (forall q, q ∈ l -> producer_id w q ∈ (producer_id w <$> results')).
Proof.
  revert results. induction l as [|x l IH]; intros results Hnd; cbn [fold_left].
  - split; [done|]. split; [done|]. split; [by left|]. intros q Hq. by inv Hq.
  - destruct (FindProducers_add_spec results x Hnd) as (Hnd1 & Hmem1 & Hcov1).
    destruct (IH _ Hnd1) as (Hnd2 & Hkeep2 & Hfrom2 & Hcov2).
    split; [exact Hnd2|]. split; [|split].
    + intros p Hp. apply Hkeep2, Hmem1. by left.
    + intros p Hp. destruct (Hfrom2 p Hp) as [Hin|Hin].
      * apply Hmem1 in Hin as [?|[-> _]]; [by left | right; by left].
      * right. by right.
    + intros q Hq. apply elem_of_cons in Hq as [->|Hq]; [|by apply Hcov2].
     
      apply list_elem_of_fmap in Hcov1 as (r & Hr & Hrin). rewrite Hr.
      apply list_elem_of_fmap. exists r. split; [done|]. by apply Hkeep2.
Qed.

Lemma FindProducers_outer (category key subkey : string)
    (kvs : list (Registration * list ptr)) (results : list ptr) :
  NoDup (producer_id w <$> results) ->
  let results' :=
    fold_left (fun results kv =>
        if negb (IsMatch kv.1 category key subkey) then results
        else fold_left (FindProducers_add w) kv.2 results) kvs results in
  NoDup (producer_id w <$> results') /\
  (forall p, p ∈ results -> p ∈ results') /\
  (forall p, p ∈ results' -> p ∈ results \/
     exists kv, kv ∈ kvs /\ matches kv.1 category key subkey /\ p ∈ kv.2) /\
  (forall kv q, kv ∈ kvs -> matches kv.1 category key subkey -> q ∈ kv.2 ->
     producer_id w q ∈ (producer_id w <$> results')).
Proof.
  revert results. induction kvs as [|kv kvs IH]; intros results Hnd; cbn [fold_left].
  - split; [done|]. split; [done|]. split; [by left|]. intros kv q Hkv. by inv Hkv.
  - destruct (IsMatch kv.1 category key subkey) eqn:Hm; cbn [negb].
    + apply IsMatch_matches in Hm.
      destruct (FindProducers_inner kv.2 results Hnd) as (Hnd1 & Hkeep1 & Hfrom1 & Hcov1).
      destruct (IH _ Hnd1) as (Hnd2 & Hkeep2 & Hfrom2 & Hcov2).
      split; [exact Hnd2|]. split; [|split].
      * intros p Hp. by apply Hkeep2, Hkeep1.
      * intros p Hp. destruct (Hfrom2 p Hp) as [Hin|(kv' & Hin & Hmk & Hp')].
        -- destruct (Hfrom1 p Hin) as [?|?]; [by left|].
           right. exists kv. split; [by left | done].
        -- right. exists kv'. split; [by right | done].
      * intros kv' q Hkv' Hmk Hq. apply elem_of_cons in Hkv' as [->|Hkv'].
        --
           apply Hcov1 in Hq. apply list_elem_of_fmap in Hq as (r & Hr & Hrin).
           rewrite Hr. apply list_elem_of_fmap. exists r. split; [done|].
           by apply Hkeep2.
        -- by eapply Hcov2.
    + destruct (IH _ Hnd) as (Hnd2 & Hkeep2 & Hfrom2 & Hcov2).
      split; [exact Hnd2|]. split; [exact Hkeep2|]. split.
      * intros p Hp. destruct (Hfrom2 p Hp) as [?|(kv' & Hin & Hmk & Hp')]; [by left|].
        right. exists kv'. split; [by right | done].
      * intros kv' q Hkv' Hmk Hq. apply elem_of_cons in Hkv' as [->|Hkv'].
        -- apply IsMatch_matches in Hmk. congruence.
        -- by eapply Hcov2.
Qed.

End FindProducersLoop.

(** C6. FindProducers(category, key, subkey).  With a wildcard in key or
    subkey, every producer returned is listed under a matching
    registration, every producer listed under a matching registration is
    represented by one of the same id, and no two returned producers
    have one id.  Without a wildcard the result is the list stored under
    (category, key, subkey), empty when that key is absent.  The store is
    not changed. *)
Theorem FindProducers_spec (ord : RangeOrder) (w : World) (category key subkey : string) :
  let result := (FindProducers ord category key subkey w).1 in
  (FindProducers ord category key subkey w).2 = w /\
  (key = "*" \/ subkey = "*" ->
     (forall p, p ∈ result ->
        exists k l, registrationMap w !! k = Some l /\
                    matches k category key subkey /\ p ∈ l) /\
     (forall k l q, registrationMap w !! k = Some l ->
        matches k category key subkey -> q ∈ l ->
        exists p, p ∈ result /\ producer_id w p = producer_id w q) /\
     NoDup (producer_id w <$> result)) /\
  (key ≠ "*" -> subkey ≠ "*" ->
     result = default []
       (registrationMap w !! {| Category := category; Key := key; SubKey := subkey |})).
Proof.
  unfold FindProducers, gets. cbn [fst snd]. split; [reflexivity|]. split.
  - intros Hwild.
    assert (needFilter key subkey = true) as ->.
    { unfold needFilter. destruct Hwild as [->| ->]; cbn; [done|].
      by rewrite orb_true_r. }
    cbn [negb].
    destruct (FindProducers_outer w category key subkey (ord (registrationMap w)) [])
      as (Hnd & _ & Hfrom & Hcov); [constructor|].
    split; [|split].
    + intros p Hp. destruct (Hfrom p Hp) as [Hin|([k l] & Hin & Hmk & Hpl)]; [by inv Hin|].
      exists k, l. split; [by apply (range_lookup ord) | done].
    + intros k l q Hk Hmk Hq.
      specialize (Hcov (k, l) q). cbn in Hcov.
      apply (range_lookup ord) in Hk. specialize (Hcov Hk Hmk Hq).
      apply list_elem_of_fmap in Hcov as (r & Hr & Hrin). by exists r.
    + exact Hnd.
  - intros Hk Hs.
    assert (needFilter key subkey = false) as ->; [|reflexivity].
    unfold needFilter. by rewrite !bool_decide_eq_false_2.
Qed.

(** ** UNREGISTER and PING *)

Section ProtocolFacts.
Context (ord : RangeOrder).
Context (IsValidTopicName IsValidChannelName : string -> bool).

Lemma getTopicChan_valid (command topic channel : string) (rest : list string) :
  IsValidTopicName topic = true -> IsValidChannelName channel = true ->
  getTopicChan IsValidTopicName IsValidChannelName command (topic :: channel :: rest) =
    inr (topic, channel).
Proof.
  intros Ht Hc. unfold getTopicChan. rewrite Ht, Hc. cbn.
  by rewrite andb_false_r.
Qed.

Lemma UNREGISTER_channel_run (client : ClientV1) (a : ptr) (topic channel : string)
    (rest : list string) (w : World) :
  client_peerInfo client = Some a ->
  IsValidTopicName topic = true -> IsValidChannelName channel = true ->
  channel ≠ "" ->
  let key := {| Category := "channel"; Key := topic; SubKey := channel |} in
  UNREGISTER ord IsValidTopicName IsValidChannelName client (topic :: channel :: rest) w =
    (inr "OK",
     set_registrationMap
       (fun _ => unregisteredChannel w key (id (derefPeer w a)) channel) w).
Proof.
  intros Ha Ht Hc Hne key. unfold UNREGISTER. rewrite Ha.
  rewrite (getTopicChan_valid _ _ _ _ Ht Hc).
  rewrite (bool_decide_eq_true_2 _ Hne).
  unfold bind, peer_id, gets, ret. fold key.
  unfold unregisteredChannel.
  rewrite RemoveProducer_run.
  destruct (registrationMap w !! key) as [l|] eqn:Hk.
  - cbn zeta. cbn [fst snd].
    set (cleaned := filter _ l).
    replace (length cleaned =? 0)%nat with (bool_decide (cleaned = [])).
    2:{ destruct cleaned; [done|]. by rewrite bool_decide_eq_false_2. }
    destruct (bool_decide (cleaned = []) && HasSuffix channel "#ephemeral").
    + unfold RemoveRegistration, modify, set_registrationMap. cbn.
      by rewrite delete_insert_eq.
    + reflexivity.
  - cbn [fst snd Nat.eqb andb].
    destruct (HasSuffix channel "#ephemeral").
    + unfold RemoveRegistration, modify, set_registrationMap. cbn.
      rewrite delete_id by done. by destruct w.
    + by destruct w.
Qed.

(** C7. UNREGISTER topic channel from an identified client, with valid
    names: the answer is OK; no producer of the client's id stays under
    ("channel", topic, channel); when nothing stays and the name ends in
    "#ephemeral" the registration is gone; under any other name a
    registration that existed is kept, be it empty; every other key and
    the heaps are as before. *)
Theorem UNREGISTER_channel_spec (client : ClientV1) (a : ptr) (topic channel : string)
    (rest : list string) (w : World) :
  client_peerInfo client = Some a ->
  IsValidTopicName topic = true -> IsValidChannelName channel = true ->
  channel ≠ "" ->
  let key := {| Category := "channel"; Key := topic; SubKey := channel |} in
  let cid := id (derefPeer w a) in
  let run := UNREGISTER ord IsValidTopicName IsValidChannelName client
               (topic :: channel :: rest) w in
  let m' := registrationMap run.2 in
  run.1 = inr "OK" /\
  peers run.2 = peers w /\ prods run.2 = prods w /\
  (forall k, k ≠ key -> m' !! k = registrationMap w !! k) /\
  (forall l, m' !! key = Some l -> forall p, p ∈ l -> producer_id run.2 p ≠ cid) /\
  (forall l, registrationMap w !! key = Some l ->
     let cleaned := filter (fun p => producer_id w p ≠ cid) l in
     if HasSuffix channel "#ephemeral"
     then (cleaned = [] -> m' !! key = None) /\
          (cleaned ≠ [] -> m' !! key = Some cleaned)
     else m' !! key = Some cleaned).
Proof.
  intros Ha Ht Hc Hne key cid run m'. subst run m'.
  rewrite (UNREGISTER_channel_run client a topic channel rest w Ha Ht Hc Hne).
  cbn [fst snd]. fold key. fold cid.
  split; [reflexivity|]. split; [reflexivity|]. split; [reflexivity|].
  unfold set_registrationMap at 1 2 3. cbn [registrationMap].
  unfold unregisteredChannel.
  split; [|split].
  - intros k Hk. destruct (registrationMap w !! key) as [l|]; [|done].
    destruct (_ && _); [by rewrite lookup_delete_ne | by rewrite lookup_insert_ne].
  - intros l Hl p Hp.
    change (producer_id w p ≠ cid).
    destruct (registrationMap w !! key) as [l0|] eqn:Hk; [|congruence].
    destruct (_ && _).
    + by rewrite lookup_delete_eq in Hl.
    + rewrite lookup_insert_eq in Hl. injection Hl as <-.
      by apply list_elem_of_filter in Hp as [Hp _].
  - intros l Hl. rewrite Hl. cbn zeta.
    destruct (HasSuffix channel "#ephemeral").
    + split.
      * intros Hnil. rewrite (bool_decide_eq_true_2 _ Hnil). cbn.
        apply lookup_delete_eq.
      * intros Hnn. rewrite (bool_decide_eq_false_2 _ Hnn). cbn.
        apply lookup_insert_eq.
    + rewrite andb_false_r. apply lookup_insert_eq.
Qed.

(** C9. UNREGISTER topic channel, the name ending in "#ephemeral", from
    an identified client: a registration ("channel", topic, channel) with
    an empty producer list is deleted, the client never having been one
    of its producers, and RemoveProducer having removed nothing. *)
Theorem UNREGISTER_empty_ephemeral (client : ClientV1) (a : ptr) (topic channel : string)
    (rest : list string) (w : World) :
  client_peerInfo client = Some a ->
  IsValidTopicName topic = true -> IsValidChannelName channel = true ->
  HasSuffix channel "#ephemeral" = true ->
  let key := {| Category := "channel"; Key := topic; SubKey := channel |} in
  registrationMap w !! key = Some [] ->
  let run := UNREGISTER ord IsValidTopicName IsValidChannelName client
               (topic :: channel :: rest) w in
  (RemoveProducer key (id (derefPeer w a)) w).1 = (false, 0%nat) /\
  run.1 = inr "OK" /\
  registrationMap run.2 = delete key (registrationMap w) /\
  registrationMap run.2 !! key = None.
Proof.
  intros Ha Ht Hc Heph key Hk run. subst run.
  assert (channel ≠ "") as Hne by (intros ->; discriminate Heph).
  rewrite (UNREGISTER_channel_run client a topic channel rest w Ha Ht Hc Hne).
  cbn [fst snd]. fold key.
  unfold set_registrationMap. cbn [registrationMap].
  unfold unregisteredChannel. rewrite Hk, Heph. cbn.
  split; [|split; [reflexivity|split; [reflexivity|apply lookup_delete_eq]]].
  unfold RemoveProducer. by rewrite Hk.
Qed.

(** C10. On a connection that has not identified, PING answers OK and
    changes nothing in the state, where REGISTER and UNREGISTER fail with
    the fatal error E_INVALID. *)
Theorem PING_before_IDENTIFY (client : ClientV1) (params : list string) (w : World) :
  client_peerInfo client = None ->
  PING client params w = (inr "OK", w) /\
  REGISTER IsValidTopicName IsValidChannelName client params w =
    (inl (FatalClientErr "E_INVALID" "client must IDENTIFY"), w) /\
  UNREGISTER ord IsValidTopicName IsValidChannelName client params w =
    (inl (FatalClientErr "E_INVALID" "client must IDENTIFY"), w).
Proof.
  intros Hnil. unfold PING, REGISTER, UNREGISTER. by rewrite Hnil.
Qed.

End ProtocolFacts.

(** ** /lookup *)

Lemma snapshot_steady (w w' : World) : snapshot w' = snapshot w <-> steady w w'.
Proof.
  unfold snapshot, steady. split.
  - intros [=]. by repeat split.
  - intros (-> & -> & -> & ->). reflexivity.
Qed.

Lemma IsTombstoned_snapshot (p : ptr) (lifetime : Duration) (w : World) :
  snapshot (IsTombstoned p lifetime w).2 = snapshot w.
Proof.
  unfold IsTombstoned, bind, gets. cbn.
  by destruct (tombstoned (derefProd w p)).
Qed.

Lemma FilterByActive_step_snapshot (now : Time) (it lt : Duration)
    (results : list ptr) (p : ptr) (w : World) :
  snapshot (FilterByActive_step now it lt results p w).2 = snapshot w.
Proof.
  unfold FilterByActive_step, bind, gets. cbn -[IsTombstoned].
  destruct (it <? _); [reflexivity|].
  pose proof (IsTombstoned_snapshot p lt w) as H.
  destruct (IsTombstoned p lt w) as [dead w']. cbn in H.
  by destruct dead.
Qed.

(** [FilterByActive] reads the clock and changes nothing else. *)
Lemma FilterByActive_steady (pp : list ptr) (it lt : Duration) (w : World) :
  steady w (FilterByActive pp it lt w).2.
Proof.
  apply snapshot_steady. unfold FilterByActive, bind.
  change (Now w) with
    (reading (clock w) (tick (clock w)),
     set_clock {| reading := reading (clock w); tick := S (tick (clock w)) |} w).
  cbv iota beta.
  rewrite (forM_preserves snapshot); [reflexivity|].
  intros. apply FilterByActive_step_snapshot.
Qed.

Lemma fold_left_snoc_map {A B} (f : A -> B) (xs : list A) (acc : list B) :
  fold_left (fun results x => results ++ [f x]) xs acc = acc ++ (f <$> xs).
Proof.
  revert acc. induction xs as [|x xs IH]; intros acc; cbn [fold_left].
  - by rewrite app_nil_r.
  - rewrite IH, fmap_cons. by rewrite <- app_assoc.
Qed.

Lemma Producers_PeerInfo_map (pp : list ptr) (w : World) :
  Producers_PeerInfo pp w = ((fun p => peerInfo (derefProd w p)) <$> pp, w).
Proof.
  unfold Producers_PeerInfo, gets. f_equal.
  apply (fold_left_snoc_map (fun p => peerInfo (derefProd w p)) pp []).
Qed.

Lemma FindRegistrations_scan (category key subkey : string)
    (kvs : list (Registration * list ptr)) (acc : list Registration) :
  fold_left (fun results kv =>
      if negb (IsMatch kv.1 category key subkey) then results
      else results ++ [kv.1]) kvs acc =
  acc ++ filter (fun k => matches k category key subkey) kvs.*1.
Proof.
  revert acc. induction kvs as [|kv kvs IH]; intros acc; cbn [fold_left].
  - by rewrite app_nil_r.
  - rewrite IH, fmap_cons, filter_cons.
    destruct (IsMatch kv.1 category key subkey) eqn:Hm; cbn [negb].
    + rewrite decide_True by (by apply IsMatch_matches). by rewrite <- app_assoc.
    + rewrite decide_False; [done|]. rewrite <- IsMatch_matches. congruence.
Qed.

(** A scan for the channels of a topic finds each of them once. *)
Lemma FindRegistrations_channels (ord : RangeOrder) (w : World) (T : string) :
  T ≠ "*" ->
  let chans := SubKeys (FindRegistrations ord "channel" T "*" w).1 in
  (FindRegistrations ord "channel" T "*" w).2 = w /\
  NoDup chans /\
  forall c, c ∈ chans <->
    is_Some (registrationMap w !! {| Category := "channel"; Key := T; SubKey := c |}).
Proof.
  intros HT. unfold FindRegistrations, gets, SubKeys. cbn [fst snd].
  split; [reflexivity|].
  assert (needFilter T "*" = true) as ->.
  { unfold needFilter. cbn. by rewrite orb_true_r. }
  cbn [negb]. rewrite FindRegistrations_scan, app_nil_l.
  assert (NoDup (ord (registrationMap w)).*1) as Hnd.
  { rewrite (range_perm ord). apply NoDup_fst_map_to_list. }
  assert (forall k, matches k "channel" T "*" <-> Category k = "channel" /\ Key k = T) as Hm.
  { intros k. unfold matches. intuition congruence. }
  split.
  - apply NoDup_fmap_2_strong; [|by apply NoDup_filter].
    intros [c1 k1 s1] [c2 k2 s2] H1 H2 Heq. cbn in Heq.
    apply list_elem_of_filter in H1 as [H1 _]. apply list_elem_of_filter in H2 as [H2 _].
    apply Hm in H1 as [? ?]. apply Hm in H2 as [? ?]. cbn in *. congruence.
  - intros c. rewrite list_elem_of_fmap. split.
    + intros (k & -> & Hk). apply list_elem_of_filter in Hk as [Hk Hin].
      apply Hm in Hk as [Hc Hkey]. apply list_elem_of_fmap in Hin as ([k' l] & -> & Hin).
      apply (range_lookup ord) in Hin. cbn in *.
      destruct k' as [c' k' s']. cbn in *. subst. by eexists.
    + intros [l Hl]. exists {| Category := "channel"; Key := T; SubKey := c |}.
      split; [reflexivity|]. apply list_elem_of_filter. split; [by apply Hm|].
      apply list_elem_of_fmap. eexists (_, l). split; [reflexivity|].
      by apply (range_lookup ord).
Qed.

(** C8. GET /lookup?topic=T for a topic name other than the wildcard.
    The answer is 404 TOPIC_NOT_FOUND exactly when the store has no
    ("topic", T, "") registration.  Otherwise it is 200, its channels are
    the subkeys of the ("channel", T, _) registrations, each once, and
    its producers are the PeerInfo of FilterByActive(inactivity timeout,
    tombstone lifetime) of the list under ("topic", T, ""); an empty
    list there gives 200 with no producers. *)
Theorem doLookup_spec (ord : RangeOrder) (opts : Options) (reqParams : ReqParams)
    (T : string) (w : World) :
  Get reqParams "topic" = Some T ->
  T ≠ "*" ->
  let key := {| Category := "topic"; Key := T; SubKey := "" |} in
  let run := doLookup ord opts {| query := Some reqParams |} w in
  (V1_status run.1 = 404 <-> registrationMap w !! key = None) /\
  (registrationMap w !! key = None ->
     run.1 = inl {| Code := 404; Text := "TOPIC_NOT_FOUND" |}) /\
  (forall l, registrationMap w !! key = Some l ->
     exists chans,
       run.1 = inr {| channels := chans;
                      producers :=
                        (fun p => peerInfo (derefProd w p)) <$>
                        (FilterByActive l (InactiveProducerTimeout opts)
                                          (TombstoneLifetime opts) w).1 |} /\
       V1_status run.1 = 200 /\
       NoDup chans /\
       (forall c, c ∈ chans <->
          is_Some (registrationMap w !! {| Category := "channel"; Key := T; SubKey := c |})) /\
       (l = [] -> run.1 = inr {| channels := chans; producers := [] |})).
Proof.
  intros HGet HT key run.
  assert (needFilter T "" = false) as Hnf.
  { unfold needFilter. by rewrite bool_decide_eq_false_2. }
  assert (registrationMap w !! key = None ->
          run = (inl {| Code := 404; Text := "TOPIC_NOT_FOUND" |}, w)) as Hnone.
  { intros Hk. subst run. unfold doLookup. cbn [NewReqParams query]. rewrite HGet.
    unfold bind at 1. unfold FindRegistrations at 1, gets. rewrite Hnf. cbn [negb].
    fold key. by rewrite Hk. }
  assert (forall l, registrationMap w !! key = Some l ->
     exists chans,
       run.1 = inr {| channels := chans;
                      producers :=
                        (fun p => peerInfo (derefProd w p)) <$>
                        (FilterByActive l (InactiveProducerTimeout opts)
                                          (TombstoneLifetime opts) w).1 |} /\
       NoDup chans /\
       (forall c, c ∈ chans <->
          is_Some (registrationMap w !! {| Category := "channel"; Key := T; SubKey := c |})))
    as Hsome.
  { intros l Hk. subst run. unfold doLookup. cbn [NewReqParams query]. rewrite HGet.
    unfold bind at 1. unfold FindRegistrations at 1, gets. rewrite Hnf. cbn [negb].
    fold key. rewrite Hk. cbn [length Nat.eqb].
    destruct (FindRegistrations_channels ord w T HT) as (Hw & Hnd & Hch).
    unfold bind at 1.
    destruct (FindRegistrations ord "channel" T "*" w) as [rr w1]. cbn in Hw, Hnd, Hch.
    subst w1. exists (SubKeys rr).
    unfold bind at 1. unfold FindProducers, gets. rewrite Hnf. cbn [negb].
    fold key. rewrite Hk. change (default [] (Some l)) with l. unfold bind at 1.
    pose proof (FilterByActive_steady l (InactiveProducerTimeout opts)
                  (TombstoneLifetime opts) w) as Hst.
    destruct (FilterByActive l _ _ w) as [act w2]. cbn [fst snd] in *.
    unfold bind. rewrite Producers_PeerInfo_map. cbn [fst ret].
    split; [|by split]. do 2 f_equal.
    apply list_fmap_ext. intros _ p _. by rewrite (steady_derefProd _ _ p Hst). }
  split; [|split].
  - split.
    + intros Hst. destruct (registrationMap w !! key) as [l|] eqn:Hk; [|done].
      destruct (Hsome l eq_refl) as (chans & Heq & _). rewrite Heq in Hst. discriminate.
    + intros Hk. by rewrite (Hnone Hk).
  - intros Hk. by rewrite (Hnone Hk).
  - intros l Hk. destruct (Hsome l Hk) as (chans & Heq & Hnd & Hch).
    exists chans. split; [exact Heq|]. split; [by rewrite Heq|].
    split; [exact Hnd|]. split; [exact Hch|].
    intros ->. rewrite Heq. reflexivity.
Qed.

(** ** /nodes *)

Lemma forM_invariant {A S} (P : S -> Prop) (xs : list A) (body : S -> A -> M S) :
  (forall s x w, P s -> P (body s x w).1) ->
  forall s w, P s -> P (forM xs body s w).1.
Proof.
  intros Hbody. induction xs as [|x xs IH]; intros s w Hs; cbn [forM].
  - exact Hs.
  - unfold bind. specialize (Hbody s x w Hs).
    destruct (body s x w) as [s' w']. by apply IH.
Qed.

(** Whatever the state and whatever [p0] is, the nodes that [doNodes]
    answers with all carry one list of topics and one tombstones slice. *)
Lemma doNodes_shared (ord : RangeOrder) (opts : Options) (p0 : ptr) (w : World) :
  exists d topics,
    (doNodes ord opts p0 w).1 = inr d /\
    Forall (fun n => Node.Tombstones n = 0%nat /\ Node.Topics n = topics) (nodes d).
Proof.
  unfold doNodes. unfold bind at 1.
  destruct (FindProducers ord "client" "" "" w) as [clients w1].
  unfold bind at 1.
  destruct (FilterByActive clients (InactiveProducerTimeout opts) 0 w1) as [producers w2].
  unfold bind at 1. unfold gets at 1. unfold bind at 1.
  destruct (LookupRegistrations ord (producer_id w2 p0) w2) as [rr w3].
  set (topics := Keys (Filter rr "topic" "*" "")).
  unfold bind at 1.
  destruct (forM topics _ [] w3) as [topicProducers w4].
  unfold bind at 1.
  match goal with |- context [forM producers ?body ?s0 w4] =>
    pose proof (forM_invariant
      (fun st : list (list bool) * list Node.node =>
         Forall (fun n => Node.Tombstones n = 0%nat /\ Node.Topics n = topics) st.2)
      producers body) as Hinv;
    specialize (fun H => Hinv H s0 w4);
    destruct (forM producers body s0 w4) as [st w5]
  end.
  exists {| nodes := st.2; arrays := st.1 |}, topics.
  split; [reflexivity|]. cbn [nodes]. apply Hinv; [|constructor].
  intros s p w' Hs. unfold bind at 1.
  destruct (forM (seq 0 (length topics)) _ s.1 w') as [mem w6].
  unfold bind, mkNode, gets, ret. cbn [fst snd].
  apply Forall_app. split; [exact Hs|]. by repeat constructor.
Qed.

(** C1, at the state [twoNodes]: whichever producer the unbound [p] of
    the hoisted lines denotes, the two nodes of the answer carry the
    same topics and the same tombstones array, where computing them for
    each producer gives [a] and not tombstoned for A, [b] and tombstoned
    for B. *)
Theorem doNodes_shares_across_producers (p0 : ptr) :
  (exists nA nB arrs,
     (doNodes canonicalOrder someOptions p0 twoNodes).1 =
       inr {| nodes := [nA; nB]; arrays := arrs |} /\
     Node.RemoteAddress nA = RemoteAddr connA /\
     Node.RemoteAddress nB = RemoteAddr connB /\
     Node.Topics nA = Node.Topics nB /\
     Node.Tombstones nA = Node.Tombstones nB) /\
  rendered (doNodes_perProducer canonicalOrder someOptions twoNodes).1 =
    [ (RemoteAddr connA, ["a"], [false]); (RemoteAddr connB, ["b"], [true]) ] /\
  rendered (doNodes canonicalOrder someOptions p0 twoNodes).1 ≠
    rendered (doNodes_perProducer canonicalOrder someOptions twoNodes).1.
Proof.
  destruct p0 as [|[|[|[|n]]]]; vm_compute;
    (split; [do 3 eexists; repeat split; reflexivity|]);
    (split; [reflexivity|]); discriminate.
Qed.

(** ** Producers, PeerInfo and sharing *)

Lemma Tombstone_effect (p : ptr) (w : World) :
  let w' := (Tombstone p w).2 in
  peers w' = peers w /\ registrationMap w' = registrationMap w /\
  reading (clock w') = reading (clock w) /\
  prods w' =
    <[p := {| peerInfo := peerInfo (derefProd w p); tombstoned := true;
              tombstonedAt := reading (clock w) (tick (clock w)) |}]> (prods w).
Proof. by repeat split. Qed.

(** What a call of [Tombstone] does to the producers of the heap. *)
Lemma Tombstone_deref (p : ptr) (w : World) :
  let w' := (Tombstone p w).2 in
  (forall q, q ≠ p -> derefProd w' q = derefProd w q) /\
  (forall q, peerInfo (derefProd w' q) = peerInfo (derefProd w q)) /\
  (forall q, stamped w q -> stamped w' q) /\
  ((p < length (prods w))%nat -> stamped w' p) /\
  length (prods w') = length (prods w).
Proof.
  destruct (Tombstone_effect p w) as (Hpe & Hm & Hr & Hpr). cbn zeta in *.
  set (w' := (Tombstone p w).2) in *.
  assert (forall q, q ≠ p -> derefProd w' q = derefProd w q) as Hother.
  { intros q Hq. unfold derefProd. rewrite Hpr. by rewrite list_lookup_insert_ne. }
  assert ((p < length (prods w))%nat -> stamped w' p) as Hhere.
  { intros Hlt. unfold stamped, is_tombstoned, tombstoned_at, derefProd.
    rewrite Hpr, list_lookup_insert_eq by done. cbn. split; [done|].
    by eexists. }
  split; [exact Hother|]. split; [|split; [|split]].
  - intros q. destruct (decide (q = p)) as [->|Hq]; [|by rewrite Hother].
    unfold derefProd. rewrite Hpr.
    destruct (decide (p < length (prods w))%nat) as [Hlt|Hge].
    + by rewrite list_lookup_insert_eq.
    + by rewrite list_insert_ge by lia.
  - intros q Hq. destruct (decide (q = p)) as [->|Hne].
    + apply Hhere. destruct Hq as [Ht _]. unfold is_tombstoned, derefProd in Ht.
      destruct (prods w !! p) eqn:Hp; [by eapply lookup_lt_Some | discriminate].
    + unfold stamped, is_tombstoned, tombstoned_at in *.
      rewrite (Hother q Hne), Hr. exact Hq.
  - exact Hhere.
  - rewrite Hpr. apply length_insert.
Qed.

Section TombstoneLoop.
Context (node : string).

Lemma tombstone_loop (xs : list ptr) (w : World) :
  let w' := (forM xs (tombstoneBody node) tt w).2 in
  peers w' = peers w /\ registrationMap w' = registrationMap w /\
  length (prods w') = length (prods w) /\
  (forall q, peerInfo (derefProd w' q) = peerInfo (derefProd w q)) /\
  (forall q, q ∉ xs -> derefProd w' q = derefProd w q) /\
  (forall q, stamped w q -> stamped w' q) /\
  (forall p, p ∈ xs -> (p < length (prods w))%nat -> node_of w p = node -> stamped w' p).
Proof.
  revert w. induction xs as [|x xs IH]; intros w.
  - cbn. do 6 (split; [done|]). intros p Hp. by inv Hp.
  - assert (exists w1, tombstoneBody node tt x w = (tt, w1) /\
              peers w1 = peers w /\ registrationMap w1 = registrationMap w /\
              length (prods w1) = length (prods w) /\
              (forall q, peerInfo (derefProd w1 q) = peerInfo (derefProd w q)) /\
              (forall q, q ≠ x -> derefProd w1 q = derefProd w q) /\
              (forall q, stamped w q -> stamped w1 q) /\
              ((x < length (prods w))%nat -> node_of w x = node -> stamped w1 x))
      as (w1 & Hrun & Hpe & Hm & Hlen & Hpi & Hother & Hmono & Hhere).
    { unfold tombstoneBody, bind, gets. cbn [fst snd].
      destruct (bool_decide (node_of w x = node)) eqn:Hnode.
      - destruct (Tombstone_deref x w) as (H1 & H2 & H3 & H4 & H5).
        destruct (Tombstone_effect x w) as (H6 & H7 & _).
        exists (Tombstone x w).2. split; [by destruct (Tombstone x w) as [[] ?]|].
        split; [exact H6|]. split; [exact H7|]. split; [exact H5|].
        split; [exact H2|]. split; [exact H1|]. split; [exact H3|].
        intros Hl _. by apply H4.
      - exists w. split; [reflexivity|]. do 6 (split; [done|]).
        intros _ Hn. apply bool_decide_eq_false in Hnode. contradiction. }
    assert ((forM (x :: xs) (tombstoneBody node) tt w).2 = (forM xs (tombstoneBody node) tt w1).2) as Hcons.
    { cbn [forM]. unfold bind. by rewrite Hrun. }
    cbn zeta. rewrite Hcons.
    destruct (IH w1) as (Hpe' & Hm' & Hlen' & Hpi' & Hother' & Hmono' & Hhere').
    cbn zeta in *. set (w' := (forM xs (tombstoneBody node) tt w1).2) in *.
    assert (forall q, node_of w1 q = node_of w q) as Hnode.
    { intros q. unfold node_of, derefPeer. by rewrite Hpi, Hpe. }
    split; [by rewrite Hpe', Hpe|]. split; [by rewrite Hm', Hm|].
    split; [by rewrite Hlen', Hlen|].
    split; [intros q; by rewrite Hpi', Hpi|]. split; [|split].
    + intros q Hq. apply not_elem_of_cons in Hq as [Hne Hq].
      by rewrite (Hother' q Hq), (Hother q Hne).
    + intros q Hq. by apply Hmono', Hmono.
    + intros p Hp Hlt Hn. apply elem_of_cons in Hp as [->|Hp].
      * by apply Hmono', Hhere.
      * apply Hhere'; [done | lia | by rewrite Hnode].
Qed.

End TombstoneLoop.

Section Sharing.
Context (ord : RangeOrder).
Context (IsValidTopicName IsValidChannelName : string -> bool).

Lemma AddProducer_fresh (k : Registration) (p : ptr) (w : World) :
  (forall q, q ∈ default [] (registrationMap w !! k) ->
     producer_id w q ≠ producer_id w p) ->
  AddProducer k p w =
    (true, set_registrationMap
             (fun m => <[k := default [] (registrationMap w !! k) ++ [p]]> m) w).
Proof.
  intros Hfresh. unfold AddProducer.
  destruct (existsb _ _) eqn:Hfound; [|reflexivity].
  apply existsb_exists in Hfound as (q & Hq & Heq).
  apply bool_decide_eq_true in Heq. apply list_elem_of_In in Hq.
  by destruct (Hfresh q Hq).
Qed.

Lemma AddProducer_lookup_ne (k k' : Registration) (p : ptr) (w : World) :
  k' ≠ k ->
  registrationMap (AddProducer k p w).2 !! k' = registrationMap w !! k'.
Proof.
  intros Hne. unfold AddProducer. destruct (existsb _ _); [reflexivity|].
  cbn. by rewrite lookup_insert_ne.
Qed.

Lemma producer_id_grown (w w' : World) (extra : list Producer) (q : ptr) :
  peers w' = peers w -> prods w' = prods w ++ extra ->
  (q < length (prods w))%nat -> producer_id w' q = producer_id w q.
Proof.
  intros Hpe Hpr Hq. unfold producer_id, derefPeer, derefProd.
  by rewrite Hpe, Hpr, lookup_app_l.
Qed.

(** The states REGISTER goes through when it is given a channel. *)
Lemma REGISTER_run (client : ClientV1) (a : ptr) (topic channel : string)
    (rest : list string) (w : World) :
  client_peerInfo client = Some a ->
  IsValidTopicName topic = true -> IsValidChannelName channel = true ->
  channel ≠ "" ->
  let chanKey := {| Category := "channel"; Key := topic; SubKey := channel |} in
  let topicKey := {| Category := "topic"; Key := topic; SubKey := "" |} in
  let w1 := set_prods (fun h => h ++ [freshProducer a]) w in
  let w2 := (AddProducer chanKey (length (prods w)) w1).2 in
  let w3 := set_prods (fun h => h ++ [freshProducer a]) w2 in
  let w4 := (AddProducer topicKey (length (prods w2)) w3).2 in
  REGISTER IsValidTopicName IsValidChannelName client (topic :: channel :: rest) w =
    (inr "OK", w4).
Proof.
  intros Ha Ht Hc Hne. cbn zeta. unfold REGISTER. rewrite Ha.
  rewrite (getTopicChan_valid IsValidTopicName IsValidChannelName _ _ _ _ Ht Hc).
  rewrite (bool_decide_eq_true_2 _ Hne).
  unfold bind, newProducer, ret. cbn [fst snd]. fold (freshProducer a).
  destruct (AddProducer _ (length (prods w)) _) as [b2 w2]. cbn [snd].
  by destruct (AddProducer _ (length (prods w2)) _) as [b4 w4].
Qed.

(** [/topic/tombstone] runs its loop over the producers of the topic. *)
Lemma doTombstoneTopicProducer_run (reqParams : ReqParams) (T node : string) (w : World) :
  Get reqParams "topic" = Some T -> Get reqParams "node" = Some node ->
  (doTombstoneTopicProducer ord {| query := Some reqParams |} w).2 =
  (forM (FindProducers ord "topic" T "" w).1 (tombstoneBody node) tt w).2.
Proof.
  intros HT Hnode. unfold doTombstoneTopicProducer. cbn [NewReqParams query].
  rewrite HT, Hnode. unfold bind at 1.
  assert ((FindProducers ord "topic" T "" w).2 = w) as Hw by reflexivity.
  destruct (FindProducers ord "topic" T "" w) as [found w0]. cbn [fst snd] in *.
  subst w0. unfold bind at 1.
  by destruct (forM found _ tt w) as [[] w'].
Qed.

(** C2, as the code has it.  For an identified connection with PeerInfo
    at [a]: REGISTER allocates one Producer for the channel registration
    and another for the topic registration, both pointing at [a], and
    appends each to its list unless the id is listed there; the
    last_update that PING stores is read through every producer that
    points at [a]; and /topic/tombstone stamps the producers of
    ("topic", T, "") whose node matches and leaves every Producer that is
    not in that list as it was. *)
Theorem PeerInfo_shared_Producer_per_registration
    (opts : Options) (client : ClientV1) (a : ptr) (topic channel : string)
    (rest : list string) (reqParams : ReqParams) (T node : string) (w : World) :
  client_peerInfo client = Some a ->
  (a < length (peers w))%nat ->
  allocated w ->
  IsValidTopicName topic = true -> IsValidChannelName channel = true ->
  channel ≠ "" ->
  Get reqParams "topic" = Some T -> Get reqParams "node" = Some node ->
  (let w' := (REGISTER IsValidTopicName IsValidChannelName client
                (topic :: channel :: rest) w).2 in
   let pc := length (prods w) in
   let pt := S (length (prods w)) in
   let chanKey := {| Category := "channel"; Key := topic; SubKey := channel |} in
   let topicKey := {| Category := "topic"; Key := topic; SubKey := "" |} in
   let cid := id (derefPeer w a) in
   peers w' = peers w /\
   prods w' = prods w ++ [freshProducer a; freshProducer a] /\
   peerInfo (derefProd w' pc) = a /\ peerInfo (derefProd w' pt) = a /\ pc ≠ pt /\
   ((forall q, q ∈ default [] (registrationMap w !! chanKey) -> producer_id w q ≠ cid) ->
    registrationMap w' !! chanKey =
      Some (default [] (registrationMap w !! chanKey) ++ [pc])) /\
   ((forall q, q ∈ default [] (registrationMap w !! topicKey) -> producer_id w q ≠ cid) ->
    registrationMap w' !! topicKey =
      Some (default [] (registrationMap w !! topicKey) ++ [pt]))) /\
  (let w' := (PING client [] w).2 in
   prods w' = prods w /\ registrationMap w' = registrationMap w /\
   forall p, peerInfo (derefProd w p) = a ->
     last_update w' p = UnixNano (reading (clock w) (tick (clock w)))) /\
  (let w' := (doTombstoneTopicProducer ord {| query := Some reqParams |} w).2 in
   let found := (FindProducers ord "topic" T "" w).1 in
   peers w' = peers w /\ registrationMap w' = registrationMap w /\
   (forall q, q ∉ found -> derefProd w' q = derefProd w q) /\
   (forall p, p ∈ found -> (p < length (prods w))%nat -> node_of w p = node ->
      stamped w' p)).
Proof.
  intros Ha Hlt Halloc Ht Hc Hne HT Hnode. split; [|split].
  - (* REGISTER *)
    cbn zeta.
    rewrite (REGISTER_run client a topic channel rest w Ha Ht Hc Hne). cbn [snd].
    set (chanKey := {| Category := "channel"; Key := topic; SubKey := channel |}).
    set (topicKey := {| Category := "topic"; Key := topic; SubKey := "" |}).
    set (pc := length (prods w)).
    set (w1 := set_prods (fun h => h ++ [freshProducer a]) w).
    pose proof (AddProducer_heaps chanKey pc w1) as [Hpe2 Hpr2].
    set (w2 := (AddProducer chanKey pc w1).2) in *.
    assert (length (prods w2) = S pc) as Hlen2.
    { rewrite Hpr2. subst w1 pc. cbn. rewrite length_app. cbn. lia. }
    rewrite Hlen2.
    set (w3 := set_prods (fun h => h ++ [freshProducer a]) w2).
    pose proof (AddProducer_heaps topicKey (S pc) w3) as [Hpe4 Hpr4].
    set (w4 := (AddProducer topicKey (S pc) w3).2) in *.
    assert (peers w4 = peers w) as Hpeers.
    { rewrite Hpe4. subst w3. cbn. by rewrite Hpe2. }
    assert (prods w4 = prods w ++ [freshProducer a; freshProducer a]) as Hprods.
    { rewrite Hpr4. subst w3. cbn. rewrite Hpr2. subst w1. cbn.
      by rewrite <- app_assoc. }
    assert (derefProd w4 pc = freshProducer a) as Hpc.
    { unfold derefProd. rewrite Hprods. subst pc.
      rewrite lookup_app_r by lia. by rewrite Nat.sub_diag. }
    assert (derefProd w4 (S pc) = freshProducer a) as Hpt.
    { unfold derefProd. rewrite Hprods. subst pc.
      rewrite lookup_app_r by lia.
      by replace (S (length (prods w)) - length (prods w))%nat with 1%nat by lia. }
    split; [exact Hpeers|]. split; [exact Hprods|].
    split; [by rewrite Hpc|]. split; [by rewrite Hpt|]. split; [lia|].
    assert (topicKey ≠ chanKey) as Hkeys by (intros [=]; done).
    assert (forall k q, q ∈ default [] (registrationMap w !! k) ->
              (q < length (prods w))%nat) as Hin.
    { intros k q Hq. destruct (registrationMap w !! k) as [l|] eqn:Hk; [|by inv Hq].
      by apply (Halloc k l). }
    split.
    + intros Hfresh. subst w4.
      rewrite AddProducer_lookup_ne by done. subst w3. cbn [registrationMap set_prods].
      subst w2. rewrite AddProducer_fresh; [cbn; by rewrite lookup_insert_eq|].
      intros q Hq. change (registrationMap w1) with (registrationMap w) in Hq.
      rewrite (producer_id_grown w w1 [freshProducer a] q eq_refl eq_refl (Hin _ _ Hq)).
      replace (producer_id w1 pc) with (id (derefPeer w a)); [by apply Hfresh|].
      unfold producer_id, derefProd. subst w1 pc. cbn.
      rewrite lookup_app_r by lia. by rewrite Nat.sub_diag.
    + intros Hfresh. subst w4.
      assert (registrationMap w3 !! topicKey = registrationMap w !! topicKey) as Hk3.
      { subst w3. cbn [registrationMap set_prods]. subst w2.
        by rewrite AddProducer_lookup_ne. }
      rewrite AddProducer_fresh.
      { unfold set_registrationMap. cbn [snd registrationMap].
        by rewrite lookup_insert_eq, Hk3. }
      intros q Hq. rewrite Hk3 in Hq.
      assert (prods w3 = prods w ++ [freshProducer a; freshProducer a]) as Hpr3.
      { subst w3. cbn. rewrite Hpr2. subst w1. cbn. by rewrite <- app_assoc. }
      assert (peers w3 = peers w) as Hpe3 by (subst w3; cbn; by rewrite Hpe2).
      rewrite (producer_id_grown w w3 _ q Hpe3 Hpr3 (Hin _ _ Hq)).
      replace (producer_id w3 (S pc)) with (id (derefPeer w a)); [by apply Hfresh|].
      unfold producer_id, derefProd, derefPeer. rewrite Hpr3, Hpe3. subst pc.
      rewrite lookup_app_r by lia.
      by replace (S (length (prods w)) - length (prods w))%nat with 1%nat by lia.
  - (* PING *)
    cbn zeta. unfold PING. rewrite Ha.
    unfold bind, gets, Now, StoreLastUpdate, modify, ret. cbn [fst snd].
    split; [reflexivity|]. split; [reflexivity|].
    intros p Hp. unfold last_update, derefProd, derefPeer in *. cbn.
    rewrite Hp. by rewrite list_lookup_insert_eq.
  - (* /topic/tombstone *)
    cbn zeta. rewrite (doTombstoneTopicProducer_run reqParams T node w HT Hnode).
    destruct (tombstone_loop node (FindProducers ord "topic" T "" w).1 w)
      as (Hpe & Hm & _ & _ & Hother & _ & Hhere).
    split; [exact Hpe|]. split; [exact Hm|]. split; [exact Hother | exact Hhere].
Qed.

End Sharing.

(** ** No pointer dangles *)

Lemma forM_state_invariant {A S} (P : World -> Prop) (xs : list A) (body : S -> A -> M S) :
  (forall s x w, P w -> P (body s x w).2) ->
  forall s w, P w -> P (forM xs body s w).2.
Proof.
  intros Hbody. induction xs as [|x xs IH]; intros s w Hw; cbn [forM].
  - exact Hw.
  - unfold bind. specialize (Hbody s x w Hw).
    destruct (body s x w) as [s' w']. by apply IH.
Qed.

Lemma wellFormed_started (c : Clock) :
  wellFormed {| peers := []; prods := []; registrationMap := NewRegistrationDB; clock := c |}.
Proof.
  split.
  - intros k l p Hk. cbn in Hk. unfold NewRegistrationDB in Hk.
    by rewrite lookup_empty in Hk.
  - intros p pr Hp. cbn in Hp. by destruct p.
Qed.

Lemma AddProducer_wellFormed (k : Registration) (p : ptr) (w : World) :
  (p < length (prods w))%nat -> wellFormed w -> wellFormed (AddProducer k p w).2.
Proof.
  intros Hp [Hal Hpi]. unfold AddProducer.
  destruct (existsb _ _); [by split|]. split; [|exact Hpi].
  intros k' l q. cbn.
  destruct (decide (k = k')) as [<-|Hne].
  - rewrite lookup_insert_eq. intros [= <-] Hq.
    apply elem_of_app in Hq as [Hq|Hq].
    + destruct (registrationMap w !! k) as [l0|] eqn:Hk; [by apply (Hal k l0) | by inv Hq].
    + apply list_elem_of_singleton in Hq. by subst q.
  - rewrite lookup_insert_ne by done. apply Hal.
Qed.

Lemma RemoveProducer_wellFormed (k : Registration) (id_ : string) (w : World) :
  wellFormed w -> wellFormed (RemoveProducer k id_ w).2.
Proof.
  intros [Hal Hpi]. rewrite RemoveProducer_run.
  destruct (registrationMap w !! k) as [l0|] eqn:Hk; [|by split].
  split; [|exact Hpi]. intros k' l q. cbn.
  destruct (decide (k = k')) as [<-|Hne].
  - rewrite lookup_insert_eq. intros [= <-] Hq.
    apply list_elem_of_filter in Hq as [_ Hq]. by apply (Hal k l0).
  - rewrite lookup_insert_ne by done. apply Hal.
Qed.

Lemma RemoveRegistration_wellFormed (k : Registration) (w : World) :
  wellFormed w -> wellFormed (RemoveRegistration k w).2.
Proof.
  intros [Hal Hpi]. split; [|exact Hpi]. intros k' l q. cbn.
  intros Hk. apply lookup_delete_Some in Hk as [_ Hk]. by apply (Hal k' l).
Qed.

Lemma AddRegistration_wellFormed (k : Registration) (w : World) :
  wellFormed w -> wellFormed (AddRegistration k w).2.
Proof.
  intros [Hal Hpi]. unfold AddRegistration, modify. cbn [snd].
  destruct (registrationMap w !! k) eqn:Hk; [by split|].
  split; [|exact Hpi]. intros k' l q. cbn.
  destruct (decide (k = k')) as [<-|Hne].
  - rewrite lookup_insert_eq. intros [= <-] Hq. by inv Hq.
  - rewrite lookup_insert_ne by done. apply Hal.
Qed.

Lemma newProducer_wellFormed (a : ptr) (w : World) :
  (a < length (peers w))%nat -> wellFormed w ->
  wellFormed (newProducer a w).2 /\
  ((newProducer a w).1 < length (prods (newProducer a w).2))%nat /\
  peers (newProducer a w).2 = peers w.
Proof.
  intros Ha [Hal Hpi]. unfold newProducer. cbn [fst snd].
  split; [split|split; [|reflexivity]].
  - intros k l q Hk Hq. cbn in *. rewrite length_app. cbn.
    specialize (Hal k l q Hk Hq). lia.
  - intros p pr. cbn. intros Hp.
    apply lookup_app_Some in Hp as [Hp|[_ Hp]]; [by apply (Hpi p)|].
    apply list_lookup_singleton_Some in Hp as [_ <-]. exact Ha.
  - cbn. rewrite length_app. cbn. lia.
Qed.

Lemma Tombstone_wellFormed (p : ptr) (w : World) :
  wellFormed w -> wellFormed (Tombstone p w).2.
Proof.
  intros [Hal Hpi].
  destruct (Tombstone_effect p w) as (Hpe & Hm & _ & Hpr).
  destruct (Tombstone_deref p w) as (_ & _ & _ & _ & Hlen). cbn zeta in *.
  split.
  - intros k l q. rewrite Hm, Hlen. apply Hal.
  - intros q pr. rewrite Hpr, Hpe. intros Hq.
    apply list_lookup_insert_Some in Hq as [(-> & <- & Hlt)|[Hne Hq]]; [|by apply (Hpi q)].
    cbn. unfold derefProd.
    destruct (prods w !! q) as [pr|] eqn:Hq; [by apply (Hpi q) | by apply lookup_ge_None in Hq; lia].
Qed.

Lemma register_one_wellFormed (a : ptr) (k : Registration) (w : World) :
  (a < length (peers w))%nat -> wellFormed w ->
  let w1 := (AddProducer k (length (prods w))
               (set_prods (fun h => h ++ [freshProducer a]) w)).2 in
  wellFormed w1 /\ peers w1 = peers w.
Proof.
  intros Ha Hw. cbn zeta.
  destruct (newProducer_wellFormed a w Ha Hw) as (Hw1 & Hlt & Hpe).
  unfold newProducer in *. cbn [fst snd] in *.
  split; [by apply AddProducer_wellFormed|].
  by destruct (AddProducer_heaps k (length (prods w))
                 (set_prods (fun h => h ++ [freshProducer a]) w)) as [-> _].
Qed.

Section NoDanglingPointer.
Context (ord : RangeOrder) (server : ServerInfo).
Context (IsValidTopicName IsValidChannelName : string -> bool).

Lemma REGISTER_wellFormed (client : ClientV1) (params : list string) (w : World) :
  clientOk client w -> wellFormed w ->
  wellFormed (REGISTER IsValidTopicName IsValidChannelName client params w).2.
Proof.
  intros Hc Hw. unfold REGISTER.
  destruct (client_peerInfo client) as [a|] eqn:Ha; [|exact Hw].
  unfold clientOk in Hc. rewrite Ha in Hc. specialize (Hc a eq_refl).
  destruct (getTopicChan _ _ _ _) as [err|[topic channel]]; [exact Hw|].
  destruct (bool_decide (channel ≠ "")); unfold bind, ret, newProducer; cbn [fst snd].
  - destruct (register_one_wellFormed a
                {| Category := "channel"; Key := topic; SubKey := channel |} w Hc Hw)
      as [Hw1 Hpe1]. cbn zeta in *.
    destruct (AddProducer _ (length (prods w)) _) as [b1 w1]. cbn [snd] in *.
    rewrite <- Hpe1 in Hc.
    destruct (register_one_wellFormed a
                {| Category := "topic"; Key := topic; SubKey := "" |} w1 Hc Hw1)
      as [Hw2 _]. cbn zeta in *.
    by destruct (AddProducer _ (length (prods w1)) _) as [b2 w2].
  - destruct (register_one_wellFormed a
                {| Category := "topic"; Key := topic; SubKey := "" |} w Hc Hw)
      as [Hw2 _]. cbn zeta in *.
    by destruct (AddProducer _ (length (prods w)) _) as [b2 w2].
Qed.

Lemma UNREGISTER_wellFormed (client : ClientV1) (params : list string) (w : World) :
  wellFormed w ->
  wellFormed (UNREGISTER ord IsValidTopicName IsValidChannelName client params w).2.
Proof.
  intros Hw. unfold UNREGISTER.
  destruct (client_peerInfo client) as [a|]; [|exact Hw].
  destruct (getTopicChan _ _ _ _) as [err|[topic channel]]; [exact Hw|].
  unfold bind at 1.
  match goal with |- wellFormed (let (_, w') := ?m w in _).2 =>
    assert (wellFormed (m w).2) as Hm; [|by destruct (m w) as [[] w']]
  end.
  destruct (bool_decide (channel ≠ "")).
  - unfold bind, peer_id, gets. cbn [fst snd].
    pose proof (RemoveProducer_wellFormed
                  {| Category := "channel"; Key := topic; SubKey := channel |}
                  (id (derefPeer w a)) w Hw) as Hw1.
    destruct (RemoveProducer _ _ w) as [rl w1]. cbn [fst snd] in *.
    destruct (_ && _); [by apply RemoveRegistration_wellFormed | exact Hw1].
  - unfold bind at 1.
    assert ((FindRegistrations ord "channel" topic "*" w).2 = w) as Hfr by reflexivity.
    destruct (FindRegistrations ord "channel" topic "*" w) as [rr w0].
    cbn [snd] in Hfr. subst w0. unfold bind at 1.
    match goal with |- context [forM rr ?body tt w] =>
      pose proof (forM_state_invariant wellFormed rr body) as Hloop;
      specialize (fun H => Hloop H tt w Hw);
      destruct (forM rr body tt w) as [[] w1]
    end.
    cbn [snd] in Hloop.
    assert (wellFormed w1) as Hw1.
    { apply Hloop. intros [] r w2 Hw2. unfold bind, peer_id, gets, ret. cbn [fst snd].
      pose proof (RemoveProducer_wellFormed r (id (derefPeer w2 a)) w2 Hw2) as H.
      by destruct (RemoveProducer r _ w2) as [rl w3]. }
    unfold bind, peer_id, gets, ret. cbn [fst snd].
    pose proof (RemoveProducer_wellFormed
                  {| Category := "topic"; Key := topic; SubKey := "" |}
                  (id (derefPeer w1 a)) w1 Hw1) as H.
    by destruct (RemoveProducer _ _ w1) as [rl w3].
Qed.

Lemma IDENTIFY_wellFormed (client : ClientV1) (body : IdentifyBody) (w : World) :
  clientOk client w -> wellFormed w ->
  let run := IDENTIFY server client body w in
  wellFormed run.2 /\ clientOk run.1.2 run.2.
Proof.
  intros Hc Hw. cbn zeta. unfold IDENTIFY.
  destruct (client_peerInfo client) as [a0|] eqn:Ha0; [by split|].
  destruct body as [| | |ra hn ba tp hp v]; try by split.
  destruct (_ || _); [by split|].
  unfold bind, ret, Now, newPeerInfo, newProducer. cbn [fst snd].
  set (pi := {| lastUpdate := UnixNano (reading (clock w) (tick (clock w)));
                id := RemoteAddr client; RemoteAddress := RemoteAddr client;
                Hostname := hn; BroadcastAddress := ba; TCPPort := tp;
                HTTPPort := hp; Version := v |}).
  set (w' := set_peers (fun h => h ++ [pi])
               (set_clock {| reading := reading (clock w); tick := S (tick (clock w)) |} w)).
  assert (wellFormed w') as Hw'.
  { destruct Hw as [Hal Hpi]. split.
    - intros k l q. apply Hal.
    - intros q pr Hq. cbn. rewrite length_app. cbn.
      specialize (Hpi q pr Hq). lia. }
  assert (length (peers w) < length (peers w'))%nat as Hlt.
  { subst w'. cbn. rewrite length_app. cbn. lia. }
  destruct (register_one_wellFormed (length (peers w))
              {| Category := "client"; Key := ""; SubKey := "" |} w' Hlt Hw')
    as [Hw2 Hpe2]. cbn zeta in *.
  match goal with |- context [AddProducer ?k ?p ?w1] =>
    change (AddProducer k p w1) with
      (AddProducer k (length (prods w'))
         (set_prods (fun h => h ++ [freshProducer (length (peers w))]) w'))
  end.
  destruct (AddProducer _ (length (prods w')) _) as [b w2]. cbn [fst snd] in *.
  split; [exact Hw2|]. intros a [= <-]. by rewrite Hpe2.
Qed.

Lemma PING_wellFormed (client : ClientV1) (params : list string) (w : World) :
  wellFormed w -> wellFormed (PING client params w).2.
Proof.
  intros [Hal Hpi]. unfold PING.
  destruct (client_peerInfo client) as [a|]; [|by split].
  unfold bind, gets, Now, StoreLastUpdate, modify, ret. cbn [fst snd].
  split; [exact Hal|]. intros p pr Hp. cbn. rewrite length_insert. by apply (Hpi p).
Qed.

Lemma doTombstoneTopicProducer_wellFormed (req : Request) (w : World) :
  wellFormed w -> wellFormed (doTombstoneTopicProducer ord req w).2.
Proof.
  intros Hw. unfold doTombstoneTopicProducer.
  destruct (NewReqParams req) as [reqParams|]; [|exact Hw].
  destruct (Get reqParams "topic") as [T|]; [|exact Hw].
  destruct (Get reqParams "node") as [node|]; [|exact Hw].
  unfold bind at 1.
  assert ((FindProducers ord "topic" T "" w).2 = w) as Hfp by reflexivity.
  destruct (FindProducers ord "topic" T "" w) as [found w0]. cbn [snd] in Hfp. subst w0.
  unfold bind at 1.
  match goal with |- context [forM found ?body tt w] =>
    pose proof (forM_state_invariant wellFormed found body) as Hloop;
    specialize (fun H => Hloop H tt w Hw);
    destruct (forM found body tt w) as [[] w1]
  end.
  cbn [snd ret] in *. apply Hloop.
  intros [] p w2 Hw2. unfold tombstoneBody, bind, gets. cbn [fst snd].
  destruct (bool_decide _); [by apply Tombstone_wellFormed | exact Hw2].
Qed.

End NoDanglingPointer.

(** ** FilterByActive on a running clock *)

Lemma IsTombstoned_ticks_length (w : World) (now : Time) (it : Duration) (pp : list ptr) :
  forall n, length (IsTombstoned_ticks w now it n pp) = length pp.
Proof. induction pp as [|p pp IH]; intros n; cbn; [done|]. by rewrite IH. Qed.

Lemma IsTombstoned_ticks_bound (w : World) (now : Time) (it : Duration) (pp : list ptr) :
  forall n, Forall (fun m => (n <= m < n + length pp)%nat) (IsTombstoned_ticks w now it n pp).
Proof.
  induction pp as [|p pp IH]; intros n; cbn [IsTombstoned_ticks length]; [constructor|].
  constructor; [lia|].
  eapply Forall_impl; [apply IH|]. intros m Hm. cbv beta in Hm.
  destruct (it <? _); [lia|]. destruct (is_tombstoned w p); lia.
Qed.

Lemma activeAt_steady (now : Time) (it lt : Duration) (w w' : World) (pm : ptr * nat) :
  steady w w' -> activeAt now it lt w' pm <-> activeAt now it lt w pm.
Proof.
  intros Hs. unfold activeAt, last_update, is_tombstoned, tombstoned_at.
  rewrite (steady_derefProd _ _ pm.1 Hs), (steady_derefPeer _ _ _ Hs).
  by destruct Hs as (_ & _ & _ & ->).
Qed.

(** One round of the loop, the clock having been read [tick] times. *)
Lemma FilterByActive_step_readings (now : Time) (it lt : Duration) (w : World)
    (results : Producers) (p : ptr) :
  let run := FilterByActive_step now it lt results p w in
  run.1 = results ++ (filter (activeAt now it lt w) [(p, tick (clock w))]).*1 /\
  steady w run.2 /\
  tick (clock run.2) =
    if it <? Sub now (last_update w p) then tick (clock w)
    else if is_tombstoned w p then S (tick (clock w)) else tick (clock w).
Proof.
  cbn zeta. rewrite filter_cons, filter_nil.
  unfold FilterByActive_step, bind, gets. cbn -[IsTombstoned].
  unfold Unix0. fold (last_update w p).
  destruct (Z.ltb_spec it (Sub now (last_update w p))) as [Hlate|Hfresh].
  - cbn. split; [|split; [apply steady_refl | reflexivity]].
    rewrite decide_False; [by rewrite app_nil_r|]. unfold activeAt. cbn. lia.
  - unfold IsTombstoned, bind, gets, Now, ret. cbn [fst snd].
    fold (is_tombstoned w p).
    destruct (is_tombstoned w p) eqn:Htomb.
    + change (tombstonedAt (derefProd (set_clock _ w) p)) with (tombstoned_at w p).
      destruct (Z.ltb_spec (Sub (reading (clock w) (tick (clock w))) (tombstoned_at w p)) lt)
        as [Hin|Hout]; cbn.
      * split; [|split; [by repeat split | reflexivity]].
        rewrite decide_False; [by rewrite app_nil_r|].
        unfold activeAt. cbn. intros [_ Hno]. apply Hno. by split.
      * split; [|split; [by repeat split | reflexivity]].
        rewrite decide_True; [done|].
        unfold activeAt. cbn. split; [lia|]. intros [_ ?]. lia.
    + cbn. split; [|split; [apply steady_refl | reflexivity]].
      rewrite decide_True; [done|].
      unfold activeAt. cbn. split; [lia|]. intros [? _]. congruence.
Qed.

Lemma IsTombstoned_ticks_steady (w w' : World) (now : Time) (it : Duration) (pp : list ptr) :
  steady w w' ->
  forall n, IsTombstoned_ticks w' now it n pp = IsTombstoned_ticks w now it n pp.
Proof.
  intros Hs. induction pp as [|p pp IH]; intros n; cbn [IsTombstoned_ticks]; [done|].
  unfold last_update, is_tombstoned.
  rewrite (steady_derefProd _ _ p Hs), (steady_derefPeer _ _ _ Hs). by rewrite IH.
Qed.

Lemma FilterByActive_loop_readings (now : Time) (it lt : Duration) (w0 : World)
    (pp : list ptr) :
  forall (results : Producers) (w : World), steady w0 w ->
  (forM pp (FilterByActive_step now it lt) results w).1 =
    results ++
    (filter (activeAt now it lt w0)
       (zip pp (IsTombstoned_ticks w0 now it (tick (clock w)) pp))).*1.
Proof.
  induction pp as [|p pp IH]; intros results w Hs; cbn [forM].
  - cbn. by rewrite app_nil_r.
  - unfold bind.
    destruct (FilterByActive_step_readings now it lt w results p) as (Hv & Hs' & Htick).
    cbn zeta in *.
    destruct (FilterByActive_step now it lt results p w) as [results' w'].
    cbn [fst snd] in *. subst results'.
    rewrite (IH _ w' (steady_trans _ _ _ Hs Hs')), Htick.
    cbn [IsTombstoned_ticks zip zip_with]. rewrite filter_cons.
    assert (last_update w p = last_update w0 p) as ->.
    { unfold last_update. by rewrite (steady_derefProd _ _ p Hs), (steady_derefPeer _ _ _ Hs). }
    assert (is_tombstoned w p = is_tombstoned w0 p) as ->.
    { unfold is_tombstoned. by rewrite (steady_derefProd _ _ p Hs). }
    rewrite filter_cons, filter_nil.
    destruct (decide (activeAt now it lt w (p, tick (clock w)))) as [Hact|Hact].
    + rewrite decide_True by (by apply (activeAt_steady now it lt w0 w)).
      cbn. by rewrite <- app_assoc.
    + rewrite decide_False by (by rewrite <- (activeAt_steady now it lt w0 w)).
      cbn. by rewrite app_nil_r.
Qed.

(** Where the test of every pair comes down to a test of the producer,
    the readings drop out. *)
Lemma filter_zip_fst {A B} (P : A * B -> Prop) `{forall x, Decision (P x)}
    (Q : A -> Prop) `{forall x, Decision (Q x)} (xs : list A) :
  forall ys : list B, length ys = length xs ->
  (forall x y, (x, y) ∈ zip xs ys -> P (x, y) <-> Q x) ->
  (filter P (zip xs ys)).*1 = filter Q xs.
Proof.
  induction xs as [|x xs IH]; intros [|y ys] Hlen Hpq; try done.
  cbn [zip zip_with]. rewrite !filter_cons.
  assert ((filter P (zip xs ys)).*1 = filter Q xs) as Hrest.
  { apply IH; [by injection Hlen|]. intros x' y' Hin. apply Hpq. by right. }
  assert (P (x, y) <-> Q x) as Hxy by (apply Hpq; by left).
  destruct (decide (P (x, y))) as [Hp|Hp].
  - rewrite decide_True by (by apply Hxy). cbn. by rewrite Hrest.
  - rewrite decide_False; [done|]. intros Hq. by apply Hp, Hxy.
Qed.

Lemma Sub_nonneg (t u : Time) : u <= t -> ¬ (Sub t u < 0).
Proof.
  intros Hle. unfold Sub.
  destruct (maxDuration <? t - u); [unfold maxDuration; lia|].
  destruct (Z.ltb_spec (t - u) minDuration); [unfold minDuration in *; lia | lia].
Qed.

(** C5. FilterByActive reads the clock on entry, which gives [now], and
    IsTombstoned reads it again for every producer with a tombstone that
    it tests; the differences are those of [time.Sub].  For every clock:
    the producers returned are, in their order, exactly those updated no
    longer than inactivityTimeout before [now] and not tombstoned at the
    reading taken for them, a reading after [now] and within the call.
    When the clock does not advance during the call and every time stamp
    lies within a Duration of [now], that is the filter at the one
    instant [now].  With a tombstoneLifetime of zero, and no tombstone
    stamped after a reading of the call, no producer is left out for
    being tombstoned. *)
Theorem FilterByActive_spec (inactivityTimeout tombstoneLifetime : Duration)
    (w : World) (pp : Producers) :
  let t0 := tick (clock w) in
  let now := reading (clock w) t0 in
  let during := fun m => (t0 < m <= t0 + length pp)%nat in
  let result := (FilterByActive pp inactivityTimeout tombstoneLifetime w).1 in
  let ticks := IsTombstoned_ticks w now inactivityTimeout (S t0) pp in
  (length ticks = length pp /\ Forall during ticks /\
   result =
     (filter (activeAt now inactivityTimeout tombstoneLifetime w) (zip pp ticks)).*1) /\
  ((forall m, during m -> reading (clock w) m = now) ->
   Forall (timely now w) pp ->
   result = filter (active now inactivityTimeout tombstoneLifetime w) pp) /\
  (tombstoneLifetime = 0 ->
   (forall p m, p ∈ pp -> is_tombstoned w p = true -> during m ->
      tombstoned_at w p <= reading (clock w) m) ->
   result = filter (fun p => Sub now (last_update w p) <= inactivityTimeout) pp).
Proof.
  intros t0 now during result ticks.
  assert (length ticks = length pp) as Hlen by apply IsTombstoned_ticks_length.
  assert (Forall during ticks) as Hduring.
  { eapply Forall_impl; [apply IsTombstoned_ticks_bound|].
    intros m Hm. unfold during. cbv beta in Hm. lia. }
  assert (result =
          (filter (activeAt now inactivityTimeout tombstoneLifetime w) (zip pp ticks)).*1)
    as Hresult.
  { subst result. unfold FilterByActive, bind.
    change (Now w) with
      (reading (clock w) (tick (clock w)),
       set_clock {| reading := reading (clock w); tick := S (tick (clock w)) |} w).
    cbv iota beta.
    rewrite (FilterByActive_loop_readings _ inactivityTimeout tombstoneLifetime w pp [] _);
      [reflexivity | by repeat split]. }
  assert (forall p m, (p, m) ∈ zip pp ticks -> p ∈ pp /\ during m) as Hzip.
  { intros p m Hin. split; [by eapply elem_of_zip_l|].
    apply elem_of_zip_r in Hin. by apply (proj1 (Forall_forall _ _) Hduring). }
  split; [done|]. split.
  - intros Hstill Htimely. rewrite Hresult.
    apply filter_zip_fst; [exact Hlen|].
    intros p m Hin. destruct (Hzip p m Hin) as [Hp Hm].
    destruct (proj1 (Forall_forall _ _) Htimely p Hp) as [Hlu Hta].
    unfold activeAt, active, currentlyTombstoned. cbn [fst snd].
    rewrite (Hstill m Hm), (Sub_exact _ _ Hlu). split.
    + intros [Hfresh Hno]. split; [exact Hfresh|]. intros [Ht Hlt]. apply Hno.
      split; [exact Ht|]. by rewrite (Sub_exact _ _ (Hta Ht)).
    + intros [Hfresh Hno]. split; [exact Hfresh|]. intros [Ht Hlt]. apply Hno.
      split; [exact Ht|]. by rewrite (Sub_exact _ _ (Hta Ht)) in Hlt.
  - intros -> Hpast. rewrite Hresult.
    apply filter_zip_fst; [exact Hlen|].
    intros p m Hin. destruct (Hzip p m Hin) as [Hp Hm].
    unfold activeAt. cbn [fst snd]. split; [by intros [? _]|].
    intros Hfresh. split; [exact Hfresh|]. intros [Ht Hlt].
    by apply (Sub_nonneg _ _ (Hpast p m Hp Ht Hm)).
Qed.

(** ** The claims at concrete states *)

Lemma allocated_check (w : World) :
  forallb (fun kv => forallb (fun p => p <? length (prods w))%nat kv.2)
    (map_to_list (registrationMap w)) = true ->
  allocated w.
Proof.
  intros Hall k l p Hk Hp.
  apply elem_of_map_to_list, list_elem_of_In in Hk.
  rewrite forallb_forall in Hall. specialize (Hall _ Hk). cbn in Hall.
  rewrite forallb_forall in Hall. apply list_elem_of_In in Hp.
  by apply Nat.ltb_lt, Hall.
Qed.

(** C2 fails as stated: after IDENTIFY, REGISTER topicX ch and a
    tombstone for topicX, the connection has one Producer under the
    client key, another under the channel and a third under the topic,
    all pointing to its PeerInfo, and only the third is tombstoned. *)
Lemma tombstone_not_shared :
  ¬ oneProducerPerConnection tombstonedA /\
  registrationMap tombstonedA !! {| Category := "client"; Key := ""; SubKey := "" |}
    = Some [0%nat] /\
  registrationMap tombstonedA !! {| Category := "channel"; Key := "topicX"; SubKey := "ch" |}
    = Some [1%nat] /\
  registrationMap tombstonedA !! {| Category := "topic"; Key := "topicX"; SubKey := "" |}
    = Some [2%nat] /\
  is_tombstoned tombstonedA 2 = true /\ is_tombstoned tombstonedA 1 = false /\
  is_tombstoned tombstonedA 0 = false.
Proof.
  split; [|by vm_compute].
  intros Hone.
  destruct (Hone {| Category := "channel"; Key := "topicX"; SubKey := "ch" |}
                 {| Category := "topic"; Key := "topicX"; SubKey := "" |}
                 [1%nat] [2%nat] 1%nat 2%nat) as [Heq _];
    [by vm_compute | by vm_compute | by left | by left | by vm_compute |].
  discriminate Heq.
Qed.

(** C2, witness: connection A, registered for topicX and ch, registers
    topicY and ch2, pings, and is tombstoned for topicX. *)
Lemma PeerInfo_shared_witness :
  let w' := (PING clientA [] registeredA).2 in
  last_update w' 0 = 100 /\ last_update w' 1 = 100 /\ last_update w' 2 = 100 /\
  stamped tombstonedA 2 /\ derefProd tombstonedA 1 = derefProd registeredA 1.
Proof.
  destruct (PeerInfo_shared_Producer_per_registration
              canonicalOrder validTopicName validChannelName someOptions
              clientA 0%nat "topicY" "ch2" []
              [("topic", "topicX"); ("node", "A:4151")] "topicX" "A:4151" registeredA)
    as (_ & (_ & _ & Hping) & (_ & _ & Hother & Hhere)).
  - reflexivity.
  - vm_compute. lia.
  - apply allocated_check. vm_compute. reflexivity.
  - vm_compute. reflexivity.
  - vm_compute. reflexivity.
  - discriminate.
  - reflexivity.
  - reflexivity.
  - cbn zeta in *. split; [|split; [|split; [|split]]].
    + rewrite (Hping 0%nat) by reflexivity. vm_compute. reflexivity.
    + rewrite (Hping 1%nat) by reflexivity. vm_compute. reflexivity.
    + rewrite (Hping 2%nat) by reflexivity. vm_compute. reflexivity.
    + apply Hhere; [vm_compute; by left | vm_compute; lia | vm_compute; reflexivity].
    + apply Hother. vm_compute. intros H. inv H. inv H2.
Defined.

(** C5, witness: the two topic producers of [twoNodes], the second
    tombstoned, under a lifetime of 45 and of 0. *)
Lemma FilterByActive_spec_witness :
  (FilterByActive [2; 3]%nat 300 45 twoNodes).1 = [2%nat] /\
  (FilterByActive [2; 3]%nat 300 0 twoNodes).1 = [2; 3]%nat.
Proof.
  split.
  - destruct (FilterByActive_spec 300 45 twoNodes [2; 3]%nat) as (_ & Hstill & _).
    cbn zeta in Hstill. rewrite Hstill.
    + vm_compute. reflexivity.
    + intros m _. reflexivity.
    + apply List.Forall_cons; [|apply List.Forall_cons; [|apply List.Forall_nil]];
        (split; [vm_compute; split; discriminate|]).
      * intros H. vm_compute in H. discriminate H.
      * intros _. vm_compute. split; discriminate.
  - destruct (FilterByActive_spec 300 0 twoNodes [2; 3]%nat) as (_ & _ & Hzero).
    cbn zeta in Hzero. rewrite Hzero.
    + vm_compute. reflexivity.
    + reflexivity.
    + intros p m Hp Ht _.
      apply elem_of_cons in Hp as [->|Hp]; [vm_compute in Ht; discriminate Ht|].
      apply list_elem_of_singleton in Hp. subst p. vm_compute. discriminate.
Defined.

(** The filter at the one instant [now] is not what FilterByActive
    returns on a clock that advances: it reads 120 and, for the
    tombstone of 110, IsTombstoned reads 130.  With a lifetime of 15 the
    producer is currently tombstoned at 120 and is returned all the
    same. *)
Lemma FilterByActive_two_readings :
  (Now lateTombstone).1 = 120 /\
  last_update lateTombstone 1 = 100 /\
  is_tombstoned lateTombstone 1 = true /\ tombstoned_at lateTombstone 1 = 110 /\
  currentlyTombstoned 120 15 lateTombstone 1 /\
  (FilterByActive [1%nat] 300 15 lateTombstone).1 = [1%nat] /\
  filter (active 120 300 15 lateTombstone) [1%nat] = [] /\
  (FilterByActive [1%nat] 300 15 lateTombstone).1 ≠
    filter (active 120 300 15 lateTombstone) [1%nat].
Proof.
  assert (filter (active 120 300 15 lateTombstone) [1%nat] = []) as Hclaim.
  { rewrite filter_cons, filter_nil. rewrite decide_False; [done|].
    intros [_ Hno]. apply Hno. split; [by vm_compute | by vm_compute]. }
  split; [by vm_compute|]. split; [by vm_compute|]. split; [by vm_compute|].
  split; [by vm_compute|]. split; [split; by vm_compute|].
  split; [by vm_compute|]. split; [exact Hclaim|].
  rewrite Hclaim. by vm_compute.
Qed.

(** C7, witness: A leaves the ephemeral channel it alone registered, and
    the plain channel ch. *)
Lemma UNREGISTER_channel_witness :
  registrationMap
    (UNREGISTER canonicalOrder validTopicName validChannelName clientA
       ["tA"; "c1#ephemeral"] ephemeralA).2
    !! {| Category := "channel"; Key := "tA"; SubKey := "c1#ephemeral" |} = None /\
  registrationMap
    (UNREGISTER canonicalOrder validTopicName validChannelName clientA
       ["topicX"; "ch"] registeredA).2
    !! {| Category := "channel"; Key := "topicX"; SubKey := "ch" |} = Some [].
Proof.
  split.
  - destruct (UNREGISTER_channel_spec canonicalOrder validTopicName validChannelName
                clientA 0%nat "tA" "c1#ephemeral" [] ephemeralA)
      as (_ & _ & _ & _ & _ & Hkey);
      [reflexivity | vm_compute; reflexivity | vm_compute; reflexivity | discriminate |].
    specialize (Hkey [1%nat]). cbn zeta in Hkey.
    destruct Hkey as [Hgone _]; [vm_compute; reflexivity|].
    apply Hgone. vm_compute. reflexivity.
  - destruct (UNREGISTER_channel_spec canonicalOrder validTopicName validChannelName
                clientA 0%nat "topicX" "ch" [] registeredA)
      as (_ & _ & _ & _ & _ & Hkey);
      [reflexivity | vm_compute; reflexivity | vm_compute; reflexivity | discriminate |].
    specialize (Hkey [1%nat]). cbn zeta in Hkey.
    rewrite Hkey; [|vm_compute; reflexivity]. vm_compute. reflexivity.
Defined.

(** C9, witness: A unregisters from an ephemeral channel that was
    created without producers. *)
Lemma UNREGISTER_empty_ephemeral_witness :
  registrationMap createdEphemeral
    !! {| Category := "channel"; Key := "tA"; SubKey := "c1#ephemeral" |} = Some [] /\
  registrationMap
    (UNREGISTER canonicalOrder validTopicName validChannelName clientA
       ["tA"; "c1#ephemeral"] createdEphemeral).2
    !! {| Category := "channel"; Key := "tA"; SubKey := "c1#ephemeral" |} = None.
Proof.
  assert (registrationMap createdEphemeral
            !! {| Category := "channel"; Key := "tA"; SubKey := "c1#ephemeral" |} = Some [])
    as Hk by (vm_compute; reflexivity).
  split; [exact Hk|].
  destruct (UNREGISTER_empty_ephemeral canonicalOrder validTopicName validChannelName
              clientA 0%nat "tA" "c1#ephemeral" [] createdEphemeral)
    as (_ & _ & _ & Hgone);
    [reflexivity | vm_compute; reflexivity | vm_compute; reflexivity
    | vm_compute; reflexivity | exact Hk |].
  exact Hgone.
Defined.

(** C10, witness: a connection that has sent nothing. *)
Lemma PING_before_IDENTIFY_witness :
  PING freshClient [] twoNodes = (inr "OK", twoNodes) /\
  (REGISTER validTopicName validChannelName freshClient ["a"] twoNodes).1 =
    inl (FatalClientErr "E_INVALID" "client must IDENTIFY").
Proof.
  destruct (PING_before_IDENTIFY canonicalOrder validTopicName validChannelName
              freshClient [] twoNodes eq_refl) as (Hping & _ & _).
  split; [exact Hping|].
  destruct (PING_before_IDENTIFY canonicalOrder validTopicName validChannelName
              freshClient ["a"] twoNodes eq_refl) as (_ & -> & _).
  reflexivity.
Defined.

(** C8 fails as stated at the topic name "*": the store has no
    ("topic", "*", "") registration, and the answer is 200, with the
    active producers of all the topics. *)
Lemma doLookup_wildcard_found :
  registrationMap twoNodes !! {| Category := "topic"; Key := "*"; SubKey := "" |} = None /\
  (doLookup canonicalOrder someOptions {| query := Some [("topic", "*")] |} twoNodes).1 =
    inr {| channels := []; producers := [0%nat] |} /\
  ¬ (V1_status
       (doLookup canonicalOrder someOptions {| query := Some [("topic", "*")] |} twoNodes).1
       = 404 <->
     registrationMap twoNodes !! {| Category := "topic"; Key := "*"; SubKey := "" |} = None).
Proof.
  split; [by vm_compute|]. split; [by vm_compute|].
  intros [_ H]. assert (200 = 404) as Habs; [|discriminate Habs].
  apply H. by vm_compute.
Qed.

(** C8, witness: topic [b], whose one producer is tombstoned, and a
    topic that is not registered. *)
Lemma doLookup_spec_witness :
  (doLookup canonicalOrder someOptions {| query := Some [("topic", "b")] |} twoNodes).1 =
    inr {| channels := []; producers := [] |} /\
  V1_status
    (doLookup canonicalOrder someOptions {| query := Some [("topic", "zzz")] |} twoNodes).1
    = 404.
Proof.
  split.
  - destruct (doLookup_spec canonicalOrder someOptions [("topic", "b")] "b" twoNodes)
      as (_ & _ & Hsome); [reflexivity | discriminate |].
    destruct (Hsome [3%nat]) as (chans & Heq & _); [vm_compute; reflexivity|].
    vm_compute. reflexivity.
  - destruct (doLookup_spec canonicalOrder someOptions [("topic", "zzz")] "zzz" twoNodes)
      as (H404 & _ & _); [reflexivity | discriminate |].
    apply H404. vm_compute. reflexivity.
Defined.


(** * Further properties of the store *)

(** ** AddRegistration, AddProducer, RemoveProducer *)

(** X1. AddRegistration(k) leaves k registered with the producers it
    had, none when it was absent, and no other key changed; on a key that
    is registered it changes nothing, so a second call is without effect. *)
Theorem AddRegistration_spec (w : World) (k : Registration) :
  let w' := (AddRegistration k w).2 in
  registrationMap w' !! k = Some (default [] (registrationMap w !! k)) /\
  (forall k', k' ≠ k -> registrationMap w' !! k' = registrationMap w !! k') /\
  (is_Some (registrationMap w !! k) -> w' = w) /\
  (AddRegistration k w').2 = w' /\
  peers w' = peers w /\ prods w' = prods w.
Proof.
  unfold AddRegistration, modify. cbn [snd].
  destruct (registrationMap w !! k) as [l|] eqn:Hk.
  - rewrite Hk. by repeat split.
  - cbn. rewrite lookup_insert_eq.
    split; [done|]. split; [intros k' Hne; by rewrite lookup_insert_ne|].
    split; [by intros [? ?]|]. by repeat split.
Qed.

Lemma existsb_id_true (w : World) (id_ : string) (l : list ptr) :
  existsb (fun q => bool_decide (producer_id w q = id_)) l = true <->
  exists q, q ∈ l /\ producer_id w q = id_.
Proof.
  rewrite existsb_exists. split.
  - intros (q & Hq & Hid). exists q. split; [by apply list_elem_of_In|].
    by apply bool_decide_eq_true in Hid.
  - intros (q & Hq & Hid). exists q. split; [by apply list_elem_of_In|].
    by apply bool_decide_eq_true.
Qed.

Lemma AddProducer_again (w : World) (k : Registration) (p : ptr) :
  AddProducer k p (AddProducer k p w).2 = (false, (AddProducer k p w).2).
Proof.
  assert (forall w0, existsb (fun q => bool_decide (producer_id w0 q = producer_id w0 p))
                       (default [] (registrationMap w0 !! k)) = true ->
                     AddProducer k p w0 = (false, w0)) as Hfalse.
  { intros w0 H. unfold AddProducer. by rewrite H. }
  destruct (existsb (fun q => bool_decide (producer_id w q = producer_id w p))
              (default [] (registrationMap w !! k))) eqn:Hfound.
  - rewrite (Hfalse w Hfound). cbn [snd]. by apply Hfalse.
  - assert (AddProducer k p w =
            (true, set_registrationMap
                     (fun m => <[k := default [] (registrationMap w !! k) ++ [p]]> m) w))
      as -> by (unfold AddProducer; by rewrite Hfound).
    cbn [snd]. apply Hfalse.
    cbn [registrationMap set_registrationMap]. rewrite lookup_insert_eq.
    apply existsb_id_true. exists p. split; [|reflexivity].
    apply elem_of_app. right. by left.
Qed.

(** X2. AddProducer(k, p) answers true exactly when no producer listed
    under k has the id of p; it then appends p to the list of k, which it
    creates when k is absent, and otherwise changes nothing.  A second
    call with the same arguments answers false and changes nothing. *)
Theorem AddProducer_spec (w : World) (k : Registration) (p : ptr) :
  let l := default [] (registrationMap w !! k) in
  let run := AddProducer k p w in
  (run.1 = true <-> forall q, q ∈ l -> producer_id w q ≠ producer_id w p) /\
  (run.1 = true -> run.2 = set_registrationMap (fun m => <[k := l ++ [p]]> m) w) /\
  (run.1 = false -> run.2 = w) /\
  AddProducer k p run.2 = (false, run.2).
Proof.
  cbn zeta. split; [|split; [|split; [|apply AddProducer_again]]];
    unfold AddProducer; destruct (existsb _ _) eqn:Hfound; cbn [fst snd negb]; try done.
  - apply existsb_id_true in Hfound as (q & Hq & Hid).
    split; [done|]. intros Hall. by destruct (Hall q Hq).
  - split; [|done]. intros _ q Hq Hid.
    assert (existsb (fun q => bool_decide (producer_id w q = producer_id w p))
              (default [] (registrationMap w !! k)) = true) as Habs; [|congruence].
    apply existsb_id_true. by exists q.
Qed.

(** X3. RemoveProducer(k, id) leaves no producer of that id under k, and
    a second call with the same arguments removes nothing, answers the
    same count and leaves the store as the first call left it. *)
Theorem RemoveProducer_twice (w : World) (k : Registration) (id_ : string) :
  let run := RemoveProducer k id_ w in
  (forall l, registrationMap run.2 !! k = Some l ->
     forall p, p ∈ l -> producer_id run.2 p ≠ id_) /\
  RemoveProducer k id_ run.2 = ((false, run.1.2), run.2).
Proof.
  cbn zeta. rewrite (RemoveProducer_run w k id_).
  destruct (registrationMap w !! k) as [l|] eqn:Hk; cbn [fst snd].
  - split.
    + intros l' Hl' p Hp. cbn in Hl'. rewrite lookup_insert_eq in Hl'.
      injection Hl' as <-. change (producer_id w p ≠ id_).
      by apply list_elem_of_filter in Hp as [Hp _].
    + rewrite RemoveProducer_run. cbn [registrationMap set_registrationMap].
      rewrite lookup_insert_eq. cbn zeta.
      set (cleaned := filter (fun p => producer_id w p ≠ id_) l).
      change (producer_id (set_registrationMap (fun m => <[k:=cleaned]> m) w))
        with (producer_id w).
      assert (filter (fun p => producer_id w p ≠ id_) cleaned = cleaned) as ->.
      { subst cleaned. rewrite list_filter_filter. apply list_filter_iff.
        intros x. tauto. }
      assert (existsb (fun p => bool_decide (producer_id w p = id_)) cleaned = false) as ->.
      { destruct (existsb _ cleaned) eqn:Hex; [|done].
        apply existsb_id_true in Hex as (q & Hq & Hid).
        by apply list_elem_of_filter in Hq as [Hq _]. }
      unfold set_registrationMap. cbn. by rewrite insert_insert_eq.
  - split; [intros l' Hl'; congruence|].
    unfold RemoveProducer. by rewrite Hk.
Qed.

Lemma filter_all {A} (P : A -> Prop) `{forall x, Decision (P x)} (l : list A) :
  (forall x, x ∈ l -> P x) -> filter P l = l.
Proof.
  induction l as [|x l IH]; intros Hall; [done|].
  rewrite filter_cons_True by (apply Hall; by left).
  f_equal. apply IH. intros y Hy. apply Hall. by right.
Qed.

(** X4. AddProducer(k, p) followed by RemoveProducer(k, id of p), when
    no producer of that id was listed under k: the removal answers true
    and the former count, and k holds the list it held before, the empty
    list when k was absent. *)
Theorem AddProducer_RemoveProducer (w : World) (k : Registration) (p : ptr) :
  let l := default [] (registrationMap w !! k) in
  (forall q, q ∈ l -> producer_id w q ≠ producer_id w p) ->
  RemoveProducer k (producer_id w p) (AddProducer k p w).2 =
    ((true, length l), set_registrationMap (fun m => <[k := l]> m) w).
Proof.
  intros l Hfresh. rewrite (AddProducer_fresh k p w Hfresh). cbn [snd].
  rewrite RemoveProducer_run. cbn [registrationMap set_registrationMap].
  rewrite lookup_insert_eq. cbn zeta. fold l.
  change (producer_id (set_registrationMap (fun m => <[k:=l ++ [p]]> m) w))
    with (producer_id w).
  assert (filter (fun q => producer_id w q ≠ producer_id w p) (l ++ [p]) = l) as ->.
  { rewrite filter_app, filter_cons, filter_nil.
    rewrite decide_False by (intros H; by apply H).
    rewrite app_nil_r. by apply filter_all. }
  assert (existsb (fun q => bool_decide (producer_id w q = producer_id w p)) (l ++ [p])
          = true) as ->.
  { apply existsb_id_true. exists p. split; [|done].
    apply elem_of_app. right. by left. }
  unfold set_registrationMap. cbn. by rewrite insert_insert_eq.
Qed.

(** ** FindRegistrations, LookupRegistrations, Filter *)

Lemma range_keys_NoDup (ord : RangeOrder) (m : gmap Registration (list ptr)) :
  NoDup (ord m).*1.
Proof. rewrite (range_perm ord). apply NoDup_fst_map_to_list. Qed.

Lemma range_key_elem (ord : RangeOrder) (m : gmap Registration (list ptr))
    (k : Registration) :
  k ∈ (ord m).*1 <-> is_Some (m !! k).
Proof.
  rewrite list_elem_of_fmap. split.
  - intros ([k' l] & -> & Hin). apply (range_lookup ord) in Hin. by exists l.
  - intros [l Hl]. exists (k, l). split; [done|]. by apply (range_lookup ord).
Qed.

Lemma matches_exact (k : Registration) (category key subkey : string) :
  key ≠ "*" -> subkey ≠ "*" ->
  matches k category key subkey <->
  k = {| Category := category; Key := key; SubKey := subkey |}.
Proof.
  intros Hk Hs. unfold matches. destruct k as [c k' s']. cbn. split.
  - intros (-> & [?| ->] & [?| ->]); done.
  - intros [= -> -> ->]. by repeat split; right.
Qed.

Lemma needFilter_false (key subkey : string) :
  needFilter key subkey = false <-> key ≠ "*" /\ subkey ≠ "*".
Proof.
  unfold needFilter. rewrite orb_false_iff, !bool_decide_eq_false. tauto.
Qed.

(** What [FindRegistrations] returns, in the order of one scan. *)
Lemma FindRegistrations_run (ord : RangeOrder) (w : World) (category key subkey : string) :
  FindRegistrations ord category key subkey w =
  (if needFilter key subkey
   then filter (fun k => matches k category key subkey) (ord (registrationMap w)).*1
   else match registrationMap w !! {| Category := category; Key := key; SubKey := subkey |} with
        | Some _ => [ {| Category := category; Key := key; SubKey := subkey |} ]
        | None => []
        end,
   w).
Proof.
  unfold FindRegistrations, gets. f_equal.
  destruct (needFilter key subkey); cbn [negb]; [|reflexivity].
  by rewrite FindRegistrations_scan.
Qed.

(** The keys that [FindRegistrations] returns. *)
Lemma FindRegistrations_elem (ord : RangeOrder) (w : World)
    (category key subkey : string) :
  let rr := (FindRegistrations ord category key subkey w).1 in
  (FindRegistrations ord category key subkey w).2 = w /\
  NoDup rr /\
  forall k, k ∈ rr <->
    is_Some (registrationMap w !! k) /\ matches k category key subkey.
Proof.
  cbn zeta. rewrite FindRegistrations_run. cbn [fst snd]. split; [reflexivity|].
  destruct (needFilter key subkey) eqn:Hnf.
  - split; [apply NoDup_filter, range_keys_NoDup|].
    intros k. rewrite list_elem_of_filter, range_key_elem. tauto.
  - apply needFilter_false in Hnf as [Hk Hs].
    set (k0 := {| Category := category; Key := key; SubKey := subkey |}).
    destruct (registrationMap w !! k0) as [l|] eqn:Hk0.
    + split; [apply NoDup_singleton|]. intros k.
      rewrite list_elem_of_singleton, (matches_exact k _ _ _ Hk Hs). fold k0. split.
      * intros ->. split; [by exists l | done].
      * by intros [_ ->].
    + split; [constructor|]. intros k.
      rewrite (matches_exact k _ _ _ Hk Hs). fold k0. split.
      * intros Hin. by inv Hin.
      * intros [[l Hl] ->]. congruence.
Qed.

(** X5. FindRegistrations(category, key, subkey) returns, each once, the
    registered keys of that category whose key and subkey are the ones
    asked for or are asked for with "*", and no other; the store is not
    changed. *)
Theorem FindRegistrations_spec (ord : RangeOrder) (w : World)
    (category key subkey : string) :
  let rr := (FindRegistrations ord category key subkey w).1 in
  (FindRegistrations ord category key subkey w).2 = w /\
  NoDup rr /\
  forall k, k ∈ rr <->
    is_Some (registrationMap w !! k) /\ matches k category key subkey.
Proof. apply FindRegistrations_elem. Qed.

Lemma LookupRegistrations_scan (w : World) (id_ : string)
    (kvs : list (Registration * list ptr)) (acc : list Registration) :
  fold_left (fun results kv =>
      if existsb (fun p => bool_decide (producer_id w p = id_)) kv.2
      then results ++ [kv.1] else results) kvs acc =
  acc ++ (filter (fun kv => Exists (fun p => producer_id w p = id_) kv.2) kvs).*1.
Proof.
  revert acc. induction kvs as [|kv kvs IH]; intros acc; cbn [fold_left].
  - by rewrite app_nil_r.
  - rewrite IH, filter_cons.
    destruct (existsb _ kv.2) eqn:Hex.
    + rewrite decide_True by (by apply existsb_id_Exists).
      rewrite fmap_cons. by rewrite <- app_assoc.
    + rewrite decide_False; [done|]. intros Hp.
      apply existsb_id_Exists in Hp. congruence.
Qed.

Lemma LookupRegistrations_keys (ord : RangeOrder) (w : World) (id_ : string) :
  let rr := (LookupRegistrations ord id_ w).1 in
  (LookupRegistrations ord id_ w).2 = w /\
  NoDup rr /\
  forall k, k ∈ rr <->
    exists l p, registrationMap w !! k = Some l /\ p ∈ l /\ producer_id w p = id_.
Proof.
  cbn zeta. unfold LookupRegistrations, gets. cbn [fst snd].
  rewrite LookupRegistrations_scan, app_nil_l. split; [reflexivity|]. split.
  - apply (sublist_NoDup _ ((ord (registrationMap w)).*1)); [apply range_keys_NoDup|].
    apply fmap_sublist, sublist_filter.
  - intros k. rewrite list_elem_of_fmap. split.
    + intros ([k' l] & -> & Hin). apply list_elem_of_filter in Hin as [Hex Hin].
      apply Exists_exists in Hex as (p & Hp & Hid).
      apply (range_lookup ord) in Hin. by exists l, p.
    + intros (l & p & Hl & Hp & Hid). exists (k, l). split; [done|].
      apply list_elem_of_filter. split; [|by apply (range_lookup ord)].
      apply Exists_exists. by exists p.
Qed.

(** X6. LookupRegistrations(id) returns, each once, the keys whose list
    holds a producer of that id, and no other. *)
Theorem LookupRegistrations_spec (ord : RangeOrder) (w : World) (id_ : string) :
  let rr := (LookupRegistrations ord id_ w).1 in
  (LookupRegistrations ord id_ w).2 = w /\
  NoDup rr /\
  forall k, k ∈ rr <->
    exists l p, registrationMap w !! k = Some l /\ p ∈ l /\ producer_id w p = id_.
Proof. apply LookupRegistrations_keys. Qed.

Lemma Filter_loop (rr acc : list Registration) (category key subkey : string) :
  fold_left (fun output k =>
      if IsMatch k category key subkey then output ++ [k] else output) rr acc =
  acc ++ filter (fun k => matches k category key subkey) rr.
Proof.
  revert acc. induction rr as [|k rr IH]; intros acc; cbn [fold_left].
  - by rewrite app_nil_r.
  - rewrite IH, filter_cons.
    destruct (IsMatch k category key subkey) eqn:Hm.
    + rewrite decide_True by (by apply IsMatch_matches). by rewrite <- app_assoc.
    + rewrite decide_False; [done|]. rewrite <- IsMatch_matches. congruence.
Qed.

Lemma Filter_filter (rr : list Registration) (category key subkey : string) :
  Filter rr category key subkey = filter (fun k => matches k category key subkey) rr.
Proof. unfold Filter. by rewrite Filter_loop. Qed.

(** X7. Filtering the registrations of a whole category down to a key
    and a subkey keeps the order of the list it is given and holds the
    keys that FindRegistrations gives for that query, each once; the two
    scans of the map may run in different orders, so that the lists
    agree up to their order, and are equal for a query without a
    wildcard, which finds one key at most. *)
Theorem Filter_FindRegistrations (ord1 ord2 : RangeOrder) (w : World)
    (category key subkey : string) :
  let all := (FindRegistrations ord1 category "*" "*" w).1 in
  let found := (FindRegistrations ord2 category key subkey w).1 in
  Filter all category key subkey `sublist_of` all /\
  Filter all category key subkey ≡ₚ found /\
  (needFilter key subkey = false -> Filter all category key subkey = found).
Proof.
  cbn zeta. rewrite Filter_filter.
  destruct (FindRegistrations_elem ord1 w category "*" "*") as (_ & Hnd1 & Hin1).
  destruct (FindRegistrations_elem ord2 w category key subkey) as (_ & Hnd2 & Hin2).
  cbn zeta in *.
  set (all := (FindRegistrations ord1 category "*" "*" w).1) in *.
  assert (filter (fun k => matches k category key subkey) all ≡ₚ
          (FindRegistrations ord2 category key subkey w).1) as Hperm.
  { apply NoDup_Permutation; [by apply NoDup_filter | exact Hnd2 |].
    intros k. rewrite list_elem_of_filter, Hin1, Hin2. unfold matches. intuition. }
  split; [apply sublist_filter|]. split; [exact Hperm|].
  intros Hnf. rewrite FindRegistrations_run, Hnf in Hperm |- *. cbn [fst] in *.
  destruct (registrationMap w !! _).
  - by apply Permutation_singleton_r.
  - by apply Permutation_nil_r.
Qed.

(** ** FilterByActive, Tombstone and PING *)

Lemma FilterByActive_step_sublist (now : Time) (it lt : Duration)
    (results : list ptr) (p : ptr) (w : World) :
  exists r, (FilterByActive_step now it lt results p w).1 = results ++ r /\
            r `sublist_of` [p].
Proof.
  unfold FilterByActive_step, bind, gets. cbn -[IsTombstoned].
  destruct (it <? _).
  - exists []. split; [by rewrite app_nil_r | apply sublist_nil_l].
  - destruct (IsTombstoned p lt w) as [dead w']. destruct dead; cbn.
    + exists []. split; [by rewrite app_nil_r | apply sublist_nil_l].
    + by exists [p].
Qed.

Lemma FilterByActive_loop_sublist (now : Time) (it lt : Duration) (pp : list ptr) :
  forall (results : list ptr) (w : World),
  exists r, (forM pp (FilterByActive_step now it lt) results w).1 = results ++ r /\
            r `sublist_of` pp.
Proof.
  induction pp as [|p pp IH]; intros results w; cbn [forM].
  - exists []. split; [by rewrite app_nil_r | done].
  - unfold bind.
    destruct (FilterByActive_step_sublist now it lt results p w) as (r1 & Hr1 & Hs1).
    destruct (FilterByActive_step now it lt results p w) as [results' w'].
    cbn [fst] in Hr1. subst results'.
    destruct (IH (results ++ r1) w') as (r2 & Hr2 & Hs2).
    exists (r1 ++ r2). split; [by rewrite Hr2, app_assoc|].
    by apply (sublist_app r1 [p] r2 pp).
Qed.

(** X8. Whatever the clock does, FilterByActive returns producers of its
    argument only, in the order of the argument, and changes nothing in
    the state but the count of clock readings. *)
Theorem FilterByActive_sublist (pp : list ptr) (inactivityTimeout tombstoneLifetime : Duration)
    (w : World) :
  (FilterByActive pp inactivityTimeout tombstoneLifetime w).1 `sublist_of` pp /\
  steady w (FilterByActive pp inactivityTimeout tombstoneLifetime w).2.
Proof.
  split; [|apply FilterByActive_steady].
  unfold FilterByActive, bind. destruct (Now w) as [now w1].
  destruct (FilterByActive_loop_sublist now inactivityTimeout tombstoneLifetime pp [] w1)
    as (r & -> & Hs). exact Hs.
Qed.

Lemma steady_timely (now : Time) (w w' : World) (p : ptr) :
  steady w w' -> timely now w p -> timely now w' p.
Proof.
  intros Hs. unfold timely, last_update, is_tombstoned, tombstoned_at.
  by rewrite (steady_derefProd _ _ p Hs), (steady_derefPeer _ _ _ Hs).
Qed.

Lemma steady_active (now : Time) (it lt : Duration) (w w' : World) (p : ptr) :
  steady w w' -> active now it lt w' p <-> active now it lt w p.
Proof.
  intros Hs. unfold active, currentlyTombstoned, last_update, is_tombstoned, tombstoned_at.
  by rewrite (steady_derefProd _ _ p Hs), (steady_derefPeer _ _ _ Hs).
Qed.

(** X9. With the clock standing at [now] and every time stamp within a
    Duration of it, FilterByActive applied to its own result, with the
    same durations, returns that result. *)
Theorem FilterByActive_idempotent (now : Time) (inactivityTimeout tombstoneLifetime : Duration)
    (w : World) (pp : list ptr) :
  frozenAt now w ->
  Forall (timely now w) pp ->
  let run := FilterByActive pp inactivityTimeout tombstoneLifetime w in
  (FilterByActive run.1 inactivityTimeout tombstoneLifetime run.2).1 = run.1.
Proof.
  intros Hf Hall. cbn zeta.
  destruct (FilterByActive_frozen now inactivityTimeout tombstoneLifetime w pp Hf Hall)
    as [Hv Hs].
  destruct (FilterByActive pp inactivityTimeout tombstoneLifetime w) as [act w'].
  cbn [fst snd] in *. subst act.
  destruct (FilterByActive_frozen now inactivityTimeout tombstoneLifetime w'
              (filter (active now inactivityTimeout tombstoneLifetime w) pp)) as [Hv' _].
  - by apply (steady_frozenAt now w w').
  - apply Forall_forall. intros p Hp. apply list_elem_of_filter in Hp as [_ Hp].
    apply (steady_timely now w w' p Hs). by apply (proj1 (Forall_forall _ _) Hall).
  - rewrite Hv'. apply filter_all. intros p Hp.
    apply list_elem_of_filter in Hp as [Hp _]. by apply (steady_active _ _ _ w w' p Hs).
Qed.

(** X10. A producer that was just made is not tombstoned, whatever the
    lifetime, and the test does not read the clock.  Once Tombstone was
    called on a producer of the heap, IsTombstoned(lifetime) answers
    whether the time between the two clock readings is below the
    lifetime; so it answers false for a lifetime of zero or less when
    the clock does not run backwards. *)
Theorem Tombstone_IsTombstoned (w : World) (a p : ptr) (lifetime : Duration) :
  IsTombstoned (newProducer a w).1 lifetime (newProducer a w).2 =
    (false, (newProducer a w).2) /\
  ((p < length (prods w))%nat ->
   let t0 := reading (clock w) (tick (clock w)) in
   let t1 := reading (clock w) (S (tick (clock w))) in
   (IsTombstoned p lifetime (Tombstone p w).2).1 = (Sub t1 t0 <? lifetime) /\
   (lifetime <= 0 -> t0 <= t1 ->
    (IsTombstoned p lifetime (Tombstone p w).2).1 = false)).
Proof.
  split.
  - unfold newProducer, IsTombstoned, bind, gets, derefProd. cbn.
    rewrite lookup_app_r by lia. by rewrite Nat.sub_diag.
  - intros Hp. cbn zeta.
    assert ((IsTombstoned p lifetime (Tombstone p w).2).1 =
            (Sub (reading (clock w) (S (tick (clock w))))
                 (reading (clock w) (tick (clock w))) <? lifetime)) as Hrun.
    { unfold IsTombstoned, Tombstone, bind, gets, modify, Now, ret, derefProd. cbn.
      rewrite list_lookup_insert_eq by done. cbn.
      by rewrite list_lookup_insert_eq by done. }
    split; [exact Hrun|]. intros Hlt Hmono. rewrite Hrun.
    apply Z.ltb_ge. unfold Sub, maxDuration, minDuration.
    repeat case_match; lia.
Qed.

Lemma wrap64_id (x : Z) : isDuration x -> wrap64 x = x.
Proof.
  unfold isDuration, minDuration, maxDuration, wrap64. intros [Hlo Hhi].
  rewrite Z.mod_small; lia.
Qed.

(** X11. PING on an identified connection answers OK, stores the
    reading of the clock that it takes, as UnixNano, in lastUpdate of
    the PeerInfo of the connection, and changes no other field, no other
    PeerInfo, no producer and no registration.  A producer of the
    connection that bears no tombstone then passes FilterByActive
    exactly when the clock, read again by FilterByActive, is no more
    than inactivityTimeout past the stored instant, as time.Sub has
    it. *)
Theorem PING_heartbeat (client : ClientV1) (a : ptr) (params : list string) (w : World) :
  client_peerInfo client = Some a ->
  (a < length (peers w))%nat ->
  let t0 := reading (clock w) (tick (clock w)) in
  let t1 := reading (clock w) (S (tick (clock w))) in
  let run := PING client params w in
  let old := derefPeer w a in
  run.1 = inr "OK" /\
  prods run.2 = prods w /\ registrationMap run.2 = registrationMap w /\
  (forall b, b ≠ a -> derefPeer run.2 b = derefPeer w b) /\
  derefPeer run.2 a =
    {| lastUpdate := UnixNano t0; id := id old; RemoteAddress := RemoteAddress old;
       Hostname := Hostname old; BroadcastAddress := BroadcastAddress old;
       TCPPort := TCPPort old; HTTPPort := HTTPPort old; Version := Version old |} /\
  (forall p inactivityTimeout tombstoneLifetime,
     peerInfo (derefProd w p) = a -> is_tombstoned w p = false ->
     (FilterByActive [p] inactivityTimeout tombstoneLifetime run.2).1 =
       if inactivityTimeout <? Sub t1 (UnixNano t0) then [] else [p]).
Proof.
  intros Ha Hlt. cbn zeta. unfold PING. rewrite Ha.
  unfold bind, gets, Now, StoreLastUpdate, modify, ret. cbn [fst snd].
  match goal with |- context [set_peers ?f ?w0] => set (w' := set_peers f w0) end.
  assert (derefPeer w' a =
    {| lastUpdate := UnixNano (reading (clock w) (tick (clock w)));
       id := id (derefPeer w a);
       RemoteAddress := RemoteAddress (derefPeer w a);
       Hostname := Hostname (derefPeer w a);
       BroadcastAddress := BroadcastAddress (derefPeer w a);
       TCPPort := TCPPort (derefPeer w a); HTTPPort := HTTPPort (derefPeer w a);
       Version := Version (derefPeer w a) |}) as Hnew.
  { unfold derefPeer at 1. subst w'. cbn. by rewrite list_lookup_insert_eq. }
  split; [reflexivity|]. split; [reflexivity|]. split; [reflexivity|].
  split; [|split; [exact Hnew|]].
  - intros b Hb. unfold derefPeer. subst w'. cbn. by rewrite list_lookup_insert_ne.
  - intros p it lt Hp Htomb.
    destruct (FilterByActive_step_readings
                (reading (clock w) (S (tick (clock w)))) it lt
                (set_clock {| reading := reading (clock w'); tick := S (tick (clock w')) |} w')
                [] p) as (Hv & _ & _).
    cbn zeta in Hv.
    unfold FilterByActive, bind.
    change (Now w') with
      (reading (clock w) (S (tick (clock w))),
       set_clock {| reading := reading (clock w'); tick := S (tick (clock w')) |} w').
    cbv iota beta. cbn [forM]. unfold bind.
    destruct (FilterByActive_step _ it lt [] p _) as [results w2]. cbn [fst snd] in *.
    subst results. unfold ret. cbn [fst app]. rewrite filter_cons, filter_nil.
    assert (last_update w' p = UnixNano (reading (clock w) (tick (clock w)))) as Hlu.
    { unfold last_update. change (derefProd w' p) with (derefProd w p).
      by rewrite Hp, Hnew. }
    destruct (Z.ltb_spec it (Sub (reading (clock w) (S (tick (clock w))))
                               (UnixNano (reading (clock w) (tick (clock w))))))
      as [Hlate|Hfresh].
    + rewrite decide_False; [done|]. unfold activeAt. cbn [fst snd].
      change (last_update (set_clock _ w') p) with (last_update w' p).
      rewrite Hlu. lia.
    + rewrite decide_True; [done|]. unfold activeAt. cbn [fst snd].
      change (last_update (set_clock _ w') p) with (last_update w' p).
      rewrite Hlu. split; [lia|]. intros [Ht _].
      change (is_tombstoned (set_clock _ w') p) with (is_tombstoned w p) in Ht.
      congruence.
Qed.

(** * Further properties of the protocol *)

(** ** Removing a client from many registrations *)

Lemma RemoveProducer_lookup (w : World) (k k' : Registration) (id_ : string) :
  registrationMap (RemoveProducer k id_ w).2 !! k' =
  if decide (k' = k)
  then filter (fun p => producer_id w p ≠ id_) <$> registrationMap w !! k'
  else registrationMap w !! k'.
Proof.
  rewrite RemoveProducer_run.
  destruct (registrationMap w !! k) as [l|] eqn:Hk; cbn.
  - destruct (decide (k' = k)) as [->|Hne].
    + by rewrite lookup_insert_eq, Hk.
    + by rewrite lookup_insert_ne.
  - destruct (decide (k' = k)) as [->|Hne]; [by rewrite Hk | done].
Qed.

Lemma RemoveProducer_frame (w : World) (k : Registration) (id_ : string) :
  peers (RemoveProducer k id_ w).2 = peers w /\
  prods (RemoveProducer k id_ w).2 = prods w /\
  clock (RemoveProducer k id_ w).2 = clock w.
Proof. unfold RemoveProducer. by destruct (registrationMap w !! k). Qed.

(** The loop that UNREGISTER and the end of IOLoop share: the producers
    of the id of [a] leave the lists of the keys [ks], and nothing else
    changes. *)
Lemma removeFromAll (a : ptr) (ks : list Registration) (w : World) :
  let w' := (forM ks (fun _ r =>
               cid <- peer_id a ;; _ <- RemoveProducer r cid ;; ret tt) tt w).2 in
  peers w' = peers w /\ prods w' = prods w /\ clock w' = clock w /\
  forall k, registrationMap w' !! k =
    if decide (k ∈ ks)
    then filter (fun p => producer_id w p ≠ id (derefPeer w a)) <$> registrationMap w !! k
    else registrationMap w !! k.
Proof.
  revert w. induction ks as [|r ks IH]; intros w.
  - cbn. do 3 (split; [reflexivity|]). intros k.
    by rewrite decide_False by (intros H; inv H).
  - cbn zeta.
    set (w1 := (RemoveProducer r (id (derefPeer w a)) w).2).
    assert ((forM (r :: ks) (fun _ r =>
               cid <- peer_id a ;; _ <- RemoveProducer r cid ;; ret tt) tt w).2 =
            (forM ks (fun _ r =>
               cid <- peer_id a ;; _ <- RemoveProducer r cid ;; ret tt) tt w1).2) as ->.
    { cbn [forM]. unfold bind at 1. unfold bind at 1. unfold peer_id at 1, gets at 1.
      cbn [fst snd]. unfold bind at 1, ret at 1.
      subst w1. by destruct (RemoveProducer r (id (derefPeer w a)) w) as [rl w1]. }
    destruct (RemoveProducer_frame w r (id (derefPeer w a))) as (Hpe & Hpr & Hcl).
    fold w1 in Hpe, Hpr, Hcl.
    destruct (IH w1) as (Hpe' & Hpr' & Hcl' & Hm'). cbn zeta in *.
    split; [by rewrite Hpe'|]. split; [by rewrite Hpr'|]. split; [by rewrite Hcl'|].
    intros k. rewrite Hm'.
    assert (producer_id w1 = producer_id w) as Hid.
    { unfold producer_id, derefPeer, derefProd. by rewrite Hpe, Hpr. }
    assert (derefPeer w1 a = derefPeer w a) as Ha by (unfold derefPeer; by rewrite Hpe).
    rewrite Hid, Ha. subst w1. rewrite RemoveProducer_lookup.
    destruct (decide (k = r)) as [->|Hne];
      destruct (decide (_ ∈ ks)) as [Hks|Hks];
      destruct (decide (_ ∈ r :: ks)) as [Hrk|Hrk];
      try done;
      try (exfalso; apply Hrk; by (left || right));
      try (exfalso; apply elem_of_cons in Hrk as [?|?]; done).
    destruct (registrationMap w !! r) as [l|]; [|done]. cbn.
    f_equal. rewrite list_filter_filter. apply list_filter_iff. tauto.
Qed.

(** ** The end of a connection *)

(** X12. The end of IOLoop, for a connection that identified: every
    list of the store loses the producers of the connection's id and no
    other producer, every key stays registered, the heaps are untouched,
    and LookupRegistrations then finds nothing for that id.  For a
    connection that did not identify nothing changes. *)
Theorem IOLoop_cleanup_spec (ord : RangeOrder) (client : ClientV1) (w : World) :
  let w' := (IOLoop_cleanup ord client w).2 in
  match client_peerInfo client with
  | None => w' = w
  | Some a =>
      let cid := id (derefPeer w a) in
      peers w' = peers w /\ prods w' = prods w /\ clock w' = clock w /\
      registrationMap w' =
        (filter (fun p => producer_id w p ≠ cid)) <$> registrationMap w /\
      dom (registrationMap w') = dom (registrationMap w) /\
      (LookupRegistrations ord cid w').1 = []
  end.
Proof.
  intros w'.
  destruct (client_peerInfo client) as [a|] eqn:Ha;
    [|subst w'; unfold IOLoop_cleanup; by rewrite Ha].
  destruct (LookupRegistrations_keys ord w (id (derefPeer w a))) as (Hw & _ & Hrr).
  assert (w' = (forM (LookupRegistrations ord (id (derefPeer w a)) w).1
                  (fun _ r => cid <- peer_id a ;; _ <- RemoveProducer r cid ;; ret tt)
                  tt w).2) as Hrun.
  { subst w'. unfold IOLoop_cleanup. rewrite Ha.
    unfold bind at 1. unfold peer_id at 1, gets at 1. cbn [fst snd]. unfold bind at 1.
    destruct (LookupRegistrations ord (id (derefPeer w a)) w) as [rr w0].
    cbn [fst snd] in *. by subst w0. }
  clearbody w'. subst w'. cbn zeta.
  set (rr := (LookupRegistrations ord (id (derefPeer w a)) w).1) in *.
  destruct (removeFromAll a rr w) as (Hpe & Hpr & Hcl & Hm). cbn zeta in Hpe, Hpr, Hcl, Hm.
  set (w' := (forM rr _ tt w).2) in *.
  assert (registrationMap w' =
          (filter (fun p => producer_id w p ≠ id (derefPeer w a))) <$> registrationMap w)
    as Hmap.
  { apply map_eq. intros k. rewrite Hm, lookup_fmap.
    destruct (decide (k ∈ rr)) as [Hin|Hnin]; [done|].
    destruct (registrationMap w !! k) as [l|] eqn:Hk; [|done]. cbn. f_equal.
    symmetry. apply filter_all. intros p Hp Hid. apply Hnin, Hrr. by exists l, p. }
  split; [exact Hpe|]. split; [exact Hpr|]. split; [exact Hcl|]. split; [exact Hmap|].
  split; [by rewrite Hmap, dom_fmap_L|].
  destruct (LookupRegistrations_keys ord w' (id (derefPeer w a))) as (_ & _ & Hrr').
  destruct ((LookupRegistrations ord (id (derefPeer w a)) w').1) as [|k rest]; [done|].
  exfalso. destruct (proj1 (Hrr' k)) as (l & p & Hl & Hp & Hid); [by left|].
  rewrite Hmap, lookup_fmap in Hl.
  destruct (registrationMap w !! k) as [l0|]; [|done]. cbn in Hl. injection Hl as <-.
  apply list_elem_of_filter in Hp as [Hne _]. apply Hne.
  rewrite <- Hid. unfold producer_id, derefPeer, derefProd. by rewrite Hpe, Hpr.
Qed.

(** X13. UNREGISTER with a topic and no channel, from an identified
    connection: the answer is OK; the producers of the connection's id
    leave the list of the topic and the lists of all the channels of the
    topic; no other list changes and no key is removed, an ephemeral
    channel that is left empty included. *)
Theorem UNREGISTER_topic_spec (ord : RangeOrder)
    (IsValidTopicName IsValidChannelName : string -> bool)
    (client : ClientV1) (a : ptr) (params : list string) (topic : string) (w : World) :
  client_peerInfo client = Some a ->
  getTopicChan IsValidTopicName IsValidChannelName "UNREGISTER" params = inr (topic, "") ->
  let run := UNREGISTER ord IsValidTopicName IsValidChannelName client params w in
  let cid := id (derefPeer w a) in
  run.1 = inr "OK" /\
  peers run.2 = peers w /\ prods run.2 = prods w /\
  dom (registrationMap run.2) = dom (registrationMap w) /\
  forall k, registrationMap run.2 !! k =
    if decide (k = {| Category := "topic"; Key := topic; SubKey := "" |} \/
               matches k "channel" topic "*")
    then filter (fun p => producer_id w p ≠ cid) <$> registrationMap w !! k
    else registrationMap w !! k.
Proof.
  intros Ha Hgtc run.
  set (topicKey := {| Category := "topic"; Key := topic; SubKey := "" |}).
  set (rr := filter (fun k => matches k "channel" topic "*") (ord (registrationMap w)).*1).
  set (w1 := (forM rr (fun _ r =>
                cid <- peer_id a ;; _ <- RemoveProducer r cid ;; ret tt) tt w).2).
  assert (run = (inr "OK", (RemoveProducer topicKey (id (derefPeer w1 a)) w1).2)) as Hrun.
  { subst run. unfold UNREGISTER. rewrite Ha, Hgtc.
    rewrite bool_decide_eq_false_2 by (intros H; by apply H).
    unfold bind at 1. unfold bind at 1.
    rewrite FindRegistrations_run.
    assert (needFilter topic "*" = true) as ->.
    { unfold needFilter. cbn. by rewrite orb_true_r. }
    fold rr. unfold bind at 1. subst w1.
    destruct (forM rr _ tt w) as [[] w1]. cbn [fst snd].
    unfold bind, peer_id, gets, ret. cbn [fst snd]. fold topicKey.
    by destruct (RemoveProducer topicKey (id (derefPeer w1 a)) w1) as [rl w2]. }
  clearbody run. subst run. cbn zeta. cbn [fst snd].
  destruct (removeFromAll a rr w) as (Hpe & Hpr & Hcl & Hm). cbn zeta in Hpe, Hpr, Hcl, Hm.
  fold w1 in Hpe, Hpr, Hcl, Hm.
  destruct (RemoveProducer_frame w1 topicKey (id (derefPeer w1 a))) as (Hpe2 & Hpr2 & _).
  pose proof (fun k => RemoveProducer_lookup w1 topicKey k (id (derefPeer w1 a))) as Hm2.
  set (w2 := (RemoveProducer topicKey (id (derefPeer w1 a)) w1).2) in *.
  assert (producer_id w1 = producer_id w) as Hid.
  { unfold producer_id, derefPeer, derefProd. by rewrite Hpe, Hpr. }
  assert (derefPeer w1 a = derefPeer w a) as Hda by (unfold derefPeer; by rewrite Hpe).
  rewrite Hid, Hda in Hm2.
  assert (forall k, registrationMap w2 !! k =
            if decide (k = topicKey \/ matches k "channel" topic "*")
            then filter (fun p => producer_id w p ≠ id (derefPeer w a)) <$>
                   registrationMap w !! k
            else registrationMap w !! k) as Hall.
  { intros k. rewrite Hm2, Hm.
    assert (forall k, k ∈ rr <->
              is_Some (registrationMap w !! k) /\ matches k "channel" topic "*") as Hrr.
    { intros k0. subst rr. rewrite list_elem_of_filter, range_key_elem. tauto. }
    assert (topicKey ∉ rr) as Htk.
    { intros Hin. apply Hrr in Hin as [_ (Hc & _)]. discriminate Hc. }
    destruct (decide (k = topicKey)) as [->|Hne].
    - rewrite decide_False by done. by rewrite decide_True by (by left).
    - destruct (decide (k ∈ rr)) as [Hin|Hnin].
      + rewrite decide_True; [done|]. right. by apply Hrr.
      + destruct (decide (k = topicKey \/ matches k "channel" topic "*"))
          as [[?|Hmk]|Hno]; [done| |done].
        destruct (registrationMap w !! k) as [l|] eqn:Hk; [|done].
        exfalso. apply Hnin, Hrr. split; [by eexists | done]. }
  split; [reflexivity|]. split; [by rewrite Hpe2|]. split; [by rewrite Hpr2|].
  split; [|exact Hall].
  apply set_eq. intros k. rewrite !elem_of_dom, Hall.
  destruct (decide _); [|done]. by rewrite fmap_is_Some.
Qed.

(** ** REGISTER *)

Lemma registerOne_spec (a : ptr) (k : Registration) (w : World) :
  (a < length (peers w))%nat -> wellFormed w ->
  let w1 := registerOne a k w in
  let cid := id (derefPeer w a) in
  let l := default [] (registrationMap w !! k) in
  wellFormed w1 /\
  peers w1 = peers w /\ prods w1 = prods w ++ [freshProducer a] /\ clock w1 = clock w /\
  (forall q, (q < length (prods w))%nat -> producer_id w1 q = producer_id w q) /\
  (forall k', k' ≠ k -> registrationMap w1 !! k' = registrationMap w !! k') /\
  (exists l1, registrationMap w1 !! k = Some l1 /\ l `prefix_of` l1 /\
              cid ∈ producer_id w1 <$> l1 /\
              (forall q, q ∈ l1 -> q ∈ l \/ producer_id w1 q = cid)) /\
  (cid ∈ producer_id w <$> l -> registrationMap w1 = registrationMap w) /\
  (uniqueIds w -> uniqueIds w1).
Proof.
  intros Ha Hw. cbn zeta.
  destruct (register_one_wellFormed a k w Ha Hw) as [Hw1 Hpe]. cbn zeta in *.
  fold (registerOne a k w) in Hw1, Hpe.
  set (w0 := set_prods (fun h => h ++ [freshProducer a]) w).
  assert (prods (registerOne a k w) = prods w ++ [freshProducer a]) as Hpr.
  { unfold registerOne. fold w0.
    by destruct (AddProducer_heaps k (length (prods w)) w0) as [_ ->]. }
  assert (clock (registerOne a k w) = clock w) as Hcl.
  { unfold registerOne, AddProducer. by destruct (existsb _ _). }
  assert (forall q, (q < length (prods w))%nat ->
            producer_id (registerOne a k w) q = producer_id w q) as Hold.
  { intros q Hq. by apply (producer_id_grown w _ [freshProducer a]). }
  assert (forall q, (q < length (prods w))%nat -> producer_id w0 q = producer_id w q)
    as Hold0.
  { intros q Hq. by apply (producer_id_grown w w0 [freshProducer a]). }
  assert (producer_id w0 (length (prods w)) = id (derefPeer w a)) as Hnew0.
  { unfold producer_id, derefProd. subst w0. cbn.
    rewrite lookup_app_r by lia. by rewrite Nat.sub_diag. }
  assert (producer_id (registerOne a k w) (length (prods w)) = id (derefPeer w a)) as Hnew.
  { unfold producer_id, derefProd, derefPeer. rewrite Hpr, Hpe.
    rewrite lookup_app_r by lia. by rewrite Nat.sub_diag. }
  destruct Hw as [Hal Hpi].
  assert (forall q, q ∈ default [] (registrationMap w !! k) -> (q < length (prods w))%nat)
    as Hin.
  { intros q Hq. destruct (registrationMap w !! k) as [l|] eqn:Hk; [|by inv Hq].
    by apply (Hal k l). }
  split; [exact Hw1|]. split; [exact Hpe|]. split; [exact Hpr|]. split; [exact Hcl|].
  split; [exact Hold|].
  split; [intros k' Hne; unfold registerOne; by rewrite AddProducer_lookup_ne|].
  assert (uniqueIds w -> uniqueIds w0) as Hu0.
  { intros Hu k' l Hk'. change (registrationMap w0) with (registrationMap w) in Hk'.
    rewrite (list_fmap_ext (producer_id w0) (producer_id w) l); [by eapply Hu|].
    intros i q Hq. apply Hold0. apply (Hal k' l q Hk'). by eapply list_elem_of_lookup_2. }
  destruct (existsb (fun q => bool_decide (producer_id w0 q = producer_id w0 (length (prods w))))
              (default [] (registrationMap w0 !! k))) eqn:Hfound.
  - (* the id is listed already *)
    assert (registerOne a k w = w0) as Hrun.
    { unfold registerOne, AddProducer. fold w0. by rewrite Hfound. }
    apply existsb_id_true in Hfound as (q & Hq & Hid).
    change (registrationMap w0) with (registrationMap w) in Hq.
    rewrite Hnew0 in Hid. rewrite (Hold0 q (Hin q Hq)) in Hid.
    assert (exists l, registrationMap w !! k = Some l) as [l Hk].
    { destruct (registrationMap w !! k) as [l|]; [by eexists | by inv Hq]. }
    rewrite Hk in Hq, Hin |- *. cbn [default] in *.
    split; [|split].
    + exists l. rewrite Hrun. split; [exact Hk|]. split; [done|]. split.
      * apply list_elem_of_fmap. exists q. split; [|done].
        rewrite <- Hrun, (Hold q (Hin q Hq)). by rewrite Hid.
      * intros q' ?. by left.
    + intros _. by rewrite Hrun.
    + intros Hu. rewrite Hrun. by apply Hu0.
  - (* the producer is appended *)
    assert (registerOne a k w =
            set_registrationMap
              (fun m => <[k := default [] (registrationMap w !! k) ++ [length (prods w)]]> m)
              w0) as Hrun.
    { unfold registerOne, AddProducer. fold w0. by rewrite Hfound. }
    assert (id (derefPeer w a) ∉ producer_id w <$> default [] (registrationMap w !! k))
      as Hnot.
    { intros Hmem. apply list_elem_of_fmap in Hmem as (q & Hid & Hq).
      assert (existsb (fun q => bool_decide
                         (producer_id w0 q = producer_id w0 (length (prods w))))
                (default [] (registrationMap w0 !! k)) = true) as Habs; [|congruence].
      apply existsb_id_true. exists q. split; [exact Hq|].
      by rewrite Hnew0, (Hold0 q (Hin q Hq)). }
    split; [|split].
    + eexists. rewrite Hrun at 1. cbn [registrationMap set_registrationMap].
      rewrite lookup_insert_eq. split; [reflexivity|].
      split; [by apply prefix_app_r|]. split.
      * apply list_elem_of_fmap. exists (length (prods w)). split; [by rewrite Hnew|].
        apply elem_of_app. right. by left.
      * intros q Hq. apply elem_of_app in Hq as [Hq|Hq]; [by left|].
        apply list_elem_of_singleton in Hq. subst q. by right.
    + intros Hmem. by destruct Hnot.
    + intros Hu. unfold registerOne. apply AddProducer_uniqueIds. by apply Hu0.
Qed.

Lemma wellFormed_check (w : World) :
  forallb (fun kv => forallb (fun p => p <? length (prods w))%nat kv.2)
    (map_to_list (registrationMap w)) = true ->
  forallb (fun pr => peerInfo pr <? length (peers w))%nat (prods w) = true ->
  wellFormed w.
Proof.
  intros Hall Hpi. split.
  - intros k l p Hk Hp.
    apply elem_of_map_to_list, list_elem_of_In in Hk.
    rewrite forallb_forall in Hall. specialize (Hall _ Hk). cbn in Hall.
    rewrite forallb_forall in Hall. apply list_elem_of_In in Hp.
    by apply Nat.ltb_lt, Hall.
  - intros p pr Hp. rewrite forallb_forall in Hpi.
    apply Nat.ltb_lt, Hpi, list_elem_of_In. by eapply list_elem_of_lookup_2.
Qed.

Section RegisterFacts.
Context (ord : RangeOrder).
Context (IsValidTopicName IsValidChannelName : string -> bool).

(** The states REGISTER goes through, with or without a channel. *)
Lemma REGISTER_steps (client : ClientV1) (a : ptr) (topic channel : string)
    (params : list string) (w : World) :
  client_peerInfo client = Some a ->
  getTopicChan IsValidTopicName IsValidChannelName "REGISTER" params = inr (topic, channel) ->
  REGISTER IsValidTopicName IsValidChannelName client params w =
    (inr "OK",
     registerOne a {| Category := "topic"; Key := topic; SubKey := "" |}
       (if bool_decide (channel ≠ "")
        then registerOne a {| Category := "channel"; Key := topic; SubKey := channel |} w
        else w)).
Proof.
  intros Ha Hg. unfold REGISTER. rewrite Ha, Hg. unfold registerOne.
  destruct (bool_decide (channel ≠ "")).
  - unfold bind, newProducer, ret. cbn [fst snd]. fold (freshProducer a).
    destruct (AddProducer _ (length (prods w)) _) as [b2 w2]. cbn [snd].
    by destruct (AddProducer _ (length (prods w2)) _) as [b4 w4].
  - unfold bind, newProducer, ret. cbn [fst snd]. fold (freshProducer a).
    by destruct (AddProducer _ (length (prods w)) _) as [b2 w2].
Qed.

(** X14. REGISTER with valid names, from an identified client: the
    answer is OK; the client is listed under ("topic", topic, "") and,
    when a channel is given, under ("channel", topic, channel); every
    registration keeps the producers it had, in their order and with
    their ids, and gains at most producers of the client's id; the keys
    other than these two are as before, and so are the PeerInfos and the
    clock. *)
Theorem REGISTER_spec (client : ClientV1) (a : ptr) (topic channel : string)
    (params : list string) (w : World) :
  client_peerInfo client = Some a ->
  (a < length (peers w))%nat -> wellFormed w ->
  getTopicChan IsValidTopicName IsValidChannelName "REGISTER" params = inr (topic, channel) ->
  let topicKey := {| Category := "topic"; Key := topic; SubKey := "" |} in
  let chanKey := {| Category := "channel"; Key := topic; SubKey := channel |} in
  let cid := id (derefPeer w a) in
  let run := REGISTER IsValidTopicName IsValidChannelName client params w in
  let w' := run.2 in
  run.1 = inr "OK" /\
  peers w' = peers w /\ clock w' = clock w /\ wellFormed w' /\
  listedUnder w' cid topicKey /\
  (channel ≠ "" -> listedUnder w' cid chanKey) /\
  (forall k, k ≠ topicKey -> channel = "" \/ k ≠ chanKey ->
     registrationMap w' !! k = registrationMap w !! k) /\
  (forall k l, registrationMap w !! k = Some l ->
     exists l', registrationMap w' !! k = Some l' /\ l `prefix_of` l' /\
                (forall q, q ∈ l -> producer_id w' q = producer_id w q) /\
                (forall q, q ∈ l' -> q ∈ l \/ producer_id w' q = cid)).
Proof.
  intros Ha Hlt Hw Hg topicKey chanKey cid run w'. subst run w'.
  rewrite (REGISTER_steps client a topic channel params w Ha Hg).
  cbn [fst snd]. fold topicKey chanKey.
  split; [reflexivity|].
  destruct (bool_decide (channel ≠ "")) eqn:Hch.
  - apply bool_decide_eq_true in Hch.
    destruct (registerOne_spec a chanKey w Hlt Hw)
      as (Hw1 & Hpe1 & Hpr1 & Hcl1 & Hold1 & Hne1 & (l1 & Hk1 & Hpre1 & Hin1 & Hnew1) & _).
    cbn zeta in *.
    set (w1 := registerOne a chanKey w) in *.
    assert (a < length (peers w1))%nat as Hlt1 by (by rewrite Hpe1).
    destruct (registerOne_spec a topicKey w1 Hlt1 Hw1)
      as (Hw2 & Hpe2 & Hpr2 & Hcl2 & Hold2 & Hne2 & (l2 & Hk2 & Hpre2 & Hin2 & Hnew2) & _).
    cbn zeta in *.
    set (w2 := registerOne a topicKey w1) in *.
    assert (id (derefPeer w1 a) = cid) as Hcid1.
    { unfold derefPeer. by rewrite Hpe1. }
    rewrite Hcid1 in *.
    assert (chanKey ≠ topicKey) as Hkk by (intros [=]).
    assert (forall q, (q < length (prods w))%nat -> producer_id w2 q = producer_id w q)
      as Hold.
    { intros q Hq. rewrite Hold2, Hold1; [done | done |].
      rewrite Hpr1, length_app. lia. }
    split; [by rewrite Hpe2, Hpe1|]. split; [by rewrite Hcl2, Hcl1|].
    split; [exact Hw2|]. split; [|split; [|split]].
    + apply list_elem_of_fmap in Hin2 as (q & Hid & Hq). by exists l2, q.
    + intros _. apply list_elem_of_fmap in Hin1 as (q & Hid & Hq).
      exists l1, q. split; [by rewrite Hne2|]. split; [done|].
      rewrite Hold2; [done|]. destruct Hw1 as [Hal1 _]. by apply (Hal1 chanKey l1).
    + intros k Hkt [Hc|Hkc]; [done|]. by rewrite Hne2, Hne1.
    + intros k l Hk.
      assert (forall q, q ∈ l -> (q < length (prods w))%nat) as Hbound.
      { intros q Hq. destruct Hw as [Hal _]. by apply (Hal k l). }
      destruct (decide (k = topicKey)) as [->|Hkt].
      * exists l2. split; [done|].
        rewrite Hne1, Hk in Hpre2, Hnew2 by done. cbn [default] in Hpre2, Hnew2.
        split; [done|]. split; [intros q Hq; by apply Hold, Hbound|done].
      * rewrite Hne2 by done.
        destruct (decide (k = chanKey)) as [->|Hkc].
        -- exists l1. split; [done|]. rewrite Hk in Hpre1, Hnew1.
           cbn [default] in Hpre1, Hnew1.
           split; [done|]. split; [intros q Hq; by apply Hold, Hbound|].
           intros q Hq. destruct (Hnew1 q Hq) as [?|Hid]; [by left|right].
           rewrite Hold2; [done|]. destruct Hw1 as [Hal1 _]. by apply (Hal1 chanKey l1).
        -- exists l. rewrite Hne1 by done. split; [done|]. split; [done|].
           split; [intros q Hq; by apply Hold, Hbound|]. intros q ?. by left.
  - apply bool_decide_eq_false in Hch.
    assert (channel = "") as Hc by (by destruct (decide (channel = ""))).
    destruct (registerOne_spec a topicKey w Hlt Hw)
      as (Hw2 & Hpe2 & Hpr2 & Hcl2 & Hold2 & Hne2 & (l2 & Hk2 & Hpre2 & Hin2 & Hnew2) & _).
    cbn zeta in *.
    set (w2 := registerOne a topicKey w) in *.
    split; [done|]. split; [done|]. split; [done|]. split; [|split; [|split]].
    + apply list_elem_of_fmap in Hin2 as (q & Hid & Hq). by exists l2, q.
    + intros Hne. by destruct Hne.
    + intros k Hkt _. by rewrite Hne2.
    + intros k l Hk.
      assert (forall q, q ∈ l -> (q < length (prods w))%nat) as Hbound.
      { intros q Hq. destruct Hw as [Hal _]. by apply (Hal k l). }
      destruct (decide (k = topicKey)) as [->|Hkt].
      * exists l2. split; [done|]. rewrite Hk in Hpre2, Hnew2.
        cbn [default] in Hpre2, Hnew2.
        split; [done|]. split; [intros q Hq; by apply Hold2, Hbound|done].
      * exists l. rewrite Hne2 by done. split; [done|]. split; [done|].
        split; [intros q Hq; by apply Hold2, Hbound|]. intros q ?. by left.
Qed.

End RegisterFacts.

Lemma registerOne_keeps (a : ptr) (k : Registration) (w : World) :
  (a < length (peers w))%nat -> wellFormed w ->
  let w1 := registerOne a k w in
  let cid := id (derefPeer w a) in
  wellFormed w1 /\ (a < length (peers w1))%nat /\
  id (derefPeer w1 a) = cid /\
  listedUnder w1 cid k /\
  (forall c k0, listedUnder w c k0 -> listedUnder w1 c k0) /\
  (listedUnder w cid k -> registrationMap w1 = registrationMap w) /\
  (uniqueIds w -> uniqueIds w1).
Proof.
  intros Ha Hw.
  destruct (registerOne_spec a k w Ha Hw)
    as (Hw1 & Hpe & Hpr & Hcl & Hold & Hne & (l1 & Hk1 & Hpre & Hin & Hnew) & Hsame & Hu).
  cbn zeta in *.
  split; [done|]. split; [by rewrite Hpe|].
  split; [unfold derefPeer; by rewrite Hpe|].
  split; [|split; [|split]].
  - apply list_elem_of_fmap in Hin as (q & Hid & Hq). by exists l1, q.
  - intros c k0 (l & q & Hl & Hq & Hid).
    assert (q < length (prods w))%nat as Hb.
    { destruct Hw as [Hal _]. by apply (Hal k0 l). }
    destruct (decide (k0 = k)) as [->|Hkk].
    + exists l1, q. split; [done|]. rewrite Hl in Hpre. cbn [default] in Hpre.
      split; [|by rewrite Hold].
      destruct Hpre as [rest ->]. apply elem_of_app. by left.
    + exists l, q. rewrite Hne by done. split; [done|]. split; [done|]. by rewrite Hold.
  - intros (l & q & Hl & Hq & Hid). apply Hsame. rewrite Hl. cbn [default].
    apply list_elem_of_fmap. by exists q.
  - exact Hu.
Qed.

Section RegisterAgain.
Context (IsValidTopicName IsValidChannelName : string -> bool).

(** X15. REGISTER keeps the ids of every registration distinct, and a
    second REGISTER of the same names by the same client changes no
    registration: the client is listed once, however often it
    registers. *)
Theorem REGISTER_idempotent (client : ClientV1) (a : ptr) (topic channel : string)
    (params : list string) (w : World) :
  client_peerInfo client = Some a ->
  (a < length (peers w))%nat -> wellFormed w ->
  getTopicChan IsValidTopicName IsValidChannelName "REGISTER" params = inr (topic, channel) ->
  let w' := (REGISTER IsValidTopicName IsValidChannelName client params w).2 in
  (uniqueIds w -> uniqueIds w') /\
  registrationMap (REGISTER IsValidTopicName IsValidChannelName client params w').2 =
    registrationMap w'.
Proof.
  intros Ha Hlt Hw Hg. cbn zeta.
  rewrite !(REGISTER_steps IsValidTopicName IsValidChannelName client a topic channel
              params _ Ha Hg).
  cbn [fst snd].
  set (topicKey := {| Category := "topic"; Key := topic; SubKey := "" |}).
  set (chanKey := {| Category := "channel"; Key := topic; SubKey := channel |}).
  set (cid := id (derefPeer w a)).
  (* the first run *)
  set (w1 := if bool_decide (channel ≠ "") then registerOne a chanKey w else w).
  assert (wellFormed w1 /\ (a < length (peers w1))%nat /\ id (derefPeer w1 a) = cid /\
          (channel ≠ "" -> listedUnder w1 cid chanKey) /\
          (uniqueIds w -> uniqueIds w1)) as (Hw1 & Hlt1 & Hid1 & Hch1 & Hu1).
  { subst w1. destruct (bool_decide (channel ≠ "")) eqn:Hch.
    - destruct (registerOne_keeps a chanKey w Hlt Hw)
        as (H1 & H2 & H3 & H4 & _ & _ & H5).
      cbn zeta in *. fold cid in H3, H4.
      split; [exact H1|]. split; [exact H2|]. split; [exact H3|].
      split; [intros _; exact H4 | exact H5].
    - apply bool_decide_eq_false in Hch.
      split; [exact Hw|]. split; [exact Hlt|]. split; [reflexivity|].
      split; [intros Hne; by destruct Hch | done]. }
  destruct (registerOne_keeps a topicKey w1 Hlt1 Hw1)
    as (Hw2 & Hlt2 & Hid2 & Htop2 & Hkeep2 & _ & Hu2).
  cbn zeta in *. rewrite Hid1 in Hid2, Htop2.
  set (w2 := registerOne a topicKey w1) in *.
  split; [by intros Hu; apply Hu2, Hu1|].
  (* the second run *)
  set (w3 := if bool_decide (channel ≠ "") then registerOne a chanKey w2 else w2).
  assert (wellFormed w3 /\ (a < length (peers w3))%nat /\ id (derefPeer w3 a) = cid /\
          listedUnder w3 cid topicKey /\
          registrationMap w3 = registrationMap w2) as (Hw3 & Hlt3 & Hid3 & Htop3 & Hm3).
  { subst w3. destruct (bool_decide (channel ≠ "")) eqn:Hch.
    - apply bool_decide_eq_true in Hch.
      destruct (registerOne_keeps a chanKey w2 Hlt2 Hw2)
        as (? & ? & Hid & _ & Hkeep & Hsame & _).
      cbn zeta in *. rewrite Hid2 in Hid, Hsame.
      split; [done|]. split; [done|]. split; [done|]. split; [by apply Hkeep|].
      by apply Hsame, Hkeep2, Hch1.
    - split; [exact Hw2|]. split; [exact Hlt2|]. split; [exact Hid2|].
      split; [exact Htop2 | reflexivity]. }
  destruct (registerOne_keeps a topicKey w3 Hlt3 Hw3) as (_ & _ & _ & _ & _ & Hsame & _).
  cbn zeta in Hsame. rewrite Hid3 in Hsame. by rewrite Hsame.
Qed.

End RegisterAgain.

(** ** IDENTIFY *)

Section IdentifyFacts.
Context (server : ServerInfo).

(** The states of an IDENTIFY that is accepted. *)
Lemma IDENTIFY_steps (client : ClientV1) (ra hn ba : string) (tp hp : Z) (v : string)
    (w : World) :
  client_peerInfo client = None ->
  ba ≠ "" -> tp ≠ 0 -> hp ≠ 0 -> v ≠ "" ->
  let pi := {| lastUpdate := UnixNano (Now w).1; id := RemoteAddr client;
               RemoteAddress := RemoteAddr client; Hostname := hn;
               BroadcastAddress := ba; TCPPort := tp; HTTPPort := hp; Version := v |} in
  let w1 := set_peers (fun h => h ++ [pi]) (Now w).2 in
  IDENTIFY server client (Decoded ra hn ba tp hp v) w =
    ((inr {| reply_tcp_port := RealTCPPort server;
             reply_http_port := RealHTTPPort server;
             reply_version := versionBinary server;
             reply_broadcast_address := optsBroadcastAddress server;
             reply_hostname := osHostname server |},
      {| RemoteAddr := RemoteAddr client; client_peerInfo := Some (length (peers w)) |}),
     registerOne (length (peers w)) {| Category := "client"; Key := ""; SubKey := "" |} w1).
Proof.
  intros Hnone Hba Htp Hhp Hv. cbn zeta. unfold IDENTIFY. rewrite Hnone.
  rewrite (bool_decide_eq_false_2 _ Hba), (bool_decide_eq_false_2 _ Hv).
  rewrite (proj2 (Z.eqb_neq tp 0) Htp), (proj2 (Z.eqb_neq hp 0) Hhp).
  cbn [orb]. unfold registerOne.
  unfold bind, ret, Now, newPeerInfo, newProducer. cbn [fst snd].
  match goal with |- context [AddProducer ?k ?p ?w1] =>
    destruct (AddProducer k p w1) as [b w2] eqn:Hadd
  end.
  cbn [peers set_peers set_clock prods] in *.
  unfold set_prods, set_peers, set_clock in *. cbn [peers prods registrationMap clock] in *.
  by rewrite Hadd.
Qed.


(** An IDENTIFY is accepted, or it answers with an error and leaves the
    state and the connection alone. *)
Lemma IDENTIFY_cases (client : ClientV1) (body : IdentifyBody) (w : World) :
  (client_peerInfo client = None /\
   exists ra hn ba tp hp v,
     body = Decoded ra hn ba tp hp v /\ ba ≠ "" /\ tp ≠ 0 /\ hp ≠ 0 /\ v ≠ "") \/
  ((exists code desc,
      (IDENTIFY server client body w).1.1 = inl (FatalClientErr code desc)) /\
   (IDENTIFY server client body w).1.2 = client /\
   (IDENTIFY server client body w).2 = w /\
   ~ (client_peerInfo client = None /\
      exists ra hn ba tp hp v,
        body = Decoded ra hn ba tp hp v /\ ba ≠ "" /\ tp ≠ 0 /\ hp ≠ 0 /\ v ≠ "")).
Proof.
  unfold IDENTIFY.
    destruct (client_peerInfo client) as [a|] eqn:Ha.
    { right. split; [by eexists _, _|]. split; [done|]. split; [done|].
      by intros [? _]. }
    destruct body as [| | |ra hn ba tp hp v].
    1-3: right; (split; [by eexists _, _|]); (split; [done|]); (split; [done|]);
         by intros [_ (? & ? & ? & ? & ? & ? & ? & _)].
    destruct (decide (ba = "")) as [->|Hba].
    { right. cbn. split; [by eexists _, _|]. split; [done|]. split; [done|].
      intros [_ (? & ? & ? & ? & ? & ? & [=] & ? & _)]. by subst. }
    destruct (decide (tp = 0)) as [->|Htp].
    { right. rewrite (bool_decide_eq_false_2 _ Hba). cbn.
      split; [by eexists _, _|]. split; [done|]. split; [done|].
      intros [_ (? & ? & ? & ? & ? & ? & [=] & ? & ? & _)]. by subst. }
    destruct (decide (hp = 0)) as [->|Hhp].
    { right. rewrite (bool_decide_eq_false_2 _ Hba), (proj2 (Z.eqb_neq tp 0) Htp). cbn.
      split; [by eexists _, _|]. split; [done|]. split; [done|].
      intros [_ (? & ? & ? & ? & ? & ? & [=] & ? & ? & ? & _)]. by subst. }
    destruct (decide (v = "")) as [->|Hv].
    { right. rewrite (bool_decide_eq_false_2 _ Hba), (proj2 (Z.eqb_neq tp 0) Htp),
        (proj2 (Z.eqb_neq hp 0) Hhp). cbn.
      split; [by eexists _, _|]. split; [done|]. split; [done|].
      intros [_ (? & ? & ? & ? & ? & ? & [=] & ? & ? & ? & ?)]. by subst. }
    left. split; [done|]. by exists ra, hn, ba, tp, hp, v.
Qed.


End IdentifyFacts.

(** ** The life of a connection *)

Lemma registerOne_peers (a : ptr) (k : Registration) (w : World) :
  peers (registerOne a k w) = peers w.
Proof.
  unfold registerOne.
  by destruct (AddProducer_heaps k (length (prods w))
                 (set_prods (fun h => h ++ [freshProducer a]) w)) as [-> _].
Qed.

Section Connection.
Context (ord : RangeOrder) (server : ServerInfo).
Context (IsValidTopicName IsValidChannelName : string -> bool).

Lemma REGISTER_peers (client : ClientV1) (params : list string) (w : World) :
  peers (REGISTER IsValidTopicName IsValidChannelName client params w).2 = peers w /\
  (client_peerInfo client = None ->
   (REGISTER IsValidTopicName IsValidChannelName client params w).2 = w).
Proof.
  destruct (client_peerInfo client) as [a|] eqn:Ha.
  - split; [|done].
    destruct (getTopicChan IsValidTopicName IsValidChannelName "REGISTER" params)
      as [err|[topic channel]] eqn:Hg.
    + unfold REGISTER. by rewrite Ha, Hg.
    + rewrite (REGISTER_steps IsValidTopicName IsValidChannelName client a topic channel
                 params w Ha Hg).
      cbn [snd]. rewrite registerOne_peers.
      destruct (bool_decide _); [apply registerOne_peers | done].
  - unfold REGISTER. rewrite Ha. by split.
Qed.

Lemma UNREGISTER_peers (client : ClientV1) (params : list string) (w : World) :
  peers (UNREGISTER ord IsValidTopicName IsValidChannelName client params w).2 = peers w /\
  (client_peerInfo client = None ->
   (UNREGISTER ord IsValidTopicName IsValidChannelName client params w).2 = w).
Proof.
  unfold UNREGISTER.
  destruct (client_peerInfo client) as [a|]; [split; [|done] | by split].
  destruct (getTopicChan _ _ _ _) as [err|[topic channel]]; [done|].
  unfold bind at 1.
  match goal with |- peers (let (_, w') := ?m w in _).2 = _ =>
    assert (peers (m w).2 = peers w) as Hm; [|by destruct (m w) as [[] w']]
  end.
  destruct (bool_decide (channel ≠ "")).
  - unfold bind, peer_id, gets. cbn [fst snd].
    destruct (RemoveProducer_frame w
                {| Category := "channel"; Key := topic; SubKey := channel |}
                (id (derefPeer w a))) as (Hpe & _ & _).
    destruct (RemoveProducer _ _ w) as [rl w1]. cbn [fst snd] in *.
    by destruct (_ && _).
  - unfold bind at 1.
    assert ((FindRegistrations ord "channel" topic "*" w).2 = w) as Hfr by reflexivity.
    destruct (FindRegistrations ord "channel" topic "*" w) as [rr w0].
    cbn [snd] in Hfr. subst w0. unfold bind at 1.
    match goal with |- context [forM rr ?body tt w] =>
      pose proof (forM_preserves peers rr body) as Hloop;
      specialize (fun H => Hloop H tt w);
      destruct (forM rr body tt w) as [[] w1]
    end.
    cbn [snd] in Hloop.
    assert (peers w1 = peers w) as Hw1.
    { apply Hloop. intros [] r w2. unfold bind, peer_id, gets, ret. cbn [fst snd].
      destruct (RemoveProducer_frame w2 r (id (derefPeer w2 a))) as (H & _ & _).
      by destruct (RemoveProducer r _ w2) as [rl w3]. }
    unfold bind, peer_id, gets, ret. cbn [fst snd].
    destruct (RemoveProducer_frame w1 {| Category := "topic"; Key := topic; SubKey := "" |}
                (id (derefPeer w1 a))) as (H & _ & _).
    destruct (RemoveProducer _ _ w1) as [rl w3]. cbn [snd] in *. congruence.
Qed.

Lemma PING_identity (client : ClientV1) (params : list string) (w : World) :
  (identifiedAs client w -> identifiedAs client (PING client params w).2) /\
  (client_peerInfo client = None -> (PING client params w).2 = w).
Proof.
  unfold PING. destruct (client_peerInfo client) as [a|] eqn:Ha; [split; [|done] | by split].
  intros Hid b Hb. rewrite Ha in Hb. injection Hb as <-.
  unfold bind, gets, Now, StoreLastUpdate, modify, ret. cbn [fst snd].
  rewrite <- (Hid a Ha). unfold derefPeer at 1. cbn.
  destruct (decide (a < length (peers w))%nat) as [Hlt|Hge].
  - by rewrite list_lookup_insert_eq.
  - rewrite list_insert_ge by lia. reflexivity.
Qed.

Lemma IDENTIFY_identity (client : ClientV1) (body : IdentifyBody) (w : World) :
  let run := IDENTIFY server client body w in
  RemoteAddr run.1.2 = RemoteAddr client /\
  (forall a, client_peerInfo client = Some a -> client_peerInfo run.1.2 = Some a) /\
  (identifiedAs client w -> identifiedAs run.1.2 run.2) /\
  (client_peerInfo run.1.2 = None -> run.2 = w).
Proof.
  cbn zeta.
  assert (forall r : (ClientErr + IdentifyReply) * ClientV1 * World,
            r.1.2 = client -> r.2 = w ->
            RemoteAddr r.1.2 = RemoteAddr client /\
            (forall a, client_peerInfo client = Some a -> client_peerInfo r.1.2 = Some a) /\
            (identifiedAs client w -> identifiedAs r.1.2 r.2) /\
            (client_peerInfo r.1.2 = None -> r.2 = w)) as Hsame.
  { intros r -> ->. by repeat split. }
  unfold IDENTIFY.
  destruct (client_peerInfo client) as [a0|] eqn:Ha0; [by apply Hsame|].
  destruct body as [| | |ra hn ba tp hp v]; try by apply Hsame.
  destruct (_ || _); [by apply Hsame|]. clear Hsame.
  unfold bind, ret, Now, newPeerInfo, newProducer. cbn [fst snd].
  match goal with |- context [AddProducer ?k ?p ?w1] =>
    pose proof (AddProducer_heaps k p w1) as [Hpe _];
    destruct (AddProducer k p w1) as [b w2]
  end.
  cbn [fst snd] in *.
  split; [reflexivity|]. split; [done|]. split; [|done].
  intros _ a [= <-]. unfold derefPeer. rewrite Hpe. cbn.
  rewrite lookup_app_r by lia. by rewrite Nat.sub_diag.
Qed.

Lemma identifiedAs_peers (client : ClientV1) (w w' : World) :
  peers w' = peers w -> identifiedAs client w -> identifiedAs client w'.
Proof. intros Hpe Hid a Ha. unfold derefPeer. rewrite Hpe. by apply Hid. Qed.

(** What one command does to the connection. *)
Lemma Exec_identity (client : ClientV1) (i : Input) (w : World) :
  let run := Exec ord server IsValidTopicName IsValidChannelName client i w in
  RemoteAddr run.1.2 = RemoteAddr client /\
  (forall a, client_peerInfo client = Some a -> client_peerInfo run.1.2 = Some a) /\
  (identifiedAs client w -> identifiedAs run.1.2 run.2) /\
  (client_peerInfo run.1.2 = None -> run.2 = w).
Proof.
  cbn zeta. unfold Exec.
  destruct (bool_decide (command i = "PING")).
  { destruct (PING_identity client (command i :: arguments i) w) as [Hid Hsame].
    unfold bind. destruct (PING client _ w) as [r w1]. cbn [fst snd] in *.
    by repeat split. }
  destruct (bool_decide (command i = "IDENTIFY")).
  { destruct (IDENTIFY_identity client (body i) w) as (Hra & Hsome & Hid & Hsame).
    cbn zeta in *.
    unfold bind. destruct (IDENTIFY server client (body i) w) as [rc w1].
    cbn [fst snd] in *. by repeat split. }
  destruct (bool_decide (command i = "REGISTER")).
  { destruct (REGISTER_peers client (arguments i) w) as [Hpe Hsame].
    unfold bind. destruct (REGISTER _ _ client _ w) as [r w1]. cbn [fst snd] in *.
    split; [done|]. split; [done|]. split; [by apply identifiedAs_peers | done]. }
  destruct (bool_decide (command i = "UNREGISTER")).
  { destruct (UNREGISTER_peers client (arguments i) w) as [Hpe Hsame].
    unfold bind. destruct (UNREGISTER _ _ _ client _ w) as [r w1]. cbn [fst snd] in *.
    split; [done|]. split; [done|]. split; [by apply identifiedAs_peers | done]. }
  by repeat split.
Qed.

Lemma IOLoop_rounds_identity (inputs : list Input) :
  forall (client : ClientV1) (sent : list Reply) (w : World),
  let run := IOLoop_rounds ord server IsValidTopicName IsValidChannelName
               client inputs sent w in
  RemoteAddr run.1.2 = RemoteAddr client /\
  (forall a, client_peerInfo client = Some a -> client_peerInfo run.1.2 = Some a) /\
  (identifiedAs client w -> identifiedAs run.1.2 run.2) /\
  (client_peerInfo run.1.2 = None -> run.2 = w).
Proof.
  induction inputs as [|i rest IH]; intros client sent w; [by repeat split|].
  cbn zeta. cbn [IOLoop_rounds]. unfold bind.
  destruct (Exec_identity client i w) as (Hra & Hsome & Hid & Hsame). cbn zeta in *.
  destruct (Exec ord server IsValidTopicName IsValidChannelName client i w) as [rc w1].
  cbn [fst snd] in *.
  destruct rc as [[err|response] client1]; cbn [fst snd] in *.
  - destruct (sendOk i); [destruct err|]; by repeat split.
  - destruct (sendOk i); [|by repeat split].
    destruct (IH client1 (sent ++ [response]) w1) as (Hra' & Hsome' & Hid' & Hsame').
    cbn zeta in *.
    split; [congruence|]. split; [intros a Ha; by apply Hsome', Hsome|].
    split; [intros H; by apply Hid', Hid|].
    intros Hnone. rewrite Hsame' by done. apply Hsame.
    destruct (client_peerInfo client1) as [a|] eqn:Ha; [|done].
    by rewrite (Hsome' a eq_refl) in Hnone.
Qed.

Lemma IOLoop_cleanup_run (client : ClientV1) (a : ptr) (w : World) :
  client_peerInfo client = Some a ->
  let w' := (IOLoop_cleanup ord client w).2 in
  peers w' = peers w /\ prods w' = prods w /\
  forall k l, registrationMap w' !! k = Some l ->
    forall p, p ∈ l -> producer_id w p ≠ id (derefPeer w a).
Proof.
  intros Ha w'.
  destruct (LookupRegistrations_keys ord w (id (derefPeer w a))) as (Hw & _ & Hrr).
  assert (w' = (forM (LookupRegistrations ord (id (derefPeer w a)) w).1
                  (fun _ r => cid <- peer_id a ;; _ <- RemoveProducer r cid ;; ret tt)
                  tt w).2) as Hrun.
  { subst w'. unfold IOLoop_cleanup. rewrite Ha.
    unfold bind at 1. unfold peer_id at 1, gets at 1. cbn [fst snd]. unfold bind at 1.
    destruct (LookupRegistrations ord (id (derefPeer w a)) w) as [rr w0].
    cbn [fst snd] in *. by subst w0. }
  clearbody w'. subst w'.
  set (rr := (LookupRegistrations ord (id (derefPeer w a)) w).1) in *.
  destruct (removeFromAll a rr w) as (Hpe & Hpr & _ & Hm). cbn zeta in Hpe, Hpr, Hm.
  split; [exact Hpe|]. split; [exact Hpr|].
  intros k l Hl p Hp Hid. rewrite Hm in Hl.
  destruct (decide (k ∈ rr)) as [Hin|Hnin].
  - destruct (registrationMap w !! k) as [l0|]; [|done]. cbn in Hl. injection Hl as <-.
    by apply list_elem_of_filter in Hp as [Hne _].
  - apply Hnin, Hrr. by exists l, p.
Qed.

(** X18. When IOLoop returns for a connection that identified, no
    registration lists a producer whose id is the remote address of the
    connection, whatever the commands were and wherever the loop
    stopped; and a connection that never identified has left the state
    exactly as it found it. *)
Theorem IOLoop_closes_session (remoteAddr : string) (inputs : list Input) (w : World) :
  let run := IOLoop ord server IsValidTopicName IsValidChannelName remoteAddr inputs w in
  RemoteAddr run.1.2 = remoteAddr /\
  (forall a, client_peerInfo run.1.2 = Some a ->
     forall k l p, registrationMap run.2 !! k = Some l -> p ∈ l ->
       producer_id run.2 p ≠ remoteAddr) /\
  (client_peerInfo run.1.2 = None -> run.2 = w).
Proof.
  cbn zeta. unfold IOLoop. unfold bind.
  set (client0 := {| RemoteAddr := remoteAddr; client_peerInfo := None |}).
  destruct (IOLoop_rounds_identity inputs client0 [] w) as (Hra & _ & Hid & Hsame).
  cbn zeta in *.
  destruct (IOLoop_rounds ord server IsValidTopicName IsValidChannelName client0 inputs [] w)
    as [sc w1].
  cbn [fst snd] in *.
  assert (identifiedAs sc.2 w1) as Hid1 by (apply Hid; intros a; discriminate).
  change (RemoteAddr client0) with remoteAddr in Hra. clear Hid. clearbody client0.
  destruct (client_peerInfo sc.2) as [a|] eqn:Ha.
  - destruct (IOLoop_cleanup_run sc.2 a w1 Ha) as (Hpe & Hpr & Hgone). cbn zeta in *.
    destruct (IOLoop_cleanup ord sc.2 w1) as [[] w2]. cbn [fst snd] in *.
    unfold ret. cbn [fst snd].
    split; [exact Hra|]. split; [|intros Hn; congruence].
    intros a' _ k l p Hl Hp. rewrite <- Hra, <- (Hid1 a Ha).
    rewrite (producer_id_heaps w1 w2 Hpe Hpr). by apply (Hgone k l).
  - assert (IOLoop_cleanup ord sc.2 w1 = (tt, w1)) as ->.
    { unfold IOLoop_cleanup. by rewrite Ha. }
    unfold ret. cbn [fst snd]. split; [exact Hra|].
    split; [intros a Ha'; congruence | intros _; by apply Hsame].
Qed.

(** X19. A connection whose first command is neither IDENTIFY nor PING
    is answered with the one error E_INVALID, if the answer can be
    written at all, and is closed: nothing of what it sends afterwards
    is run and the state is as it was. *)
Theorem IOLoop_command_before_IDENTIFY (remoteAddr : string) (i : Input)
    (rest : list Input) (w : World) :
  command i ≠ "PING" -> command i ≠ "IDENTIFY" ->
  let err :=
    if bool_decide (command i = "REGISTER") || bool_decide (command i = "UNREGISTER")
    then FatalClientErr "E_INVALID" "client must IDENTIFY"
    else FatalClientErr "E_INVALID" ("invalid command " +:+ command i) in
  IOLoop ord server IsValidTopicName IsValidChannelName remoteAddr (i :: rest) w =
    ((if sendOk i then [ReplyBytes (ClientErr_Error err)] else [],
      {| RemoteAddr := remoteAddr; client_peerInfo := None |}), w).
Proof.
  intros Hping Hident. cbn zeta. unfold IOLoop. cbn [IOLoop_rounds].
  unfold Exec.
  rewrite (bool_decide_eq_false_2 _ Hping), (bool_decide_eq_false_2 _ Hident).
  destruct (bool_decide (command i = "REGISTER")); [|destruct (bool_decide _)];
    cbn; by destruct (sendOk i).
Qed.

End Connection.

(** ** The HTTP handlers that change the store *)

(** A loop of [RemoveRegistration] over the keys [ks]. *)
Lemma removeRegistrations (ks : list Registration) (w : World) :
  let w' := (forM ks (fun _ r => RemoveRegistration r) tt w).2 in
  peers w' = peers w /\ prods w' = prods w /\ clock w' = clock w /\
  forall k, registrationMap w' !! k =
    if decide (k ∈ ks) then None else registrationMap w !! k.
Proof.
  revert w. induction ks as [|r ks IH]; intros w.
  - cbn. do 3 (split; [reflexivity|]). intros k.
    by rewrite decide_False by (intros H; inv H).
  - cbn zeta.
    assert ((forM (r :: ks) (fun _ r => RemoveRegistration r) tt w).2 =
            (forM ks (fun _ r => RemoveRegistration r) tt
               (set_registrationMap (fun m => delete r m) w)).2) as -> by reflexivity.
    destruct (IH (set_registrationMap (fun m => delete r m) w)) as (Hpe & Hpr & Hcl & Hm).
    cbn zeta in *.
    split; [by rewrite Hpe|]. split; [by rewrite Hpr|]. split; [by rewrite Hcl|].
    intros k. rewrite Hm. cbn [registrationMap set_registrationMap].
    destruct (decide (k ∈ ks)) as [Hks|Hks].
    + by rewrite decide_True by (by right).
    + destruct (decide (k = r)) as [->|Hne].
      * rewrite decide_True by (by left). apply lookup_delete_eq.
      * rewrite decide_False by (intros H; apply elem_of_cons in H as [?|?]; done).
        by rewrite lookup_delete_ne.
Qed.

Lemma AddRegistration_lookup (k k' : Registration) (w : World) :
  let w' := (AddRegistration k w).2 in
  peers w' = peers w /\ prods w' = prods w /\ clock w' = clock w /\
  registrationMap w' !! k' =
    if decide (k' = k) then Some (default [] (registrationMap w !! k))
    else registrationMap w !! k'.
Proof.
  cbn zeta. unfold AddRegistration, modify. cbn [snd].
  destruct (registrationMap w !! k) as [l|] eqn:Hk.
  - do 3 (split; [reflexivity|]).
    destruct (decide (k' = k)) as [->|Hne]; [by rewrite Hk | done].
  - do 3 (split; [reflexivity|]). cbn.
    destruct (decide (k' = k)) as [->|Hne];
      [by rewrite lookup_insert_eq | by rewrite lookup_insert_ne].
Qed.

(** What /lookup answers, from the scans it makes. *)
Lemma doLookup_run (ord : RangeOrder) (opts : Options) (reqParams : ReqParams)
    (T : string) (w : World) :
  Get reqParams "topic" = Some T ->
  (doLookup ord opts {| query := Some reqParams |} w).1 =
  if (length (FindRegistrations ord "topic" T "" w).1 =? 0)%nat
  then inl {| Code := 404; Text := "TOPIC_NOT_FOUND" |}
  else inr {| channels := SubKeys (FindRegistrations ord "channel" T "*" w).1;
              producers :=
                (fun p => peerInfo (derefProd w p)) <$>
                (FilterByActive (FindProducers ord "topic" T "" w).1
                   (InactiveProducerTimeout opts) (TombstoneLifetime opts) w).1 |}.
Proof.
  intros HGet. unfold doLookup. cbn [NewReqParams query]. rewrite HGet.
  unfold bind at 1.
  assert (forall c k s, FindRegistrations ord c k s w =
                        ((FindRegistrations ord c k s w).1, w)) as Hfr by reflexivity.
  rewrite (Hfr "topic" T "") at 1.
  destruct (length (FindRegistrations ord "topic" T "" w).1 =? 0)%nat; [reflexivity|].
  unfold bind at 1. rewrite (Hfr "channel" T "*") at 1.
  unfold bind at 1.
  assert (FindProducers ord "topic" T "" w = ((FindProducers ord "topic" T "" w).1, w))
    as Hfp by reflexivity.
  rewrite Hfp at 1. unfold bind at 1.
  pose proof (FilterByActive_steady (FindProducers ord "topic" T "" w).1
                (InactiveProducerTimeout opts) (TombstoneLifetime opts) w) as Hst.
  destruct (FilterByActive _ _ _ w) as [act w2]. cbn [fst snd] in *.
  unfold bind. rewrite Producers_PeerInfo_map. cbn [fst ret].
  do 2 f_equal. apply list_fmap_ext. intros _ p _. by rewrite (steady_derefProd _ _ p Hst).
Qed.

Section AdminFacts.
Context (ord : RangeOrder) (opts : Options).
Context (IsValidTopicName : string -> bool).
Context (GetTopicChannelArgs : ReqParams -> string + string * string).

(** X20. GET /topics changes nothing and lists, each once, the names T
    that have a ("topic", T, "") registration, with or without
    producers. *)
Theorem doTopics_spec (req : Request) (w : World) :
  let run := doTopics ord req w in
  run.2 = w /\
  exists topics, run.1 = inr topics /\ NoDup topics /\
    forall t, t ∈ topics <->
      is_Some (registrationMap w !! {| Category := "topic"; Key := t; SubKey := "" |}).
Proof.
  cbn zeta. unfold doTopics, bind, ret.
  destruct (FindRegistrations_elem ord w "topic" "*" "") as (Hw & Hnd & Hin).
  cbn zeta in *.
  destruct (FindRegistrations ord "topic" "*" "" w) as [rr w1]. cbn [fst snd] in *.
  split; [exact Hw|]. exists (Keys rr). split; [reflexivity|].
  assert (forall k, matches k "topic" "*" "" <-> Category k = "topic" /\ SubKey k = "")
    as Hm.
  { intros k. unfold matches. intuition congruence. }
  unfold Keys. change (map Key rr) with (Key <$> rr). split.
  - apply NoDup_fmap_2_strong; [|exact Hnd].
    intros [c1 k1 s1] [c2 k2 s2] H1 H2 Heq. cbn in Heq.
    apply Hin in H1 as [_ H1]. apply Hin in H2 as [_ H2].
    apply Hm in H1 as [? ?]. apply Hm in H2 as [? ?]. cbn in *. congruence.
  - intros t. rewrite list_elem_of_fmap. split.
    + intros (k & -> & Hk). apply Hin in Hk as [Hsome Hk].
      apply Hm in Hk as [Hc Hs]. destruct k as [c k s]. cbn in *. by subst.
    + intros Hsome. exists {| Category := "topic"; Key := t; SubKey := "" |}.
      split; [reflexivity|]. apply Hin. split; [exact Hsome|]. by apply Hm.
Qed.

(** X21. GET /channels?topic=T, for a name T other than the wildcard,
    changes nothing and lists, each once, the channels C that have a
    ("channel", T, C) registration; whether T itself is registered as a
    topic plays no part. *)
Theorem doChannels_spec (reqParams : ReqParams) (T : string) (w : World) :
  Get reqParams "topic" = Some T -> T ≠ "*" ->
  let run := doChannels ord {| query := Some reqParams |} w in
  run.2 = w /\
  exists chans, run.1 = inr chans /\ NoDup chans /\
    forall c, c ∈ chans <->
      is_Some (registrationMap w !! {| Category := "channel"; Key := T; SubKey := c |}).
Proof.
  intros HGet HT. cbn zeta. unfold doChannels. cbn [NewReqParams query]. rewrite HGet.
  unfold bind, ret.
  destruct (FindRegistrations_channels ord w T HT) as (Hw & Hnd & Hch). cbn zeta in *.
  destruct (FindRegistrations ord "channel" T "*" w) as [rr w1]. cbn [fst snd] in *.
  split; [exact Hw|]. by exists (SubKeys rr).
Qed.

(** X22. POST /topic/create?topic=T.  An invalid name is refused with
    400 INVALID_ARG_TOPIC and nothing changes.  A valid name leaves
    ("topic", T, "") registered with the producers it had, if any, and
    every other key as it was; /lookup for T then answers 200. *)
Theorem doCreateTopic_spec (reqParams : ReqParams) (T : string) (w : World) :
  Get reqParams "topic" = Some T ->
  let req := {| query := Some reqParams |} in
  let key := {| Category := "topic"; Key := T; SubKey := "" |} in
  let run := doCreateTopic IsValidTopicName req w in
  (IsValidTopicName T = false ->
     run = (inl {| Code := 400; Text := "INVALID_ARG_TOPIC" |}, w)) /\
  (IsValidTopicName T = true ->
     run.1 = inr tt /\
     peers run.2 = peers w /\ prods run.2 = prods w /\ clock run.2 = clock w /\
     registrationMap run.2 !! key = Some (default [] (registrationMap w !! key)) /\
     (forall k, k ≠ key -> registrationMap run.2 !! k = registrationMap w !! k) /\
     V1_status (doLookup ord opts req run.2).1 = 200).
Proof.
  intros HGet req key run. subst run req.
  unfold doCreateTopic. cbn [NewReqParams query]. rewrite HGet.
  split; [intros ->; reflexivity|]. intros ->. cbn [negb].
  unfold bind, ret. fold key.
  pose proof (fun k' => AddRegistration_lookup key k' w) as Hadd. cbn zeta in Hadd.
  destruct (AddRegistration key w) as [[] w1]. cbn [fst snd] in *.
  destruct (Hadd key) as (Hpe & Hpr & Hcl & Hkey). rewrite decide_True in Hkey by done.
  split; [reflexivity|]. split; [exact Hpe|]. split; [exact Hpr|]. split; [exact Hcl|].
  split; [exact Hkey|]. split.
  - intros k Hne. destruct (Hadd k) as (_ & _ & _ & Hk). by rewrite decide_False in Hk.
  - rewrite (doLookup_run ord opts reqParams T w1 HGet).
    destruct (FindRegistrations_elem ord w1 "topic" T "") as (_ & _ & Hin).
    cbn zeta in Hin.
    destruct (FindRegistrations ord "topic" T "" w1).1 as [|k0 rest] eqn:Hrr; [|done].
    exfalso. assert (key ∈ @nil Registration) as Habs; [|by inv Habs].
    apply Hin. split; [by rewrite Hkey|]. unfold matches. cbn.
    split; [done|]. split; by right.
Qed.

End AdminFacts.

Section AdminDeletes.
Context (ord : RangeOrder) (opts : Options).
Context (GetTopicChannelArgs : ReqParams -> string + string * string).

(** The states of /topic/delete. *)
Lemma doDeleteTopic_run (reqParams : ReqParams) (T : string) (w : World) :
  Get reqParams "topic" = Some T ->
  let w1 := (forM (FindRegistrations ord "channel" T "*" w).1
               (fun _ r => RemoveRegistration r) tt w).2 in
  doDeleteTopic ord {| query := Some reqParams |} w =
    (inr tt,
     (forM (FindRegistrations ord "topic" T "" w1).1
        (fun _ r => RemoveRegistration r) tt w1).2).
Proof.
  intros HGet. cbn zeta. unfold doDeleteTopic. cbn [NewReqParams query]. rewrite HGet.
  assert (forall c k s w0, FindRegistrations ord c k s w0 =
                           ((FindRegistrations ord c k s w0).1, w0)) as Hfr by reflexivity.
  unfold bind at 1. rewrite (Hfr "channel" T "*" w) at 1.
  unfold bind at 1.
  destruct (forM (FindRegistrations ord "channel" T "*" w).1
              (fun _ r => RemoveRegistration r) tt w) as [[] w1].
  cbn [snd]. unfold bind at 1. rewrite (Hfr "topic" T "" w1) at 1.
  unfold bind at 1.
  by destruct (forM (FindRegistrations ord "topic" T "" w1).1
                 (fun _ r => RemoveRegistration r) tt w1) as [[] w2].
Qed.

(** X23. POST /topic/delete?topic=T answers without an error, whether
    the topic exists or not; it removes the ("topic", T, "")
    registration and every ("channel", T, C) registration, producers and
    all, and nothing else (with the wildcard for T, every topic and
    every channel); /lookup for T then answers 404 TOPIC_NOT_FOUND. *)
Theorem doDeleteTopic_spec (reqParams : ReqParams) (T : string) (w : World) :
  Get reqParams "topic" = Some T ->
  let req := {| query := Some reqParams |} in
  let run := doDeleteTopic ord req w in
  run.1 = inr tt /\
  peers run.2 = peers w /\ prods run.2 = prods w /\ clock run.2 = clock w /\
  (forall k, registrationMap run.2 !! k =
     if decide (matches k "channel" T "*" \/ matches k "topic" T "")
     then None else registrationMap w !! k) /\
  (doLookup ord opts req run.2).1 = inl {| Code := 404; Text := "TOPIC_NOT_FOUND" |}.
Proof.
  intros HGet req run. subst run req.
  rewrite (doDeleteTopic_run reqParams T w HGet). cbn [fst snd].
  destruct (FindRegistrations_elem ord w "channel" T "*") as (_ & _ & Hin1).
  cbn zeta in Hin1.
  set (rr1 := (FindRegistrations ord "channel" T "*" w).1) in *.
  destruct (removeRegistrations rr1 w) as (Hpe1 & Hpr1 & Hcl1 & Hm1). cbn zeta in *.
  set (w1 := (forM rr1 (fun _ r => RemoveRegistration r) tt w).2) in *.
  destruct (FindRegistrations_elem ord w1 "topic" T "") as (_ & _ & Hin2).
  cbn zeta in Hin2.
  set (rr2 := (FindRegistrations ord "topic" T "" w1).1) in *.
  destruct (removeRegistrations rr2 w1) as (Hpe2 & Hpr2 & Hcl2 & Hm2). cbn zeta in *.
  set (w2 := (forM rr2 (fun _ r => RemoveRegistration r) tt w1).2) in *.
  assert (forall k, registrationMap w2 !! k =
            if decide (matches k "channel" T "*" \/ matches k "topic" T "")
            then None else registrationMap w !! k) as Hmap.
  { intros k. rewrite Hm2.
    destruct (decide (k ∈ rr2)) as [Hk2|Hk2].
    - apply Hin2 in Hk2 as [_ Hk2]. rewrite decide_True; [done | by right].
    - rewrite Hm1. destruct (decide (k ∈ rr1)) as [Hk1|Hk1].
      + apply Hin1 in Hk1 as [_ Hk1]. rewrite decide_True; [done | by left].
      + destruct (decide (matches k "channel" T "*" \/ matches k "topic" T ""))
          as [[Hc|Ht]|Hno]; [| |done].
        * destruct (registrationMap w !! k) as [l|] eqn:Hk; [|done].
          destruct Hk1. apply Hin1. split; [by rewrite Hk | done].
        * destruct (registrationMap w !! k) as [l|] eqn:Hk; [|done].
          destruct Hk2. apply Hin2. split; [|done].
          rewrite Hm1, decide_False by done. by rewrite Hk. }
  split; [reflexivity|]. split; [by rewrite Hpe2|]. split; [by rewrite Hpr2|].
  split; [by rewrite Hcl2|]. split; [exact Hmap|].
  rewrite (doLookup_run ord opts reqParams T w2 HGet).
  destruct (FindRegistrations_elem ord w2 "topic" T "") as (_ & _ & Hin3).
  cbn zeta in Hin3.
  destruct (FindRegistrations ord "topic" T "" w2).1 as [|k0 rest]; [done|].
  exfalso. destruct (proj1 (Hin3 k0)) as [[l Hl] Hk0]; [by left|].
  rewrite Hmap, decide_True in Hl; [done | by right].
Qed.

(** X24. POST /channel/create, its arguments accepted as topic T and
    channel C, answers without an error and leaves ("channel", T, C) and
    ("topic", T, "") registered, each with the producers it had, if any;
    no other key changes. *)
Theorem doCreateChannel_spec (reqParams : ReqParams) (T C : string) (w : World) :
  GetTopicChannelArgs reqParams = inr (T, C) ->
  let chanKey := {| Category := "channel"; Key := T; SubKey := C |} in
  let topicKey := {| Category := "topic"; Key := T; SubKey := "" |} in
  let run := doCreateChannel GetTopicChannelArgs {| query := Some reqParams |} w in
  run.1 = inr tt /\
  peers run.2 = peers w /\ prods run.2 = prods w /\ clock run.2 = clock w /\
  registrationMap run.2 !! chanKey = Some (default [] (registrationMap w !! chanKey)) /\
  registrationMap run.2 !! topicKey = Some (default [] (registrationMap w !! topicKey)) /\
  (forall k, k ≠ chanKey -> k ≠ topicKey ->
     registrationMap run.2 !! k = registrationMap w !! k).
Proof.
  intros Hargs chanKey topicKey run. subst run.
  unfold doCreateChannel. cbn [NewReqParams query]. rewrite Hargs.
  fold chanKey topicKey. unfold bind, ret.
  pose proof (fun k' => AddRegistration_lookup chanKey k' w) as Hadd1. cbn zeta in Hadd1.
  destruct (AddRegistration chanKey w) as [[] w1]. cbn [fst snd] in *.
  pose proof (fun k' => AddRegistration_lookup topicKey k' w1) as Hadd2. cbn zeta in Hadd2.
  destruct (AddRegistration topicKey w1) as [[] w2]. cbn [fst snd] in *.
  assert (chanKey ≠ topicKey) as Hne by (intros [=]).
  destruct (Hadd1 chanKey) as (Hpe1 & Hpr1 & Hcl1 & Hc1).
  destruct (Hadd2 chanKey) as (Hpe2 & Hpr2 & Hcl2 & Hc2).
  destruct (Hadd1 topicKey) as (_ & _ & _ & Ht1).
  destruct (Hadd2 topicKey) as (_ & _ & _ & Ht2).
  rewrite decide_True in Hc1 by done. rewrite decide_False in Hc2 by done.
  rewrite decide_False in Ht1 by done. rewrite decide_True in Ht2 by done.
  split; [reflexivity|]. split; [by rewrite Hpe2|]. split; [by rewrite Hpr2|].
  split; [by rewrite Hcl2|]. split; [by rewrite Hc2|]. split; [by rewrite Ht2, Ht1|].
  intros k Hkc Hkt.
  destruct (Hadd1 k) as (_ & _ & _ & Hk1). destruct (Hadd2 k) as (_ & _ & _ & Hk2).
  rewrite decide_False in Hk1 by done. rewrite decide_False in Hk2 by done.
  by rewrite Hk2.
Qed.

(** The states of /channel/delete. *)
Lemma doDeleteChannel_run (reqParams : ReqParams) (T C : string) (w : World) :
  GetTopicChannelArgs reqParams = inr (T, C) ->
  let rr := (FindRegistrations ord "channel" T C w).1 in
  doDeleteChannel ord GetTopicChannelArgs {| query := Some reqParams |} w =
    if (length rr =? 0)%nat
    then (inl {| Code := 404; Text := "CHANNEL_NOT_FOUND" |}, w)
    else (inr tt, (forM rr (fun _ r => RemoveRegistration r) tt w).2).
Proof.
  intros Hargs. cbn zeta. unfold doDeleteChannel. cbn [NewReqParams query]. rewrite Hargs.
  assert (FindRegistrations ord "channel" T C w =
          ((FindRegistrations ord "channel" T C w).1, w)) as Hfr by reflexivity.
  unfold bind at 1. rewrite Hfr at 1.
  destruct (length (FindRegistrations ord "channel" T C w).1 =? 0)%nat; [reflexivity|].
  unfold bind, ret.
  by destruct (forM (FindRegistrations ord "channel" T C w).1
                 (fun _ r => RemoveRegistration r) tt w) as [[] w1].
Qed.

(** X25. POST /channel/delete, its arguments accepted as topic T and
    channel C.  When no registration matches ("channel", T, C) the
    answer is 404 CHANNEL_NOT_FOUND and nothing changes.  Otherwise the
    matching registrations are removed, producers and all, and nothing
    else: the ("topic", T, "") registration stays as it is. *)
Theorem doDeleteChannel_spec (reqParams : ReqParams) (T C : string) (w : World) :
  GetTopicChannelArgs reqParams = inr (T, C) ->
  let run := doDeleteChannel ord GetTopicChannelArgs {| query := Some reqParams |} w in
  let found := exists k, is_Some (registrationMap w !! k) /\ matches k "channel" T C in
  (~ found -> run = (inl {| Code := 404; Text := "CHANNEL_NOT_FOUND" |}, w)) /\
  (found ->
     run.1 = inr tt /\
     peers run.2 = peers w /\ prods run.2 = prods w /\ clock run.2 = clock w /\
     (forall k, registrationMap run.2 !! k =
        if decide (matches k "channel" T C) then None else registrationMap w !! k)) /\
  (forall k, Category k ≠ "channel" ->
     registrationMap run.2 !! k = registrationMap w !! k).
Proof.
  intros Hargs run found. subst run found.
  rewrite (doDeleteChannel_run reqParams T C w Hargs). cbn zeta.
  destruct (FindRegistrations_elem ord w "channel" T C) as (_ & _ & Hin).
  cbn zeta in Hin.
  set (rr := (FindRegistrations ord "channel" T C w).1) in *.
  destruct (removeRegistrations rr w) as (Hpe & Hpr & Hcl & Hm). cbn zeta in *.
  assert (forall k, registrationMap (forM rr (fun _ r => RemoveRegistration r) tt w).2 !! k =
            if decide (matches k "channel" T C) then None else registrationMap w !! k)
    as Hmap.
  { intros k. rewrite Hm. destruct (decide (k ∈ rr)) as [Hk|Hk].
    - apply Hin in Hk as [_ Hk]. by rewrite decide_True.
    - destruct (decide (matches k "channel" T C)) as [Hmk|]; [|done].
      destruct (registrationMap w !! k) as [l|] eqn:Hl; [|done].
      destruct Hk. apply Hin. split; [by rewrite Hl | done]. }
  destruct rr as [|k0 rest] eqn:Hrr; cbn [length Nat.eqb].
  - split; [done|]. split; [|done].
    intros (k & Hsome & Hk). exfalso.
    assert (k ∈ @nil Registration) as Habs by (by apply Hin). by inv Habs.
  - split; [|split].
    + intros Hno. destruct Hno. exists k0. apply Hin. by left.
    + intros _. cbn [fst snd]. by repeat (split; [done|]).
    + intros k Hcat. cbn [snd]. rewrite Hmap, decide_False; [done|].
      intros [Hc _]. done.
Qed.

(** X26. /channel/create followed by /channel/delete with the same
    arguments, for names other than the wildcard: the delete finds the
    channel and removes it, and the ("topic", T, "") registration that
    the create made stays behind. *)
Theorem doCreateChannel_doDeleteChannel (reqParams : ReqParams) (T C : string)
    (w : World) :
  GetTopicChannelArgs reqParams = inr (T, C) -> T ≠ "*" -> C ≠ "*" ->
  let req := {| query := Some reqParams |} in
  let chanKey := {| Category := "channel"; Key := T; SubKey := C |} in
  let topicKey := {| Category := "topic"; Key := T; SubKey := "" |} in
  let w1 := (doCreateChannel GetTopicChannelArgs req w).2 in
  let run := doDeleteChannel ord GetTopicChannelArgs req w1 in
  run.1 = inr tt /\
  registrationMap run.2 !! chanKey = None /\
  registrationMap run.2 !! topicKey = Some (default [] (registrationMap w !! topicKey)) /\
  (forall k, k ≠ chanKey -> k ≠ topicKey ->
     registrationMap run.2 !! k = registrationMap w !! k).
Proof.
  intros Hargs HT HC req chanKey topicKey w1 run. subst run w1 req.
  (* the create *)
  assert (exists w1, (doCreateChannel GetTopicChannelArgs {| query := Some reqParams |} w).2
                     = w1 /\
            forall k, registrationMap w1 !! k =
              if decide (k = chanKey \/ k = topicKey)
              then Some (default [] (registrationMap w !! k))
              else registrationMap w !! k) as (w1 & -> & Hm1).
  { eexists. split; [reflexivity|].
    unfold doCreateChannel. cbn [NewReqParams query]. rewrite Hargs.
    fold chanKey topicKey. unfold bind, ret.
    pose proof (fun k' => AddRegistration_lookup chanKey k' w) as Hadd1.
    cbn zeta in Hadd1.
    destruct (AddRegistration chanKey w) as [[] w1]. cbn [fst snd] in *.
    pose proof (fun k' => AddRegistration_lookup topicKey k' w1) as Hadd2.
    cbn zeta in Hadd2.
    destruct (AddRegistration topicKey w1) as [[] w2]. cbn [fst snd] in *.
    assert (chanKey ≠ topicKey) as Hne by (intros [=]).
    intros k. destruct (Hadd1 k) as (_ & _ & _ & Hk1).
    destruct (Hadd2 k) as (_ & _ & _ & Hk2).
    destruct (Hadd1 topicKey) as (_ & _ & _ & Ht1). rewrite decide_False in Ht1 by done.
    rewrite Hk2, Hk1, Ht1.
    destruct (decide (k = topicKey)) as [->|Hkt].
    - by rewrite decide_True by (by right).
    - destruct (decide (k = chanKey)) as [->|Hkc].
      + by rewrite decide_True by (by left).
      + rewrite decide_False; [done|]. by intros [?|?]. }
  (* the delete *)
  rewrite (doDeleteChannel_run reqParams T C w1 Hargs). cbn zeta.
  destruct (FindRegistrations_elem ord w1 "channel" T C) as (_ & _ & Hin).
  cbn zeta in Hin.
  set (rr := (FindRegistrations ord "channel" T C w1).1) in *.
  destruct (removeRegistrations rr w1) as (_ & _ & _ & Hm). cbn zeta in *.
  assert (forall k, k ∈ rr <-> k = chanKey) as Hrr.
  { intros k. rewrite Hin. split.
    - intros [_ (Hc & [?|Hk] & [?|Hs])]; try done.
      destruct k as [c k s]. cbn in *. by subst.
    - intros ->. split.
      + rewrite Hm1, decide_True; [done | by left].
      + unfold matches. cbn. split; [done|]. split; by right. }
  destruct rr as [|k0 rest] eqn:Hrr0.
  { exfalso. assert (chanKey ∈ @nil Registration) as Habs by (by apply Hrr). by inv Habs. }
  cbn [length Nat.eqb fst snd]. split; [reflexivity|].
  assert (chanKey ≠ topicKey) as Hne by (intros [=]).
  split; [|split].
  - rewrite Hm, decide_True; [done | by apply Hrr].
  - rewrite Hm, decide_False by (intros H; apply Hrr in H; by destruct Hne).
    rewrite Hm1, decide_True; [done | by right].
  - intros k Hkc Hkt. rewrite Hm, decide_False by (intros H; by apply Hrr in H).
    rewrite Hm1, decide_False; [done|]. by intros [?|?].
Qed.

End AdminDeletes.

(** ** A tombstone and /lookup *)

Lemma Sub_within (t u : Time) (lifetime : Duration) :
  0 < lifetime -> t - u < lifetime -> (Sub t u <? lifetime) = true.
Proof.
  intros Hpos Hlt. apply Z.ltb_lt. unfold Sub.
  destruct (maxDuration <? t - u) eqn:Hmax.
  - apply Z.ltb_lt in Hmax. lia.
  - destruct (t - u <? minDuration); [unfold minDuration; lia | lia].
Qed.

(** One round of the loop of FilterByActive, the readings of the clock
    lying within the tombstone lifetime of each other: a producer that
    bears a tombstone is not kept. *)
Lemma FilterByActive_step_stamped (now : Time) (it lt : Duration)
    (results : list ptr) (p : ptr) (w : World) :
  (forall n m, reading (clock w) n - reading (clock w) m < lt) ->
  let run := FilterByActive_step now it lt results p w in
  run.1 = results \/ (run.1 = results ++ [p] /\ ~ stamped w p).
Proof.
  intros Hrecent. cbn zeta.
  unfold FilterByActive_step, bind, gets. cbn -[IsTombstoned].
  destruct (it <? _); [by left|].
  unfold IsTombstoned, bind, gets, Now, ret. cbn [fst snd].
  destruct (tombstoned (derefProd w p)) eqn:Htomb.
  - destruct (Sub _ _ <? lt) eqn:Hsub; [by left|]. right. split; [reflexivity|].
    intros [_ [m Hat]].
    change (tombstonedAt (derefProd w p) = reading (clock w) m) in Hat.
    change (derefProd (set_clock _ w) p) with (derefProd w p) in Hsub.
    rewrite Hat, Sub_within in Hsub; [done | | apply Hrecent].
    specialize (Hrecent 0%nat 0%nat). lia.
  - right. split; [reflexivity|]. intros [Ht _].
    unfold is_tombstoned in Ht. congruence.
Qed.

Lemma stamped_steady (w w' : World) (p : ptr) :
  steady w w' -> stamped w' p <-> stamped w p.
Proof.
  intros Hs. unfold stamped, is_tombstoned, tombstoned_at.
  rewrite (steady_derefProd _ _ p Hs). destruct Hs as (_ & _ & _ & ->). done.
Qed.

Lemma FilterByActive_loop_stamped (now : Time) (it lt : Duration) (w0 : World)
    (pp : list ptr) :
  (forall n m, reading (clock w0) n - reading (clock w0) m < lt) ->
  forall (results : list ptr) (w : World), steady w0 w ->
  forall p, p ∈ (forM pp (FilterByActive_step now it lt) results w).1 ->
    p ∈ results \/ (p ∈ pp /\ ~ stamped w0 p).
Proof.
  intros Hrecent. induction pp as [|x pp IH]; intros results w Hs p; cbn [forM].
  - intros Hp. by left.
  - unfold bind.
    assert (forall n m, reading (clock w) n - reading (clock w) m < lt) as Hrecent'.
    { destruct Hs as (_ & _ & _ & ->). exact Hrecent. }
    pose proof (FilterByActive_step_stamped now it lt results x w Hrecent') as Hstep.
    pose proof (FilterByActive_step_snapshot now it lt results x w) as Hsnap.
    cbn zeta in Hstep.
    destruct (FilterByActive_step now it lt results x w) as [results' w'].
    cbn [fst snd] in *. apply snapshot_steady in Hsnap.
    intros Hp. apply (IH results' w' (steady_trans _ _ _ Hs Hsnap)) in Hp.
    destruct Hp as [Hp|[Hp Hno]]; [|right; split; [by right | done]].
    destruct Hstep as [->|[-> Hno]]; [by left|].
    apply elem_of_app in Hp as [Hp|Hp]; [by left|].
    apply list_elem_of_singleton in Hp. subst p. right. split; [by left|].
    by rewrite <- (stamped_steady w0 w x Hs).
Qed.

Lemma FilterByActive_stamped (it lt : Duration) (pp : list ptr) (w : World) :
  (forall n m, reading (clock w) n - reading (clock w) m < lt) ->
  forall p, p ∈ (FilterByActive pp it lt w).1 -> p ∈ pp /\ ~ stamped w p.
Proof.
  intros Hrecent p. unfold FilterByActive, bind.
  change (Now w) with
    (reading (clock w) (tick (clock w)),
     set_clock {| reading := reading (clock w); tick := S (tick (clock w)) |} w).
  cbv iota beta. intros Hp.
  apply (FilterByActive_loop_stamped _ it lt w pp Hrecent) in Hp; [|by repeat split].
  destruct Hp as [Hp|Hp]; [by inv Hp | done].
Qed.

(** Every producer that FindProducers returns is listed by the store. *)
Lemma FindProducers_listed (ord : RangeOrder) (category key subkey : string) (w : World)
    (p : ptr) :
  p ∈ (FindProducers ord category key subkey w).1 ->
  exists k l, registrationMap w !! k = Some l /\ p ∈ l.
Proof.
  unfold FindProducers, gets. cbn [fst].
  destruct (negb (needFilter key subkey)).
  - intros Hp. destruct (registrationMap w !! _) as [l|] eqn:Hk; [|by inv Hp].
    by eexists _, l.
  - intros Hp.
    destruct (FindProducers_outer w category key subkey (ord (registrationMap w)) [])
      as (_ & _ & Hfrom & _); [constructor|].
    cbn zeta in Hfrom. apply Hfrom in Hp as [Hp|([k l] & Hkv & _ & Hp)]; [by inv Hp|].
    apply range_lookup in Hkv. by exists k, l.
Qed.

Lemma tombstone_loop_clock (node : string) (xs : list ptr) (w : World) :
  reading (clock (forM xs (tombstoneBody node) tt w).2) = reading (clock w).
Proof.
  apply (forM_preserves (fun w => reading (clock w))).
  intros [] x w0. unfold tombstoneBody, bind, gets. cbn [fst snd].
  destruct (bool_decide _); [|reflexivity].
  by destruct (Tombstone_effect x w0) as (_ & _ & -> & _).
Qed.

(** The producers of a topic named in full are the list of its key,
    whatever the order of a scan. *)
Lemma FindProducers_topic (ord : RangeOrder) (T : string) (w : World) :
  T ≠ "*" ->
  (FindProducers ord "topic" T "" w).1 =
    default [] (registrationMap w !! {| Category := "topic"; Key := T; SubKey := "" |}).
Proof.
  intros HT. unfold FindProducers, gets. cbn [fst].
  assert (needFilter T "" = false) as ->; [|reflexivity].
  unfold needFilter. by rewrite bool_decide_eq_false_2.
Qed.

(** X27. After POST /topic/tombstone?topic=T&node=N, for a topic name T
    other than the wildcard, and for as long as the readings of the
    clock stay within the tombstone lifetime of each other, GET
    /lookup?topic=T lists no producer whose broadcast_address:http_port
    is N; the two handlers may range over the map in different
    orders. *)
Theorem tombstone_hides_from_lookup (ord1 ord2 : RangeOrder) (opts : Options)
    (reqParams : ReqParams) (T node : string) (w : World) :
  Get reqParams "topic" = Some T -> Get reqParams "node" = Some node ->
  T ≠ "*" ->
  allocated w ->
  (forall n m, reading (clock w) n - reading (clock w) m < TombstoneLifetime opts) ->
  let req := {| query := Some reqParams |} in
  let w' := (doTombstoneTopicProducer ord1 req w).2 in
  forall data, (doLookup ord2 opts req w').1 = inr data ->
  forall a, a ∈ producers data ->
    BroadcastAddress (derefPeer w' a) +:+ ":" +:+ itoa (HTTPPort (derefPeer w' a)) ≠ node.
Proof.
  intros HT Hnode Hstar Hal Hrecent req w'. subst req w'.
  rewrite (doTombstoneTopicProducer_run ord1 reqParams T node w HT Hnode).
  set (found := (FindProducers ord1 "topic" T "" w).1).
  destruct (tombstone_loop node found w)
    as (Hpe & Hm & Hlen & Hpi & _ & _ & Hhere). cbn zeta in *.
  pose proof (tombstone_loop_clock node found w) as Hclock.
  set (w' := (forM found (tombstoneBody node) tt w).2) in *.
  intros data Hdata a Ha.
  rewrite (doLookup_run ord2 opts reqParams T w' HT) in Hdata.
  destruct (length _ =? 0)%nat; [discriminate|].
  remember (FilterByActive (FindProducers ord2 "topic" T "" w').1
              (InactiveProducerTimeout opts) (TombstoneLifetime opts) w').1
    as act eqn:Hact in Hdata.
  injection Hdata as <-.
  cbn [producers] in Ha. apply list_elem_of_fmap in Ha as (p & -> & Hp). subst act.
  rewrite (FindProducers_topic ord2 T w' Hstar), Hm in Hp.
  rewrite <- (FindProducers_topic ord1 T w Hstar) in Hp. fold found in Hp.
  apply FilterByActive_stamped in Hp as [Hp Hno]; [|by rewrite Hclock].
  intros Hn. apply Hno, Hhere; [exact Hp | |].
  - destruct (FindProducers_listed ord1 "topic" T "" w p Hp) as (k & l & Hk & Hin).
    by apply (Hal k l).
  - unfold node_of. rewrite <- Hn. unfold derefPeer. by rewrite Hpi, Hpe.
Qed.

(** ** /debug *)

(** The inner loop of [doDebug] for the registration of text [key]. *)
Lemma doDebug_inner (w : World) (key : string) (l : list ptr)
    (data : gmap string (list DebugEntry)) :
  fold_left (fun data p => <[key := default [] (data !! key) ++ [debugEntry w p]]> data)
    l data =
  match l with
  | [] => data
  | _ => <[key := default [] (data !! key) ++ (debugEntry w <$> l)]> data
  end.
Proof.
  revert data. induction l as [|p l IH]; intros data; [reflexivity|].
  cbn [fold_left]. rewrite IH. destruct l as [|q l]; [reflexivity|].
  rewrite lookup_insert_eq, insert_insert_eq.
  change (default [] (Some ?x)) with x.
  f_equal. rewrite (fmap_cons _ p). by rewrite <- app_assoc.
Qed.

Lemma doDebug_outer (w : World) (kvs : list (Registration * list ptr))
    (data : gmap string (list DebugEntry)) :
  let data' :=
    fold_left (fun data rp =>
        let key := debugKey rp.1 in
        fold_left (fun data p =>
            <[key := default [] (data !! key) ++ [debugEntry w p]]> data)
          rp.2 data) kvs data in
  (forall s, is_Some (data' !! s) <->
     is_Some (data !! s) \/
     exists kv, kv ∈ kvs /\ kv.2 ≠ [] /\ debugKey kv.1 = s) /\
  (forall s e, e ∈ default [] (data' !! s) <->
     e ∈ default [] (data !! s) \/
     exists kv p, kv ∈ kvs /\ debugKey kv.1 = s /\ p ∈ kv.2 /\ e = debugEntry w p).
Proof.
  revert data. induction kvs as [|[k l] kvs IH]; intros data; cbn zeta.
  - cbn [fold_left]. split.
    + intros s. split; [by left|]. intros [?|(kv & Hkv & _)]; [done | by inv Hkv].
    + intros s e. split; [by left|]. intros [?|(kv & p & Hkv & _)]; [done | by inv Hkv].
  - cbn [fold_left fst snd]. rewrite doDebug_inner.
    destruct (IH (match l with
                  | [] => data
                  | _ => <[debugKey k := default [] (data !! debugKey k) ++
                                           (debugEntry w <$> l)]> data
                  end)) as [IHkey IHentry]. cbn zeta in *.
    split.
    + intros s. rewrite IHkey. split.
      * intros [Hs|(kv & Hkv & Hne & Hs)].
        -- destruct l as [|q l]; [by left|].
           destruct (decide (debugKey k = s)) as [<-|Hks].
           ++ right. exists (k, q :: l). split; [by left|]. by split.
           ++ rewrite lookup_insert_ne in Hs by done. by left.
        -- right. exists kv. split; [by right | by split].
      * intros [Hs|(kv & Hkv & Hne & Hs)].
        -- left. destruct l as [|q l]; [done|].
           destruct (decide (debugKey k = s)) as [<-|Hks].
           ++ by rewrite lookup_insert_eq.
           ++ by rewrite lookup_insert_ne.
        -- apply elem_of_cons in Hkv as [->|Hkv].
           ++ left. cbn [fst snd] in *. destruct l as [|q l]; [done|].
              subst s. by rewrite lookup_insert_eq.
           ++ right. exists kv. by split.
    + intros s e. rewrite IHentry. split.
      * intros [He|(kv & p & Hkv & Hs & Hp & He)].
        -- destruct l as [|q l]; [by left|].
           destruct (decide (debugKey k = s)) as [<-|Hks].
           ++ rewrite lookup_insert_eq in He. cbn [default] in He.
              apply elem_of_app in He as [He|He]; [by left|].
              apply list_elem_of_fmap in He as (p & -> & Hp).
              right. exists (k, q :: l), p. split; [by left|]. by split.
           ++ rewrite lookup_insert_ne in He by done. by left.
        -- right. exists kv, p. split; [by right | by split].
      * intros [He|(kv & p & Hkv & Hs & Hp & He)].
        -- left. destruct l as [|q l]; [done|].
           destruct (decide (debugKey k = s)) as [<-|Hks].
           ++ rewrite lookup_insert_eq. cbn [default]. apply elem_of_app. by left.
           ++ by rewrite lookup_insert_ne.
        -- apply elem_of_cons in Hkv as [->|Hkv].
           ++ left. cbn [fst snd] in *. destruct l as [|q l]; [by inv Hp|].
              subst s. rewrite lookup_insert_eq. cbn [default].
              apply elem_of_app. right. apply list_elem_of_fmap. by exists p.
           ++ right. exists kv, p. by split.
Qed.

(** X28. GET /debug changes nothing.  Its dump has an entry list under
    the text category:key:subkey of a registration exactly when that
    registration has a producer, so that registrations without
    producers do not show; and the entries under a text are those of
    the producers of the registrations of that text, with the fields of
    the PeerInfo and of the tombstone as they stand. *)
Theorem doDebug_spec (ord : RangeOrder) (req : Request) (w : World) :
  let run := doDebug ord req w in
  run.2 = w /\
  exists data, run.1 = inr data /\
    (forall s, is_Some (data !! s) <->
       exists k l, registrationMap w !! k = Some l /\ l ≠ [] /\ debugKey k = s) /\
    (forall s e, e ∈ default [] (data !! s) <->
       exists k l p, registrationMap w !! k = Some l /\ debugKey k = s /\
                     p ∈ l /\ e = debugEntry w p).
Proof.
  cbn zeta. unfold doDebug, gets. cbn [fst snd]. split; [reflexivity|].
  eexists. split; [reflexivity|].
  destruct (doDebug_outer w (ord (registrationMap w)) ∅) as [Hkey Hentry].
  cbn zeta in *. split.
  - intros s. rewrite Hkey. split.
    + intros [Hs|([k l] & Hkv & Hne & Hs)].
      * rewrite lookup_empty in Hs. by destruct Hs.
      * apply range_lookup in Hkv. by exists k, l.
    + intros (k & l & Hk & Hne & Hs). right. exists (k, l).
      split; [by apply range_lookup | by split].
  - intros s e. rewrite Hentry. split.
    + intros [He|([k l] & p & Hkv & Hs & Hp & He)].
      * rewrite lookup_empty in He. by inv He.
      * apply range_lookup in Hkv. by exists k, l, p.
    + intros (k & l & p & Hk & Hs & Hp & He). right. exists (k, l), p.
      split; [by apply range_lookup | by split].
Qed.

(** ** REGISTER, then UNREGISTER of the channel *)

Section RegisterUnregister.
Context (ord : RangeOrder).
Context (IsValidTopicName IsValidChannelName : string -> bool).

(** X29. REGISTER topic channel followed by UNREGISTER topic channel on
    the same connection: both answer OK, no producer of the connection
    is listed under ("channel", topic, channel) any more, and the
    connection is still listed as a producer of ("topic", topic, ""):
    unregistering the channel does not unregister the topic. *)
Theorem REGISTER_UNREGISTER_channel (client : ClientV1) (a : ptr)
    (topic channel : string) (rest : list string) (w : World) :
  client_peerInfo client = Some a ->
  (a < length (peers w))%nat -> wellFormed w ->
  IsValidTopicName topic = true -> IsValidChannelName channel = true ->
  channel ≠ "" ->
  let params := topic :: channel :: rest in
  let cid := id (derefPeer w a) in
  let registered := REGISTER IsValidTopicName IsValidChannelName client params w in
  let run := UNREGISTER ord IsValidTopicName IsValidChannelName client params
               registered.2 in
  registered.1 = inr "OK" /\
  run.1 = inr "OK" /\
  ~ listedUnder run.2 cid {| Category := "channel"; Key := topic; SubKey := channel |} /\
  listedUnder run.2 cid {| Category := "topic"; Key := topic; SubKey := "" |}.
Proof.
  intros Ha Hlt Hw Ht Hc Hne params cid registered run. subst run registered params.
  set (chanKey := {| Category := "channel"; Key := topic; SubKey := channel |}).
  set (topicKey := {| Category := "topic"; Key := topic; SubKey := "" |}).
  rewrite (REGISTER_steps IsValidTopicName IsValidChannelName client a topic channel
             (topic :: channel :: rest) w Ha
             (getTopicChan_valid IsValidTopicName IsValidChannelName _ _ _ _ Ht Hc)).
  cbn [fst snd]. rewrite (bool_decide_eq_true_2 _ Hne). fold chanKey topicKey.
  split; [reflexivity|].
  destruct (registerOne_keeps a chanKey w Hlt Hw) as (Hw1 & Hlt1 & Hid1 & _).
  cbn zeta in *.
  set (w1 := registerOne a chanKey w) in *.
  destruct (registerOne_keeps a topicKey w1 Hlt1 Hw1) as (_ & _ & Hid2 & Hlisted & _).
  cbn zeta in *. rewrite Hid1 in Hid2, Hlisted. fold cid in Hid2, Hlisted.
  set (w2 := registerOne a topicKey w1) in *.
  rewrite (UNREGISTER_channel_run ord IsValidTopicName IsValidChannelName
             client a topic channel rest w2 Ha Ht Hc Hne).
  cbn [fst snd]. fold chanKey. rewrite Hid2.
  set (w3 := set_registrationMap (fun _ => unregisteredChannel w2 chanKey cid channel) w2).
  assert (forall q, producer_id w3 q = producer_id w2 q) as Hids by reflexivity.
  assert (chanKey ≠ topicKey) as Hkk by (intros [=]).
  split; [reflexivity|]. split.
  - intros (l & q & Hl & Hq & Hidq). rewrite Hids in Hidq.
    change (registrationMap w3) with (unregisteredChannel w2 chanKey cid channel) in Hl.
    unfold unregisteredChannel in Hl.
    destruct (registrationMap w2 !! chanKey) as [l0|] eqn:Hk; [|congruence].
    destruct (_ && _).
    + by rewrite lookup_delete_eq in Hl.
    + rewrite lookup_insert_eq in Hl. injection Hl as <-.
      by apply list_elem_of_filter in Hq as [Hq _].
  - destruct Hlisted as (l & q & Hl & Hq & Hidq). exists l, q.
    split; [|by split].
    change (registrationMap w3) with (unregisteredChannel w2 chanKey cid channel).
    unfold unregisteredChannel.
    destruct (registrationMap w2 !! chanKey) as [l0|]; [|done].
    destruct (_ && _); [by rewrite lookup_delete_ne | by rewrite lookup_insert_ne].
Qed.

End RegisterUnregister.

(** ** Tombstones are stamped in the past *)

Lemma ages_refl (w : World) : ages w w.
Proof. by repeat split. Qed.

Lemma ages_trans (w1 w2 w3 : World) : ages w1 w2 -> ages w2 w3 -> ages w1 w3.
Proof.
  intros (Hr1 & Ht1 & Hp1) (Hr2 & Ht2 & Hp2).
  split; [congruence|]. split; [lia|].
  intros p Hp. destruct (Hp2 p Hp) as [Hp' Hat]. destruct (Hp1 p Hp') as [Hp'' Hat'].
  split; [done | congruence].
Qed.

(** New producers come without a tombstone. *)
Lemma ages_grown (w w' : World) (extra : list Producer) :
  reading (clock w') = reading (clock w) -> (tick (clock w) <= tick (clock w'))%nat ->
  prods w' = prods w ++ extra -> Forall (fun pr => tombstoned pr = false) extra ->
  ages w w'.
Proof.
  intros Hr Ht Hpr Hextra. split; [exact Hr|]. split; [exact Ht|].
  intros p. unfold is_tombstoned, tombstoned_at, derefProd. rewrite Hpr.
  destruct (decide (p < length (prods w))%nat) as [Hlt|Hge].
  - by rewrite lookup_app_l.
  - rewrite lookup_app_r by lia.
    destruct (extra !! (p - length (prods w))%nat) as [pr|] eqn:Hp; cbn.
    + intros Htomb.
      assert (tombstoned pr = false) as Hfresh; [|congruence].
      apply (proj1 (Forall_forall _ _) Hextra). by eapply list_elem_of_lookup_2.
    + discriminate.
Qed.

Lemma ages_same (w w' : World) :
  prods w' = prods w -> clock w' = clock w -> ages w w'.
Proof.
  intros Hpr Hcl. apply (ages_grown w w' []); [by rewrite Hcl | by rewrite Hcl | |constructor].
  by rewrite app_nil_r.
Qed.

Lemma pastTombstones_ages (w w' : World) :
  ages w w' -> pastTombstones w -> pastTombstones w'.
Proof.
  intros (Hr & Ht & Hp) [Hmono Hpast]. split.
  - intros i j Hij. rewrite Hr. by apply Hmono.
  - intros p Htomb. destruct (Hp p Htomb) as [Hw Hat].
    destruct (Hpast p Hw) as (k & Hk & Heq). exists k. split; [lia|].
    by rewrite Hat, Hr.
Qed.

Lemma pastTombstones_started (c : Clock) :
  (forall i j, (i <= j)%nat -> reading c i <= reading c j) ->
  pastTombstones {| peers := []; prods := []; registrationMap := NewRegistrationDB;
                    clock := c |}.
Proof. intros Hmono. split; [exact Hmono|]. intros p Hp. discriminate Hp. Qed.

(** The one place where a tombstone is written. *)
Lemma pastTombstones_Tombstone (p : ptr) (w : World) :
  pastTombstones w -> pastTombstones (Tombstone p w).2.
Proof.
  intros [Hmono Hpast]. unfold Tombstone, bind, Now, modify. cbn [fst snd].
  split; [exact Hmono|].
  intros q. unfold is_tombstoned, tombstoned_at, derefProd. cbn.
  destruct (decide (q = p)) as [->|Hne].
  - destruct (decide (p < length (prods w))%nat) as [Hlt|Hge].
    + rewrite list_lookup_insert_eq by done. cbn. intros _.
      exists (tick (clock w)). split; [lia | reflexivity].
    + rewrite list_insert_ge by lia. intros Htomb.
      destruct (Hpast p Htomb) as (k & Hk & Heq). exists k. split; [lia | exact Heq].
  - rewrite list_lookup_insert_ne by done. intros Htomb.
    destruct (Hpast q Htomb) as (k & Hk & Heq). exists k. split; [lia | exact Heq].
Qed.

(** What the invariant gives FilterByActive: no tombstone is stamped
    after a reading that is still to be taken. *)
Lemma pastTombstones_during (w : World) (p : ptr) (m : nat) :
  pastTombstones w -> is_tombstoned w p = true -> (tick (clock w) < m)%nat ->
  tombstoned_at w p <= reading (clock w) m.
Proof.
  intros [Hmono Hpast] Htomb Hm. destruct (Hpast p Htomb) as (k & Hk & ->).
  apply Hmono. lia.
Qed.

Section TimeInvariant.
Context (ord : RangeOrder) (server : ServerInfo).
Context (IsValidTopicName IsValidChannelName : string -> bool).

Lemma doTombstoneTopicProducer_pastTombstones (req : Request) (w : World) :
  pastTombstones w -> pastTombstones (doTombstoneTopicProducer ord req w).2.
Proof.
  intros Hw. unfold doTombstoneTopicProducer.
  destruct (NewReqParams req) as [reqParams|]; [|exact Hw].
  destruct (Get reqParams "topic") as [T|]; [|exact Hw].
  destruct (Get reqParams "node") as [node|]; [|exact Hw].
  unfold bind at 1.
  assert ((FindProducers ord "topic" T "" w).2 = w) as Hfp by reflexivity.
  destruct (FindProducers ord "topic" T "" w) as [found w0]. cbn [snd] in Hfp. subst w0.
  unfold bind.
  pose proof (forM_state_invariant pastTombstones found (tombstoneBody node)) as Hloop.
  specialize (fun H => Hloop H tt w Hw).
  destruct (forM found (tombstoneBody node) tt w) as [[] w1]. cbn [snd] in *.
  apply Hloop. intros [] x w2 Hw2. unfold tombstoneBody, bind, gets. cbn [fst snd].
  destruct (bool_decide _); [by apply pastTombstones_Tombstone | exact Hw2].
Qed.

Lemma registerOne_ages (a : ptr) (k : Registration) (w : World) :
  ages w (registerOne a k w).
Proof.
  unfold registerOne.
  set (w0 := set_prods (fun h => h ++ [freshProducer a]) w).
  destruct (AddProducer_heaps k (length (prods w)) w0) as [_ Hpr].
  assert (clock (AddProducer k (length (prods w)) w0).2 = clock w) as Hcl.
  { unfold AddProducer. by destruct (existsb _ _). }
  apply (ages_grown w _ [freshProducer a]);
    [by rewrite Hcl | by rewrite Hcl | by rewrite Hpr |].
  by constructor.
Qed.

Lemma REGISTER_ages (client : ClientV1) (params : list string) (w : World) :
  ages w (REGISTER IsValidTopicName IsValidChannelName client params w).2.
Proof.
  destruct (client_peerInfo client) as [a|] eqn:Ha.
  - destruct (getTopicChan IsValidTopicName IsValidChannelName "REGISTER" params)
      as [err|[topic channel]] eqn:Hg.
    + unfold REGISTER. rewrite Ha, Hg. apply ages_refl.
    + rewrite (REGISTER_steps IsValidTopicName IsValidChannelName client a topic channel
                 params w Ha Hg).
      cbn [snd]. eapply ages_trans; [|apply registerOne_ages].
      destruct (bool_decide _); [apply registerOne_ages | apply ages_refl].
  - unfold REGISTER. rewrite Ha. apply ages_refl.
Qed.

Lemma UNREGISTER_ages (client : ClientV1) (params : list string) (w : World) :
  ages w (UNREGISTER ord IsValidTopicName IsValidChannelName client params w).2.
Proof.
  assert (forall k id_ w0, ages w0 (RemoveProducer k id_ w0).2) as Hrp.
  { intros k id_ w0. destruct (RemoveProducer_frame w0 k id_) as (_ & Hpr & Hcl).
    by apply ages_same. }
  unfold UNREGISTER.
  destruct (client_peerInfo client) as [a|]; [|apply ages_refl].
  destruct (getTopicChan _ _ _ _) as [err|[topic channel]]; [apply ages_refl|].
  unfold bind at 1.
  match goal with |- ages w (let (_, w') := ?m w in _).2 =>
    assert (ages w (m w).2) as Hm; [|by destruct (m w) as [[] w']]
  end.
  destruct (bool_decide (channel ≠ "")).
  - unfold bind, peer_id, gets. cbn [fst snd].
    pose proof (Hrp {| Category := "channel"; Key := topic; SubKey := channel |}
                  (id (derefPeer w a)) w) as H1.
    destruct (RemoveProducer _ _ w) as [rl w1]. cbn [fst snd] in *.
    destruct (_ && _); [|exact H1].
    eapply ages_trans; [exact H1|]. by apply ages_same.
  - unfold bind at 1.
    assert ((FindRegistrations ord "channel" topic "*" w).2 = w) as Hfr by reflexivity.
    destruct (FindRegistrations ord "channel" topic "*" w) as [rr w0].
    cbn [snd] in Hfr. subst w0. unfold bind at 1.
    match goal with |- context [forM rr ?body tt w] =>
      pose proof (forM_state_invariant (ages w) rr body) as Hloop;
      specialize (fun H => Hloop H tt w (ages_refl w));
      destruct (forM rr body tt w) as [[] w1]
    end.
    cbn [snd] in Hloop.
    assert (ages w w1) as Hw1.
    { apply Hloop. intros [] r w2 Hw2. unfold bind, peer_id, gets, ret. cbn [fst snd].
      pose proof (Hrp r (id (derefPeer w2 a)) w2) as H.
      destruct (RemoveProducer r _ w2) as [rl w3]. cbn [snd] in *.
      by eapply ages_trans. }
    unfold bind, peer_id, gets, ret. cbn [fst snd].
    pose proof (Hrp {| Category := "topic"; Key := topic; SubKey := "" |}
                  (id (derefPeer w1 a)) w1) as H.
    destruct (RemoveProducer _ _ w1) as [rl w3]. cbn [snd] in *.
    by eapply ages_trans.
Qed.

Lemma PING_ages (client : ClientV1) (params : list string) (w : World) :
  ages w (PING client params w).2.
Proof.
  unfold PING. destruct (client_peerInfo client) as [a|]; [|apply ages_refl].
  unfold bind, gets, Now, StoreLastUpdate, modify, ret. cbn [fst snd].
  apply (ages_grown w _ []); [reflexivity | cbn; lia | by rewrite app_nil_r | constructor].
Qed.

Lemma IDENTIFY_ages (client : ClientV1) (body : IdentifyBody) (w : World) :
  ages w (IDENTIFY server client body w).2.
Proof.
  unfold IDENTIFY.
  destruct (client_peerInfo client) as [a0|]; [apply ages_refl|].
  destruct body as [| | |ra hn ba tp hp v]; try apply ages_refl.
  destruct (_ || _); [apply ages_refl|].
  unfold bind, ret, Now, newPeerInfo, newProducer. cbn [fst snd].
  match goal with |- context [AddProducer ?k ?p ?w1] =>
    pose proof (AddProducer_heaps k p w1) as [_ Hpr];
    assert (clock (AddProducer k p w1).2 = clock w1) as Hcl
      by (unfold AddProducer; by destruct (existsb _ _));
    destruct (AddProducer k p w1) as [b w2]
  end.
  cbn [fst snd] in *.
  apply (ages_grown w w2 [freshProducer (length (peers w))]).
  - by rewrite Hcl.
  - rewrite Hcl. cbn. lia.
  - by rewrite Hpr.
  - by constructor.
Qed.

(** Every command of a connection keeps the invariant. *)
Lemma Exec_pastTombstones (client : ClientV1) (i : Input) (w : World) :
  pastTombstones w ->
  pastTombstones (Exec ord server IsValidTopicName IsValidChannelName client i w).2.
Proof.
  intros Hw. apply (pastTombstones_ages w); [|exact Hw]. unfold Exec.
  destruct (bool_decide (command i = "PING")).
  { pose proof (PING_ages client (command i :: arguments i) w) as H.
    unfold bind. by destruct (PING client _ w) as [r w1]. }
  destruct (bool_decide (command i = "IDENTIFY")).
  { pose proof (IDENTIFY_ages client (body i) w) as H.
    unfold bind. by destruct (IDENTIFY server client (body i) w) as [rc w1]. }
  destruct (bool_decide (command i = "REGISTER")).
  { pose proof (REGISTER_ages client (arguments i) w) as H.
    unfold bind. by destruct (REGISTER _ _ client _ w) as [r w1]. }
  destruct (bool_decide (command i = "UNREGISTER")).
  { pose proof (UNREGISTER_ages client (arguments i) w) as H.
    unfold bind. by destruct (UNREGISTER _ _ _ client _ w) as [r w1]. }
  apply ages_refl.
Qed.

End TimeInvariant.

(** ** Further properties at concrete states *)

Lemma AddProducer_RemoveProducer_witness :
  (RemoveProducer {| Category := "topic"; Key := "a"; SubKey := "" |}
     (producer_id twoNodes 3)
     (AddProducer {| Category := "topic"; Key := "a"; SubKey := "" |} 3%nat twoNodes).2).1
  = (true, 1%nat).
Proof.
  rewrite (AddProducer_RemoveProducer twoNodes
             {| Category := "topic"; Key := "a"; SubKey := "" |} 3%nat).
  - vm_compute. reflexivity.
  - replace (default [] (registrationMap twoNodes
                           !! {| Category := "topic"; Key := "a"; SubKey := "" |}))
      with [2%nat] by (vm_compute; reflexivity).
    intros q Hq. apply list_elem_of_singleton in Hq. subst q. vm_compute. discriminate.
Defined.

Lemma FilterByActive_idempotent_witness :
  (FilterByActive (FilterByActive [2; 3]%nat 300 45 twoNodes).1 300 45
     (FilterByActive [2; 3]%nat 300 45 twoNodes).2).1 = [2%nat].
Proof.
  rewrite (FilterByActive_idempotent 100 300 45 twoNodes [2; 3]%nat).
  - vm_compute. reflexivity.
  - intros n. reflexivity.
  - apply List.Forall_cons; [|apply List.Forall_cons; [|apply List.Forall_nil]];
      (split; [vm_compute; split; discriminate|]).
    + intros H. vm_compute in H. discriminate H.
    + intros _. vm_compute. split; discriminate.
Defined.

Lemma PING_heartbeat_witness :
  (PING clientA [] lateTombstone).1 = inr "OK" /\
  lastUpdate (derefPeer (PING clientA [] lateTombstone).2 0) = 120 /\
  (FilterByActive [0%nat] 5 15 (PING clientA [] lateTombstone).2).1 = [] /\
  (FilterByActive [0%nat] 10 15 (PING clientA [] lateTombstone).2).1 = [0%nat].
Proof.
  destruct (PING_heartbeat clientA 0%nat [] lateTombstone)
    as (Hok & _ & _ & _ & Hnew & Hactive).
  - reflexivity.
  - vm_compute. lia.
  - cbn zeta in *. split; [exact Hok|]. split; [rewrite Hnew; by vm_compute|].
    split.
    + rewrite Hactive; [by vm_compute | by vm_compute | by vm_compute].
    + rewrite Hactive; [by vm_compute | by vm_compute | by vm_compute].
Defined.

Lemma UNREGISTER_topic_witness :
  let run := UNREGISTER canonicalOrder validTopicName validChannelName clientA
               ["topicX"] registeredA in
  run.1 = inr "OK" /\
  dom (registrationMap run.2) = dom (registrationMap registeredA).
Proof.
  destruct (UNREGISTER_topic_spec canonicalOrder validTopicName validChannelName
              clientA 0%nat ["topicX"] "topicX" registeredA)
    as (Hok & _ & _ & Hdom & _).
  - reflexivity.
  - vm_compute. reflexivity.
  - by split.
Defined.

Lemma REGISTER_spec_witness :
  let run := REGISTER validTopicName validChannelName clientA ["topicY"; "ch2"]
               registeredA in
  run.1 = inr "OK" /\
  listedUnder run.2 "10.0.0.1:5000" {| Category := "topic"; Key := "topicY"; SubKey := "" |} /\
  listedUnder run.2 "10.0.0.1:5000"
    {| Category := "channel"; Key := "topicY"; SubKey := "ch2" |}.
Proof.
  destruct (REGISTER_spec validTopicName validChannelName clientA 0%nat "topicY" "ch2"
              ["topicY"; "ch2"] registeredA)
    as (Hok & _ & _ & _ & Htopic & Hchan & _).
  - reflexivity.
  - vm_compute. lia.
  - apply wellFormed_check; vm_compute; reflexivity.
  - vm_compute. reflexivity.
  - split; [exact Hok|]. split; [exact Htopic|]. apply Hchan. discriminate.
Defined.

Lemma REGISTER_idempotent_witness :
  let w' := (REGISTER validTopicName validChannelName clientA ["topicY"; "ch2"]
               registeredA).2 in
  registrationMap
    (REGISTER validTopicName validChannelName clientA ["topicY"; "ch2"] w').2 =
  registrationMap w'.
Proof.
  destruct (REGISTER_idempotent validTopicName validChannelName clientA 0%nat
              "topicY" "ch2" ["topicY"; "ch2"] registeredA) as [_ Hsame].
  - reflexivity.
  - vm_compute. lia.
  - apply wellFormed_check; vm_compute; reflexivity.
  - vm_compute. reflexivity.
  - exact Hsame.
Defined.


Lemma IOLoop_command_before_IDENTIFY_witness :
  IOLoop canonicalOrder lookupd validTopicName validChannelName "10.0.0.3:5000"
    hastyInputs started =
  (([ReplyBytes "E_INVALID client must IDENTIFY"], freshClient), started).
Proof.
  unfold hastyInputs.
  rewrite (IOLoop_command_before_IDENTIFY canonicalOrder lookupd validTopicName
             validChannelName "10.0.0.3:5000").
  - reflexivity.
  - discriminate.
  - discriminate.
Defined.

Lemma doChannels_spec_witness :
  let run := doChannels canonicalOrder {| query := Some [("topic", "topicX")] |}
               registeredA in
  run.2 = registeredA /\
  exists chans, run.1 = inr chans /\ NoDup chans /\
    forall c, c ∈ chans <->
      is_Some (registrationMap registeredA
                 !! {| Category := "channel"; Key := "topicX"; SubKey := c |}).
Proof.
  apply (doChannels_spec canonicalOrder [("topic", "topicX")] "topicX" registeredA).
  - reflexivity.
  - discriminate.
Defined.

Lemma doCreateTopic_spec_witness :
  let req := {| query := Some [("topic", "fresh")] |} in
  V1_status (doLookup canonicalOrder someOptions req identifiedA).1 = 404 /\
  V1_status (doLookup canonicalOrder someOptions req
               (doCreateTopic validTopicName req identifiedA).2).1 = 200.
Proof.
  split; [vm_compute; reflexivity|].
  destruct (doCreateTopic_spec canonicalOrder someOptions validTopicName
              [("topic", "fresh")] "fresh" identifiedA) as [_ Hvalid].
  - reflexivity.
  - apply Hvalid. vm_compute. reflexivity.
Defined.

Lemma doDeleteTopic_spec_witness :
  let req := {| query := Some [("topic", "topicX")] |} in
  V1_status (doLookup canonicalOrder someOptions req registeredA).1 = 200 /\
  (doLookup canonicalOrder someOptions req
     (doDeleteTopic canonicalOrder req registeredA).2).1 =
    inl {| Code := 404; Text := "TOPIC_NOT_FOUND" |}.
Proof.
  split; [vm_compute; reflexivity|].
  apply (doDeleteTopic_spec canonicalOrder someOptions [("topic", "topicX")] "topicX"
           registeredA).
  reflexivity.
Defined.

Lemma doCreateChannel_spec_witness :
  let run := doCreateChannel topicChannelArgs
               {| query := Some [("topic", "tA"); ("channel", "c1")] |} identifiedA in
  run.1 = inr tt /\
  registrationMap run.2 !! {| Category := "channel"; Key := "tA"; SubKey := "c1" |} =
    Some [] /\
  registrationMap run.2 !! {| Category := "topic"; Key := "tA"; SubKey := "" |} = Some [].
Proof.
  destruct (doCreateChannel_spec topicChannelArgs
              [("topic", "tA"); ("channel", "c1")] "tA" "c1" identifiedA)
    as (Hok & _ & _ & _ & Hchan & Htopic & _).
  - vm_compute. reflexivity.
  - cbn zeta in *. split; [exact Hok|]. split.
    + rewrite Hchan. vm_compute. reflexivity.
    + rewrite Htopic. vm_compute. reflexivity.
Defined.

Lemma doDeleteChannel_spec_witness :
  let req := {| query := Some [("topic", "topicX"); ("channel", "ch")] |} in
  let run := doDeleteChannel canonicalOrder topicChannelArgs req registeredA in
  run.1 = inr tt /\
  registrationMap run.2 !! {| Category := "channel"; Key := "topicX"; SubKey := "ch" |} =
    None /\
  registrationMap run.2 !! {| Category := "topic"; Key := "topicX"; SubKey := "" |} =
    Some [2%nat].
Proof.
  destruct (doDeleteChannel_spec canonicalOrder topicChannelArgs
              [("topic", "topicX"); ("channel", "ch")] "topicX" "ch" registeredA)
    as (_ & Hfound & Hother).
  - vm_compute. reflexivity.
  - cbn zeta in *.
    destruct Hfound as (Hok & _ & _ & _ & Hmap).
    { exists {| Category := "channel"; Key := "topicX"; SubKey := "ch" |}. split.
      - exists [1%nat]. vm_compute. reflexivity.
      - unfold matches. cbn. split; [done|]. split; by right. }
    split; [exact Hok|]. split.
    + rewrite Hmap. rewrite decide_True; [done|].
      unfold matches. cbn. split; [done|]. split; by right.
    + rewrite Hother by discriminate. vm_compute. reflexivity.
Defined.

Lemma doCreateChannel_doDeleteChannel_witness :
  let req := {| query := Some [("topic", "tA"); ("channel", "c1")] |} in
  let w1 := (doCreateChannel topicChannelArgs req identifiedA).2 in
  let run := doDeleteChannel canonicalOrder topicChannelArgs req w1 in
  run.1 = inr tt /\
  registrationMap run.2 !! {| Category := "channel"; Key := "tA"; SubKey := "c1" |} =
    None /\
  registrationMap run.2 !! {| Category := "topic"; Key := "tA"; SubKey := "" |} = Some [].
Proof.
  destruct (doCreateChannel_doDeleteChannel canonicalOrder topicChannelArgs
              [("topic", "tA"); ("channel", "c1")] "tA" "c1" identifiedA)
    as (Hok & Hchan & Htopic & _).
  - vm_compute. reflexivity.
  - discriminate.
  - discriminate.
  - cbn zeta in *. split; [exact Hok|]. split; [exact Hchan|].
    rewrite Htopic. vm_compute. reflexivity.
Defined.

Lemma tombstone_hides_from_lookup_witness :
  let req := {| query := Some [("topic", "a"); ("node", "B:4151")] |} in
  let w' := (doTombstoneTopicProducer canonicalOrder req sharedTopic).2 in
  (doLookup canonicalOrder someOptions req sharedTopic).1 =
    inr {| channels := []; producers := [0; 1]%nat |} /\
  (doLookup reverseOrder someOptions req w').1 =
    inr {| channels := []; producers := [0%nat] |} /\
  BroadcastAddress (derefPeer w' 0) +:+ ":" +:+ itoa (HTTPPort (derefPeer w' 0)) ≠ "B:4151".
Proof.
  split; [vm_compute; reflexivity|]. split; [vm_compute; reflexivity|].
  apply (tombstone_hides_from_lookup canonicalOrder reverseOrder someOptions
           [("topic", "a"); ("node", "B:4151")] "a" "B:4151" sharedTopic
           eq_refl eq_refl) with (data := {| channels := []; producers := [0%nat] |}).
  - discriminate.
  - apply allocated_check. vm_compute. reflexivity.
  - intros n m. vm_compute. reflexivity.
  - vm_compute. reflexivity.
  - by left.
Defined.

Lemma REGISTER_UNREGISTER_channel_witness :
  let registered := REGISTER validTopicName validChannelName clientA ["topicY"; "ch2"]
                      registeredA in
  let run := UNREGISTER canonicalOrder validTopicName validChannelName clientA
               ["topicY"; "ch2"] registered.2 in
  registered.1 = inr "OK" /\
  run.1 = inr "OK" /\
  ~ listedUnder run.2 "10.0.0.1:5000"
      {| Category := "channel"; Key := "topicY"; SubKey := "ch2" |} /\
  listedUnder run.2 "10.0.0.1:5000"
    {| Category := "topic"; Key := "topicY"; SubKey := "" |}.
Proof.
  apply (REGISTER_UNREGISTER_channel canonicalOrder validTopicName validChannelName
           clientA 0%nat "topicY" "ch2" [] registeredA).
  - reflexivity.
  - vm_compute. lia.
  - apply wellFormed_check; vm_compute; reflexivity.
  - vm_compute. reflexivity.
  - vm_compute. reflexivity.
  - discriminate.
Defined.
